(** * Pillar Quest: a shallow embedding of [main.py] and its verified properties

    The game is a single Python module built on pygame.  The embedding keeps
    the source's structure: one Rocq module per class ([Rect] for
    [pygame.Rect], [Player], [Bullet], [Enemy], [Checkpoint], [Camera],
    [LevelManager]) and one function per method, followed by the frame of
    [run_game].

    Modelling conventions.
    - Pixel coordinates are Python/C integers, modelled as [Z].
    - Velocities are Python floats.  They are modelled as the rational
      numbers they denote ([Q]), with addition exact.  The player's and the
      enemies' vertical velocities are sums of 0, -15 or -14.25 and multiples
      of 0.8, hence multiples of 1/20 that are never half-way between two
      integers, so [round] agrees with the floating-point run; the player's
      horizontal velocity is a whole number and an enemy's speed is at most
      negated before it is rounded.
    - A [pygame.sprite.Group] iterates in insertion order; it is modelled as a
      list, [kill()] as removal from the list.
    - Particles are cosmetic: no gameplay code reads the particle group, so it
      is left out of the game loop.  Draws from Python's [random] and the
      trigonometry of [math.atan2]/[cos]/[sin] are supplied by the caller (the
      frame input).  *)

From Stdlib Require Import ZArith QArith Qreduction List Bool String Ascii Lia.
Import ListNotations.
Local Open Scope Z_scope.

(** ** CONFIG *)

Definition WIDTH : Z := 960.
Definition HEIGHT : Z := 640.
Definition FPS : Z := 60.
Definition TILE : Z := 48.
Definition GRAVITY : Q := 4 # 5.                 (* 0.8 *)
Definition PLAYER_SPEED : Z := 6.
Definition PLAYER_JUMP_POWER : Z := -15.
Definition DOUBLE_JUMP_MULT : Q := 19 # 20.      (* 0.95 *)
Definition COYOTE_TIME : Z := 8.
Definition JUMP_BUFFER : Z := 8.
Definition MAX_LEVEL : Z := 6.

(** [int(FPS * 0.9)] and the threshold [FPS * 1.2] of the level-clear
    fallback; both products are whole numbers (54.0 and 72.0). *)
Definition TRANSITION_FRAMES : Z := 54.
Definition CLEAR_FRAMES : Z := 72.

(** ** Floats as rationals *)

Definition fadd (a b : Q) : Q := Qred (a + b).
Definition fmul (a b : Q) : Q := Qred (a * b).
Definition fpos (a : Q) : bool := 0 <? Qnum a.   (* a > 0 *)
Definition fneg (a : Q) : bool := Qnum a <? 0.   (* a < 0 *)

(** Python's [round(x)] on a float: nearest integer, ties to even. *)
Definition py_round (q : Q) : Z :=
  let n := Qnum q in
  let d := Z.pos (Qden q) in
  let f := n / d in
  let r := 2 * (n mod d) in
  if r <? d then f
  else if d <? r then f + 1
  else if Z.even f then f else f + 1.

(** ** pygame.Rect *)

(** Coordinates are unbounded integers.  pygame stores them as C [int] and
    raises when an assignment leaves that range; the model goes on instead,
    so statements about positions hold within the range. *)

Module Rect.

Record t := mk { x : Z; y : Z; w : Z; h : Z }.

Definition left (r : t) : Z := x r.
Definition top (r : t) : Z := y r.
Definition right (r : t) : Z := x r + w r.
Definition bottom (r : t) : Z := y r + h r.
(* C integer division truncates *)
Definition centerx (r : t) : Z := x r + Z.quot (w r) 2.
Definition centery (r : t) : Z := y r + Z.quot (h r) 2.
Definition center (r : t) : Z * Z := (centerx r, centery r).
Definition midbottom (r : t) : Z * Z := (centerx r, bottom r).

Definition move (r : t) (dx dy : Z) : t := mk (x r + dx) (y r + dy) (w r) (h r).
Definition set_left (r : t) (v : Z) : t := mk v (y r) (w r) (h r).
Definition set_right (r : t) (v : Z) : t := mk (v - w r) (y r) (w r) (h r).
Definition set_top (r : t) (v : Z) : t := mk (x r) v (w r) (h r).
Definition set_bottom (r : t) (v : Z) : t := mk (x r) (v - h r) (w r) (h r).
Definition set_topleft (r : t) (p : Z * Z) : t := mk (fst p) (snd p) (w r) (h r).
Definition set_midbottom (r : t) (p : Z * Z) : t :=
  mk (fst p - Z.quot (w r) 2) (snd p - h r) (w r) (h r).
Definition set_center (r : t) (p : Z * Z) : t :=
  mk (fst p - Z.quot (w r) 2) (snd p - Z.quot (h r) 2) (w r) (h r).

(** [Surface((w,h)).get_rect(...)] starts from a rect of that size at the
    origin. *)
Definition of_size (w h : Z) : t := mk 0 0 w h.

(** [a.colliderect(b)]: rectangles of zero width or height collide with
    nothing; edges that only touch do not overlap. *)
Definition colliderect (a b : t) : bool :=
  if (w a =? 0) || (h a =? 0) || (w b =? 0) || (h b =? 0) then false
  else (Z.min (x a) (x a + w a) <? Z.max (x b) (x b + w b))
    && (Z.min (y a) (y a + h a) <? Z.max (y b) (y b + h b))
    && (Z.min (x b) (x b + w b) <? Z.max (x a) (x a + w a))
    && (Z.min (y b) (y b + h b) <? Z.max (y a) (y a + h a)).

End Rect.

(** [pygame.sprite.spritecollide(sprite, group, False)]: the members of the
    group whose rect overlaps the sprite's, in group order, computed once. *)
Definition spritecollide {A : Type} (rect_of : A -> Rect.t) (r : Rect.t)
    (group : list A) : list A :=
  filter (fun s => Rect.colliderect r (rect_of s)) group.

(** [pygame.sprite.spritecollideany(sprite, group)]: the first such member. *)
Definition spritecollideany {A : Type} (rect_of : A -> Rect.t) (r : Rect.t)
    (group : list A) : option A :=
  find (fun s => Rect.colliderect r (rect_of s)) group.

(** ** Platform: a static rectangle *)

Module Platform.
Definition t := Rect.t.
Definition __init__ (x y w h : Z) : t :=
  Rect.set_topleft (Rect.of_size w h) (x, y).
End Platform.

(** ** Input devices *)

Inductive Key := K_SPACE | K_w | K_UP | K_p | K_r | K_other.

Inductive Event := QUIT | KEYDOWN (k : Key) | OTHER_EVENT.

(** [pygame.key.get_pressed()] and [pygame.mouse], sampled once per frame. *)
Record Controls := mkControls {
  k_a : bool; k_LEFT : bool; k_d : bool; k_RIGHT : bool; k_LSHIFT : bool;
  mouse_left : bool; mouse_pos : Z * Z
}.

(** The direction of a shot is [atan2(dy, dx)]; it is kept as the pair it is
    computed from.  An [Aim] returns, for a direction and a speed, the pair
    [(round(cos(angle)*speed), round(sin(angle)*speed))], the only way the
    float velocity of a bullet is ever read. *)
Definition Angle : Type := Z * Z.
Definition Aim : Type := Angle -> Z -> Z * Z.

(** ** Bullet *)

Inductive Owner := owner_player | owner_enemy.

Module Bullet.

(** [step_x], [step_y] are [round(self.vel.x)], [round(self.vel.y)]: the
    velocity is fixed at construction and only ever read through [round]. *)
Record t := mk { rect : Rect.t; step_x : Z; step_y : Z; owner : Owner }.

Definition __init__ (aim : Aim) (pos : Z * Z) (angle : Angle) (speed : Z)
    (o : Owner) : t :=
  let v := aim angle speed in
  mk (Rect.set_center (Rect.of_size 8 8) pos) (fst v) (snd v) o.

(** [update]: [None] when the bullet leaves the level and kills itself. *)
Definition update (LEVEL_WIDTH LEVEL_HEIGHT : Z) (b : t) : option t :=
  let r := Rect.move (Rect.move (rect b) (step_x b) 0) 0 (step_y b) in
  if (Rect.right r <? 0) || (LEVEL_WIDTH <? Rect.left r)
     || (LEVEL_HEIGHT <? Rect.top r) || (Rect.bottom r <? 0)
  then None
  else Some (mk r (step_x b) (step_y b) (owner b)).

End Bullet.

(** [group.update()] for a group of bullets: every member is updated, the
    ones that killed themselves drop out. *)
Fixpoint bullets_update (LEVEL_WIDTH LEVEL_HEIGHT : Z) (bs : list Bullet.t)
    : list Bullet.t :=
  match bs with
  | [] => []
  | b :: rest =>
      match Bullet.update LEVEL_WIDTH LEVEL_HEIGHT b with
      | Some b' => b' :: bullets_update LEVEL_WIDTH LEVEL_HEIGHT rest
      | None => bullets_update LEVEL_WIDTH LEVEL_HEIGHT rest
      end
  end.

(** ** Camera *)

Module Camera.

Record t := mk { rect : Rect.t; width : Z; height : Z }.

Definition __init__ (width height : Z) : t :=
  mk (Rect.mk 0 0 width height) width height.

(* target.rect.move(-self.rect.x, -self.rect.y) *)
Definition apply (c : t) (target : Rect.t) : Rect.t :=
  Rect.move target (- Rect.x (rect c)) (- Rect.y (rect c)).

Definition update (c : t) (target : Rect.t) : t :=
  let x := Rect.centerx target - WIDTH / 2 in
  let y := Rect.centery target - HEIGHT / 2 in
  let x := Z.max 0 (Z.min x (width c - WIDTH)) in
  let y := Z.max 0 (Z.min y (height c - HEIGHT)) in
  mk (Rect.set_topleft (rect c) (x, y)) (width c) (height c).

End Camera.

(** ** Particle *)

Module Particle.

Record t := mk {
  pos_x : Q; pos_y : Q;
  vel_x : Q; vel_y : Q;
  lifespan : Z;
  rect : Rect.t
}.

Definition __init__ (pos : Z * Z) (vel : Q * Q) (lifespan : Z) : t :=
  mk (inject_Z (fst pos)) (inject_Z (snd pos)) (fst vel) (snd vel) lifespan
     (Rect.set_center (Rect.of_size 4 4) pos).

(** [update]: [None] when the particle kills itself. *)
Definition update (p : t) : option t :=
  let vy := fadd (vel_y p) (3 # 10) in
  let px := fadd (pos_x p) (vel_x p) in
  let py := fadd (pos_y p) vy in
  let r := Rect.set_center (rect p) (py_round px, py_round py) in
  let life := lifespan p - 1 in
  if life <=? 0 then None else Some (mk px py (vel_x p) vy life r).

End Particle.

(** ** Player *)

Module Player.

Record t := mk {
  rect : Rect.t;
  vel_x : Q;
  vel_y : Q;
  speed : Z;
  jump_power : Z;
  on_ground : bool;
  double_jump : bool;
  dash_cooldown : Z;
  facing : Z;
  lives : Z;
  score : Z;
  coyote_timer : Z;
  jump_buffer : Z
}.

Definition set_rect (p : t) (v : Rect.t) : t :=
  mk v (vel_x p) (vel_y p) (speed p) (jump_power p) (on_ground p)
     (double_jump p) (dash_cooldown p) (facing p) (lives p) (score p)
     (coyote_timer p) (jump_buffer p).
Definition set_vel_x (p : t) (v : Q) : t :=
  mk (rect p) v (vel_y p) (speed p) (jump_power p) (on_ground p)
     (double_jump p) (dash_cooldown p) (facing p) (lives p) (score p)
     (coyote_timer p) (jump_buffer p).
Definition set_vel_y (p : t) (v : Q) : t :=
  mk (rect p) (vel_x p) v (speed p) (jump_power p) (on_ground p)
     (double_jump p) (dash_cooldown p) (facing p) (lives p) (score p)
     (coyote_timer p) (jump_buffer p).
Definition set_on_ground (p : t) (v : bool) : t :=
  mk (rect p) (vel_x p) (vel_y p) (speed p) (jump_power p) v
     (double_jump p) (dash_cooldown p) (facing p) (lives p) (score p)
     (coyote_timer p) (jump_buffer p).
Definition set_double_jump (p : t) (v : bool) : t :=
  mk (rect p) (vel_x p) (vel_y p) (speed p) (jump_power p) (on_ground p)
     v (dash_cooldown p) (facing p) (lives p) (score p)
     (coyote_timer p) (jump_buffer p).
Definition set_dash_cooldown (p : t) (v : Z) : t :=
  mk (rect p) (vel_x p) (vel_y p) (speed p) (jump_power p) (on_ground p)
     (double_jump p) v (facing p) (lives p) (score p)
     (coyote_timer p) (jump_buffer p).
Definition set_facing (p : t) (v : Z) : t :=
  mk (rect p) (vel_x p) (vel_y p) (speed p) (jump_power p) (on_ground p)
     (double_jump p) (dash_cooldown p) v (lives p) (score p)
     (coyote_timer p) (jump_buffer p).
Definition set_lives (p : t) (v : Z) : t :=
  mk (rect p) (vel_x p) (vel_y p) (speed p) (jump_power p) (on_ground p)
     (double_jump p) (dash_cooldown p) (facing p) v (score p)
     (coyote_timer p) (jump_buffer p).
Definition set_score (p : t) (v : Z) : t :=
  mk (rect p) (vel_x p) (vel_y p) (speed p) (jump_power p) (on_ground p)
     (double_jump p) (dash_cooldown p) (facing p) (lives p) v
     (coyote_timer p) (jump_buffer p).
Definition set_coyote_timer (p : t) (v : Z) : t :=
  mk (rect p) (vel_x p) (vel_y p) (speed p) (jump_power p) (on_ground p)
     (double_jump p) (dash_cooldown p) (facing p) (lives p) (score p)
     v (jump_buffer p).
Definition set_jump_buffer (p : t) (v : Z) : t :=
  mk (rect p) (vel_x p) (vel_y p) (speed p) (jump_power p) (on_ground p)
     (double_jump p) (dash_cooldown p) (facing p) (lives p) (score p)
     (coyote_timer p) v.

Definition __init__ (x y : Z) : t :=
  mk (Rect.set_midbottom (Rect.of_size 34 46) (x, y))
     0 0 PLAYER_SPEED PLAYER_JUMP_POWER false true 0 1 3 0 0 0.

Definition is_jump_key (k : Key) : bool :=
  match k with K_SPACE | K_w | K_UP => true | _ => false end.

Definition handle_events (events : list Event) (p : t) : t :=
  fold_left
    (fun p e =>
       match e with
       | KEYDOWN k => if is_jump_key k then set_jump_buffer p JUMP_BUFFER else p
       | _ => p
       end)
    events p.

(** One iteration of the loop of [collide] over the hit list. *)
Definition collide_hit (dir : string) (p : t) (q : Platform.t) : t :=
  let p :=
    if String.eqb dir "x" then
      let p :=
        if fpos (vel_x p) then set_rect p (Rect.set_right (rect p) (Rect.left q))
        else if fneg (vel_x p) then set_rect p (Rect.set_left (rect p) (Rect.right q))
        else p in
      set_vel_x p 0
    else p in
  if String.eqb dir "y" then
    if fpos (vel_y p) then
      set_vel_y
        (set_on_ground (set_rect p (Rect.set_bottom (rect p) (Rect.top q))) true) 0
    else if fneg (vel_y p) then
      set_vel_y (set_rect p (Rect.set_top (rect p) (Rect.bottom q))) 0
    else p
  else p.

Definition collide (platforms : list Platform.t) (dir : string) (p : t) : t :=
  let hits := spritecollide (fun q => q) (rect p) platforms in
  fold_left (collide_hit dir) hits p.

Definition respawn (p : t) (point : Z * Z) : t :=
  set_vel_y (set_vel_x (set_rect p (Rect.set_midbottom (rect p) point)) 0) 0.

(** The phases of [update], in source order. *)

(* movement keys and dash *)
Definition update_move (c : Controls) (p : t) : t :=
  let p := set_vel_x p 0 in
  let p := if k_a c || k_LEFT c
           then set_facing (set_vel_x p (inject_Z (- speed p))) (-1) else p in
  let p := if k_d c || k_RIGHT c
           then set_facing (set_vel_x p (inject_Z (speed p))) 1 else p in
  let p := if k_LSHIFT c && (dash_cooldown p <=? 0)
           then set_dash_cooldown (set_vel_x p (inject_Z (18 * facing p))) 45
           else p in
  if 0 <? dash_cooldown p then set_dash_cooldown p (dash_cooldown p - 1) else p.

(* jump buffering + coyote + double jump *)
Definition update_jump (prev_on_ground : bool) (p : t) : t :=
  let p :=
    if 0 <? jump_buffer p then
      if prev_on_ground || (0 <? coyote_timer p) then
        set_jump_buffer
          (set_double_jump
             (set_on_ground (set_vel_y p (inject_Z (jump_power p))) false) true) 0
      else if double_jump p then
        set_jump_buffer
          (set_double_jump
             (set_vel_y p (fmul (inject_Z (jump_power p)) DOUBLE_JUMP_MULT)) false) 0
      else p
    else p in
  if 0 <? jump_buffer p then set_jump_buffer p (jump_buffer p - 1) else p.

(* physics: self.vel.y += GRAVITY *)
Definition apply_gravity (p : t) : t := set_vel_y p (fadd (vel_y p) GRAVITY).

(* self.rect.x += round(self.vel.x); self.collide(platforms, 'x') *)
Definition resolve_x (platforms : list Platform.t) (p : t) : t :=
  collide platforms "x" (set_rect p (Rect.move (rect p) (py_round (vel_x p)) 0)).

(* self.rect.y += round(self.vel.y); self.collide(platforms, 'y') *)
Definition resolve_y (platforms : list Platform.t) (p : t) : t :=
  collide platforms "y" (set_rect p (Rect.move (rect p) 0 (py_round (vel_y p)))).

Definition update_physics (platforms : list Platform.t) (p : t) : t :=
  let p := apply_gravity p in
  let p := resolve_x platforms p in
  resolve_y platforms p.

(* coyote timer and double-jump recharge *)
Definition update_grounded (p : t) : t :=
  if on_ground p then set_double_jump (set_coyote_timer p COYOTE_TIME) true
  else if 0 <? coyote_timer p then set_coyote_timer p (coyote_timer p - 1)
  else p.

(* shooting *)
Definition update_shoot (aim : Aim) (c : Controls) (camera : Camera.t)
    (p : t) (bullets_group : list Bullet.t) : list Bullet.t :=
  if mouse_left c then
    let mx := fst (mouse_pos c) in
    let my := snd (mouse_pos c) in
    let bx := Rect.centerx (rect p) in
    let by_ := Rect.centery (rect p) in
    let dx := mx + Rect.x (Camera.rect camera) - bx in
    let dy := my + Rect.y (Camera.rect camera) - by_ in
    if Z.of_nat (List.length bullets_group) <? 6 then
      bullets_group ++ [Bullet.__init__ aim (bx, by_) (dy, dx) 12 owner_player]
    else bullets_group
  else bullets_group.

(* everything before the physics: keys, dash and jump *)
Definition update_controls (c : Controls) (p : t) : t :=
  let prev_on_ground := on_ground p in
  let p := set_on_ground p false in
  let p := update_move c p in
  update_jump prev_on_ground p.

(** [update]: the new player, the player's bullet group and whether the
    call returned ['died']. *)
Definition update (aim : Aim) (c : Controls) (camera : Camera.t)
    (LEVEL_HEIGHT : Z) (platforms : list Platform.t)
    (bullets_group : list Bullet.t) (p : t) : t * list Bullet.t * bool :=
  let p := update_controls c p in
  let p := update_physics platforms p in
  let p := update_grounded p in
  let bullets_group := update_shoot aim c camera p bullets_group in
  (* falling death *)
  if LEVEL_HEIGHT + 200 <? Rect.top (rect p)
  then (set_lives p (lives p - 1), bullets_group, true)
  else (p, bullets_group, false).

End Player.

(** ** Enemy *)

Inductive EType := patrol | chaser | shooter.

Module Enemy.

Record t := mk {
  rect : Rect.t;
  type : EType;
  speed : Q;
  dir : Z;
  aggro : bool;
  shoot_timer : Z;
  vel_y : Q
}.

(** [dir0] and [timer0] are the constructor's draws
    [random.choice([-1,1])] and [random.randint(30,120)]. *)
Definition __init__ (x y : Z) (etype : EType) (speed : Q) (dir0 timer0 : Z) : t :=
  mk (Rect.set_midbottom (Rect.of_size 36 40) (x, y)) etype speed dir0 false timer0 0.

Definition any_collides (platforms : list Platform.t) (r : Rect.t) : bool :=
  existsb (fun p => Rect.colliderect p r) platforms.

(* the sensor just ahead of and below the leading edge *)
Definition ahead_rect (e : t) : Rect.t :=
  let feet_x := Rect.centerx (rect e) + dir e * (Rect.w (rect e) / 2 + 6) in
  Rect.mk (feet_x - 4) (Rect.bottom (rect e)) 8 8.

Definition proposed_rect (e : t) : Rect.t :=
  Rect.move (rect e) (py_round (speed e * inject_Z (dir e))) 0.

Definition ground_hit (platforms : list Platform.t) (e : t) : bool :=
  any_collides platforms (ahead_rect e).

Definition wall_hit (platforms : list Platform.t) (e : t) : bool :=
  any_collides platforms (proposed_rect e).

(* the branch for 'patrol' and 'chaser' *)
Definition update_walk (platforms : list Platform.t) (player_rect : Rect.t)
    (e : t) : t :=
  if negb (ground_hit platforms e) || wall_hit platforms e then
    mk (rect e) (type e) (speed e) (dir e * -1) (aggro e) (shoot_timer e) (vel_y e)
  else
    match type e with
    | patrol =>
        mk (Rect.move (rect e) (py_round (speed e * inject_Z (dir e))) 0)
           (type e) (speed e) (dir e) (aggro e) (shoot_timer e) (vel_y e)
    | chaser =>
        let aggro' :=
          if Z.abs (Rect.centerx player_rect - Rect.centerx (rect e)) <? 400
          then true else aggro e in
        if aggro' then
          if Rect.centerx player_rect <? Rect.centerx (rect e) then
            mk (Rect.move (rect e) (- py_round (speed e)) 0)
               (type e) (speed e) (-1) aggro' (shoot_timer e) (vel_y e)
          else
            mk (Rect.move (rect e) (py_round (speed e)) 0)
               (type e) (speed e) 1 aggro' (shoot_timer e) (vel_y e)
        else
          mk (rect e) (type e) (speed e) (dir e) aggro' (shoot_timer e) (vel_y e)
    | shooter => e
    end.

(* the branch for 'shooter'; [new_timer] is the draw [random.randint(40,120)] *)
Definition update_shoot (aim : Aim) (new_timer : Z) (player_rect : Rect.t)
    (bullets_group : list Bullet.t) (e : t) : t * list Bullet.t :=
  let timer := shoot_timer e - 1 in
  if timer <=? 0 then
    let dx := Rect.centerx player_rect - Rect.centerx (rect e) in
    let dy := Rect.centery player_rect - Rect.centery (rect e) in
    (mk (rect e) (type e) (speed e) (dir e) (aggro e) new_timer (vel_y e),
     bullets_group ++ [Bullet.__init__ aim (Rect.center (rect e)) (dy, dx) 6 owner_enemy])
  else
    (mk (rect e) (type e) (speed e) (dir e) (aggro e) timer (vel_y e), bullets_group).

Definition land_hit (e : t) (p : Platform.t) : t :=
  if fpos (vel_y e) && (Rect.top p <? Rect.bottom (rect e)) then
    mk (Rect.set_bottom (rect e) (Rect.top p))
       (type e) (speed e) (dir e) (aggro e) (shoot_timer e) 0
  else e.

(* vertical physics *)
Definition update_fall (platforms : list Platform.t) (e : t) : t :=
  let v := fadd (vel_y e) GRAVITY in
  let e := mk (Rect.move (rect e) 0 (py_round v))
              (type e) (speed e) (dir e) (aggro e) (shoot_timer e) v in
  let hits := spritecollide (fun q => q) (rect e) platforms in
  fold_left land_hit hits e.

Definition update (aim : Aim) (new_timer : Z) (platforms : list Platform.t)
    (player_rect : Rect.t) (bullets_group : list Bullet.t) (e : t)
    : t * list Bullet.t :=
  let eb :=
    match type e with
    | patrol | chaser => (update_walk platforms player_rect e, bullets_group)
    | shooter => update_shoot aim new_timer player_rect bullets_group e
    end in
  (update_fall platforms (fst eb), snd eb).

End Enemy.

(** ** Checkpoint *)

Module Checkpoint.

Record t := mk { rect : Rect.t; activated : bool; respawn_point : Z * Z }.

Definition __init__ (platform : Platform.t) : t :=
  let r := Rect.set_midbottom (Rect.of_size 20 28)
             (Rect.centerx platform, Rect.top platform) in
  mk r false (Rect.centerx r, Rect.top r).

Definition activate (c : t) : t := mk (rect c) true (respawn_point c).

End Checkpoint.

(** ** Difficulty per level *)

Record Settings := mkSettings { enemy_count : Z; enemy_speed : Q }.

Definition DIFFICULTY (k : Z) : option Settings :=
  if k =? 1 then Some (mkSettings 4 1)
  else if k =? 2 then Some (mkSettings 6 (6 # 5))
  else if k =? 3 then Some (mkSettings 8 (3 # 2))
  else if k =? 4 then Some (mkSettings 10 (19 # 10))
  else if k =? 5 then Some (mkSettings 12 (23 # 10))
  else None.

(* max(DIFFICULTY.keys()) *)
Definition DIFFICULTY_MAX_KEY : Z := 5.

(** ** LEVELS *)

Definition LEVEL_TEMPLATES : list (list string) := [
  [ "..................................................";
    "..................................................";
    "..................................................";
    "....................C.............................";
    "..........#####..........#####....................";
    "..................................................";
    "......P...........................................";
    "##########......#####.............######..........";
    "..................................................";
    ".................................................." ];
  [ "..................................................";
    "....................C.............................";
    "...............#####.............#####............";
    "..................................................";
    "......P.....E......#####.....E....................";
    "....##########....................###########....";
    "..................................................";
    "..................#####......................E...";
    "..................................................";
    ".................................................." ];
  [ "..................................................";
    "....................................C.............";
    "..........#####..............####...............E";
    "..................................................";
    "........P...........#####.........................";
    "....##########....................######..........";
    ".............................E....................";
    "....................#####.........................";
    "..................................................";
    ".................................................." ]
]%string.

(** The draws of [random] behind one enemy.  A template enemy uses
    [pick3] ([random.choice] over the three types) and [uniform]
    ([random.uniform(0.8, 1.6)]); an extra enemy of [load_level] uses [grid_x],
    [grid_y] (the two [random.randint]) and [pick2] ([random.choice] over
    patrol and chaser, [true] for chaser); both use the constructor's
    [dir_right] and [timer]. *)
Record Roll := mkRoll {
  pick3 : EType;
  uniform : Q;
  grid_x : Z;
  grid_y : Z;
  pick2 : bool;
  dir_right : bool;
  timer : Z
}.

Definition roll_dir (r : Roll) : Z := if dir_right r then 1 else -1.

(** The draws of one level load: the [n]-th enemy created uses [rng n]. *)
Definition Rng : Type := nat -> Roll.

Record Level := mkLevel {
  lv_platforms : list Platform.t;
  lv_enemies : list Enemy.t;
  lv_collectibles : list Rect.t;
  lv_spawn : Z * Z;
  lv_checkpoints : list Checkpoint.t;
  lv_width : Z;
  lv_height : Z
}.

(** What the double loop of [build_level_from_template] accumulates. *)
Record Scan := mkScan {
  sc_platforms : list Platform.t;
  sc_enemies : list Enemy.t;
  sc_collectibles : list Rect.t;
  sc_spawn : Z * Z
}.

Definition scan_char (rng : Rng) (r c : Z) (ch : ascii) (s : Scan) : Scan :=
  let x := c * TILE in
  let y := r * TILE in
  if Ascii.eqb ch "#" then
    mkScan (sc_platforms s ++ [Platform.__init__ x y TILE TILE])
           (sc_enemies s) (sc_collectibles s) (sc_spawn s)
  else if Ascii.eqb ch "P" then
    mkScan (sc_platforms s) (sc_enemies s) (sc_collectibles s)
           (x + TILE / 2, y + TILE)
  else if Ascii.eqb ch "E" then
    let roll := rng (List.length (sc_enemies s)) in
    mkScan (sc_platforms s)
           (sc_enemies s ++
              [Enemy.__init__ (x + TILE / 2) (y + TILE) (pick3 roll) (uniform roll)
                 (roll_dir roll) (timer roll)])
           (sc_collectibles s) (sc_spawn s)
  else if Ascii.eqb ch "C" then
    mkScan (sc_platforms s) (sc_enemies s)
           (sc_collectibles s ++
              [Rect.set_center (Rect.of_size 20 20) (x + TILE / 2, y + TILE / 2)])
           (sc_spawn s)
  else s.

Fixpoint scan_row (rng : Rng) (r c : Z) (row : list ascii) (s : Scan) : Scan :=
  match row with
  | [] => s
  | ch :: rest => scan_row rng r (c + 1) rest (scan_char rng r c ch s)
  end.

Fixpoint scan_rows (rng : Rng) (r : Z) (rows : list string) (s : Scan) : Scan :=
  match rows with
  | [] => s
  | row :: rest =>
      scan_rows rng (r + 1) rest (scan_row rng r 0 (list_ascii_of_string row) s)
  end.

(** The key of the checkpoint platform: [(p.rect.left, -p.rect.top)], compared
    as Python compares tuples. *)
Definition key_lt (a b : Platform.t) : bool :=
  (Rect.left a <? Rect.left b)
  || ((Rect.left a =? Rect.left b) && (- Rect.top a <? - Rect.top b)).

(** Python's [max(iterable, key=...)]: the first element with the greatest key. *)
Definition py_max_key (first : Platform.t) (rest : list Platform.t) : Platform.t :=
  fold_left (fun best p => if key_lt best p then p else best) rest first.

(** [build_level_from_template]; [None] is the [IndexError] of [template[0]]
    on a template without rows. *)
Definition build_level_from_template (rng : Rng) (template : list string)
    : option Level :=
  match template with
  | [] => None
  | row0 :: _ =>
      let rows := Z.of_nat (List.length template) in
      let cols := Z.of_nat (String.length row0) in
      let level_w := cols * TILE in
      let level_h := rows * TILE in
      let s := scan_rows rng 0 template (mkScan [] [] [] (TILE * 2, TILE * 6)) in
      let checkpoints :=
        match sc_platforms s with
        | [] => []
        | p :: ps => [Checkpoint.__init__ (py_max_key p ps)]
        end in
      Some (mkLevel (sc_platforms s) (sc_enemies s) (sc_collectibles s)
                    (sc_spawn s) checkpoints level_w level_h)
  end.

(** ** LEVEL MANAGER *)

Module LevelManager.

(* DIFFICULTY.get(min(n, max(keys)), DIFFICULTY[max(keys)]) *)
Definition settings_for (n : Z) : Settings :=
  match DIFFICULTY (Z.min n DIFFICULTY_MAX_KEY) with
  | Some s => s
  | None => mkSettings 12 (23 # 10)
  end.

(* spawn extra enemies per difficulty; [lw], [lh] bound the two
   random.randint draws, 2..max(3, lw//TILE - 3) and 1..max(2, lh//TILE - 2) *)
Fixpoint add_extras (rng : Rng) (k : nat) (lw lh : Z) (speed : Q)
    (enemies : list Enemy.t) : list Enemy.t :=
  match k with
  | O => enemies
  | S k' =>
      let roll := rng (List.length enemies) in
      let x := grid_x roll * TILE in
      let y := grid_y roll * TILE in
      add_extras rng k' lw lh speed
        (enemies ++
           [Enemy.__init__ x y (if pick2 roll then chaser else patrol) speed
              (roll_dir roll) (timer roll)])
  end.

Definition load_level (rng : Rng) (n : Z) : option (Level * Settings) :=
  let template :=
    nth (Z.to_nat ((n - 1) mod Z.of_nat (List.length LEVEL_TEMPLATES)))
        LEVEL_TEMPLATES [] in
  match build_level_from_template rng template with
  | None => None
  | Some lv =>
      let settings := settings_for n in
      let missing :=
        Z.to_nat (enemy_count settings - Z.of_nat (List.length (lv_enemies lv))) in
      Some (mkLevel (lv_platforms lv)
              (add_extras rng missing (lv_width lv) (lv_height lv)
                 (enemy_speed settings) (lv_enemies lv))
              (lv_collectibles lv) (lv_spawn lv) (lv_checkpoints lv)
              (lv_width lv) (lv_height lv),
            settings)
  end.

End LevelManager.

(** ** GAME LOOP *)

(** The save file: [None] when [load_json] falls back to its default. *)
Definition Disk : Type := option Z.

Definition load_highscore (d : Disk) : Z :=
  match d with Some h => h | None => 0 end.

(** Everything one frame consumes from outside the program. *)
Record Input := mkInput {
  events : list Event;
  controls : Controls;
  aim : Aim;
  shooter_draw : nat -> Z;   (* random.randint(40,120) for the i-th enemy *)
  level_rng : Rng            (* the draws of a level load in this frame *)
}.

(** The locals of [run_game] and the globals it rebinds. *)
Record World := mkWorld {
  highscore : Z;
  LEVEL_WIDTH : Z;
  LEVEL_HEIGHT : Z;
  camera : Camera.t;
  platforms : list Platform.t;
  enemies : list Enemy.t;
  collectibles : list Rect.t;
  checkpoints : list Checkpoint.t;
  player_spawn : Z * Z;
  player : Player.t;
  bullets : list Bullet.t;
  enemy_bullets : list Bullet.t;
  level_num : Z;
  paused : bool;
  game_over : bool;
  win : bool;
  level_clear_cool : Z;
  level_transition_timer : Z;
  respawn_point : Z * Z
}.

(** How a frame ends: the loop goes on, [run_game] returns [True], the process
    exits (with the save file as it leaves it), or an exception escapes. *)
Inductive Outcome :=
| Continues (w : World)
| Restarted
| Exited (d : Disk)
| Crashed.

(** The state [run_game] sets up before its loop. *)
Definition run_game_init (d : Disk) (rng : Rng) : option World :=
  match LevelManager.load_level rng 1 with
  | None => None
  | Some (lv, _) =>
      let spawn := lv_spawn lv in
      Some (mkWorld (load_highscore d) (lv_width lv) (lv_height lv)
              (Camera.__init__ (lv_width lv) (lv_height lv))
              (lv_platforms lv) (lv_enemies lv) (lv_collectibles lv)
              (lv_checkpoints lv) spawn
              (Player.__init__ (fst spawn) (snd spawn)) [] []
              1 false false false 0 0 spawn)
  end.

(** *** The event loop at the top of a frame *)

Inductive Polled :=
| Proceed (paused' : bool)
| RestartRequested
| QuitRequested.

Fixpoint poll_events (evs : list Event) (game_over win : bool) (timer : Z)
    (paused : bool) : Polled :=
  match evs with
  | [] => Proceed paused
  | QUIT :: _ => QuitRequested
  | KEYDOWN k :: rest =>
      let paused :=
        match k with
        | K_p => if negb game_over && negb win && (timer =? 0)
                 then negb paused else paused
        | _ => paused
        end in
      match k with
      | K_r => RestartRequested
      | _ => poll_events rest game_over win timer paused
      end
  | OTHER_EVENT :: rest => poll_events rest game_over win timer paused
  end.

(* the QUIT handler: save only an improved score *)
Definition save_on_quit (d : Disk) (w : World) : Disk :=
  if highscore w <? Player.score (player w) then Some (Player.score (player w))
  else d.

(** *** A frame with the simulation frozen *)

Definition frozen_frame (inp : Input) (paused' : bool) (w : World) : Outcome :=
  if 0 <? level_transition_timer w then
    let timer := level_transition_timer w - 1 in
    if timer <=? 0 then
      (* advance to next level *)
      let level_num' := level_num w + 1 in
      if MAX_LEVEL <? level_num' then
        Continues
          (mkWorld (highscore w) (LEVEL_WIDTH w) (LEVEL_HEIGHT w) (camera w)
             (platforms w) (enemies w) (collectibles w) (checkpoints w)
             (player_spawn w) (player w) (bullets w) (enemy_bullets w)
             level_num' paused' (game_over w) true
             (level_clear_cool w) timer (respawn_point w))
      else
        match LevelManager.load_level (level_rng inp) level_num' with
        | None => Crashed
        | Some (lv, _) =>
            let spawn := lv_spawn lv in
            let p := Player.respawn (player w) spawn in
            let p := Player.set_lives p (Z.max 1 (Player.lives p)) in
            let p := Player.set_score p (Player.score p + 500 * level_num') in
            Continues
              (mkWorld (highscore w) (lv_width lv) (lv_height lv)
                 (Camera.__init__ (lv_width lv) (lv_height lv))
                 (lv_platforms lv) (lv_enemies lv) (lv_collectibles lv)
                 (lv_checkpoints lv) spawn p (bullets w) (enemy_bullets w)
                 level_num' paused' (game_over w) (win w)
                 (level_clear_cool w) timer spawn)
        end
    else
      Continues
        (mkWorld (highscore w) (LEVEL_WIDTH w) (LEVEL_HEIGHT w) (camera w)
           (platforms w) (enemies w) (collectibles w) (checkpoints w)
           (player_spawn w) (player w) (bullets w) (enemy_bullets w)
           (level_num w) paused' (game_over w) (win w)
           (level_clear_cool w) timer (respawn_point w))
  else
    Continues
      (mkWorld (highscore w) (LEVEL_WIDTH w) (LEVEL_HEIGHT w) (camera w)
         (platforms w) (enemies w) (collectibles w) (checkpoints w)
         (player_spawn w) (player w) (bullets w) (enemy_bullets w)
         (level_num w) paused' (game_over w) (win w)
         (level_clear_cool w) (level_transition_timer w) (respawn_point w)).

(** *** The passes of a simulated frame *)

(* outcome = player.update(...); if outcome == 'died': respawn, game-over test *)
Definition player_pass (inp : Input) (w : World)
    : Player.t * list Bullet.t * bool :=
  let p := Player.handle_events (events inp) (player w) in
  let '(p, bs, died) :=
    Player.update (aim inp) (controls inp) (camera w) (LEVEL_HEIGHT w)
      (platforms w) (bullets w) p in
  if died then
    let p := Player.respawn p (respawn_point w) in
    (p, bs, if Player.lives p <=? 0 then true else game_over w)
  else (p, bs, game_over w).

(* for e in list(enemies): e.update(platforms, player, enemy_bullets, particles) *)
Fixpoint enemies_update (aim : Aim) (draw : nat -> Z) (i : nat)
    (platforms : list Platform.t) (player_rect : Rect.t)
    (es : list Enemy.t) (ebs : list Bullet.t) : list Enemy.t * list Bullet.t :=
  match es with
  | [] => ([], ebs)
  | e :: rest =>
      let eb := Enemy.update aim (draw i) platforms player_rect ebs e in
      let rb := enemies_update aim draw (S i) platforms player_rect rest (snd eb) in
      (fst eb :: fst rb, snd rb)
  end.

Fixpoint remove_first {A : Type} (f : A -> bool) (l : list A) : list A :=
  match l with
  | [] => []
  | a :: rest => if f a then rest else a :: remove_first f rest
  end.

(* bullet collisions: player bullets against enemies *)
Fixpoint bullet_hits (bs : list Bullet.t) (es : list Enemy.t) (score : Z)
    : list Bullet.t * list Enemy.t * Z :=
  match bs with
  | [] => ([], es, score)
  | b :: rest =>
      match spritecollideany Enemy.rect (Bullet.rect b) es with
      | Some _ =>
          bullet_hits rest
            (remove_first (fun e => Rect.colliderect (Bullet.rect b) (Enemy.rect e)) es)
            (score + 100)
      | None =>
          let '(bs', es', score') := bullet_hits rest es score in
          (b :: bs', es', score')
      end
  end.

(* enemy bullets against the player *)
Fixpoint enemy_bullet_hits (player_rect : Rect.t) (ebs : list Bullet.t)
    (lives : Z) (game_over : bool) : list Bullet.t * Z * bool :=
  match ebs with
  | [] => ([], lives, game_over)
  | b :: rest =>
      if Rect.colliderect player_rect (Bullet.rect b) then
        let lives := lives - 1 in
        enemy_bullet_hits player_rect rest lives
          (if lives <=? 0 then true else game_over)
      else
        let '(ebs', lives', go') :=
          enemy_bullet_hits player_rect rest lives game_over in
        (b :: ebs', lives', go')
  end.

(* touch enemy *)
Definition touch_enemy (es : list Enemy.t) (p : Player.t) (game_over : bool)
    : Player.t * bool :=
  match spritecollideany Enemy.rect (Player.rect p) es with
  | Some _ =>
      let p := Player.set_lives p (Player.lives p - 1) in
      let p := Player.set_rect p (Rect.move (Player.rect p) (-60) 0) in
      (p, if Player.lives p <=? 0 then true else game_over)
  | None => (p, game_over)
  end.

(* collect collectibles *)
Fixpoint collect (player_rect : Rect.t) (cs : list Rect.t) (score : Z)
    : list Rect.t * Z :=
  match cs with
  | [] => ([], score)
  | c :: rest =>
      if Rect.colliderect player_rect c then collect player_rect rest (score + 50)
      else let '(cs', score') := collect player_rect rest score in (c :: cs', score')
  end.

(* checkpoint interaction: the body of the loop for one checkpoint *)
Definition checkpoint_touch (player_rect : Rect.t) (cp : Checkpoint.t)
    (respawn_point : Z * Z) (timer : Z) : Checkpoint.t * (Z * Z) * Z :=
  if Rect.colliderect player_rect (Checkpoint.rect cp) then
    if negb (Checkpoint.activated cp) then
      (Checkpoint.activate cp, Checkpoint.respawn_point cp, TRANSITION_FRAMES)
    else (cp, respawn_point, timer)
  else (cp, respawn_point, timer).

Fixpoint checkpoint_pass (player_rect : Rect.t) (cps : list Checkpoint.t)
    (respawn_point : Z * Z) (timer : Z) : list Checkpoint.t * (Z * Z) * Z :=
  match cps with
  | [] => ([], respawn_point, timer)
  | cp :: rest =>
      let '(cp', rp, t) := checkpoint_touch player_rect cp respawn_point timer in
      let '(rest', rp', t') := checkpoint_pass player_rect rest rp t in
      (cp' :: rest', rp', t')
  end.

(* level clear fallback: the new (level_clear_cool, level_transition_timer) *)
Definition level_clear (es : list Enemy.t) (cs : list Rect.t) (cool timer : Z)
    : Z * Z :=
  let cleared := (Z.of_nat (List.length es) =? 0) && (Z.of_nat (List.length cs) =? 0) in
  if cleared && (timer =? 0) then
    let cool := cool + 1 in
    if CLEAR_FRAMES <? cool then (0, TRANSITION_FRAMES) else (cool, timer)
  else if negb cleared then (0, timer)
  else (cool, timer).

(** *** A simulated frame *)

Definition play_frame (inp : Input) (paused' : bool) (w : World) : World :=
  let '(p, bs, go) := player_pass inp w in
  let bs := bullets_update (LEVEL_WIDTH w) (LEVEL_HEIGHT w) bs in
  let '(es, ebs) :=
    enemies_update (aim inp) (shooter_draw inp) 0 (platforms w) (Player.rect p)
      (enemies w) (enemy_bullets w) in
  let ebs := bullets_update (LEVEL_WIDTH w) (LEVEL_HEIGHT w) ebs in
  let '(bs, es, score) := bullet_hits bs es (Player.score p) in
  let p := Player.set_score p score in
  let '(ebs, lives, go) := enemy_bullet_hits (Player.rect p) ebs (Player.lives p) go in
  let p := Player.set_lives p lives in
  let '(p, go) := touch_enemy es p go in
  let '(cs, score) := collect (Player.rect p) (collectibles w) (Player.score p) in
  let p := Player.set_score p score in
  let '(cps, rp, timer) :=
    checkpoint_pass (Player.rect p) (checkpoints w) (respawn_point w)
      (level_transition_timer w) in
  let '(cool, timer) := level_clear es cs (level_clear_cool w) timer in
  mkWorld (highscore w) (LEVEL_WIDTH w) (LEVEL_HEIGHT w)
    (Camera.update (camera w) (Player.rect p))
    (platforms w) es cs cps (player_spawn w) p bs ebs
    (level_num w) paused' go (win w) cool timer rp.

(** *** One pass of the [while True] loop *)

Definition frame (inp : Input) (d : Disk) (w : World) : Outcome :=
  match poll_events (events inp) (game_over w) (win w) (level_transition_timer w)
          (paused w) with
  | QuitRequested => Exited (save_on_quit d w)
  | RestartRequested => Restarted
  | Proceed paused' =>
      if paused' || game_over w || win w || (0 <? level_transition_timer w)
      then frozen_frame inp paused' w
      else Continues (play_frame inp paused' w)
  end.

(** [run_game] over the frames for which input is given. *)
Fixpoint run_frames (inputs : list Input) (d : Disk) (w : World) : Outcome :=
  match inputs with
  | [] => Continues w
  | inp :: rest =>
      match frame inp d w with
      | Continues w' => run_frames rest d w'
      | o => o
      end
  end.

Definition run_game (d : Disk) (rng : Rng) (inputs : list Input) : Outcome :=
  match run_game_init d rng with
  | None => Crashed
  | Some w => run_frames inputs d w
  end.

(** The entry point: [run_game] again after every restart.  A session is the
    draws of its first level and its frames; the result is the save file left
    behind. *)
Fixpoint main (d : Disk) (sessions : list (Rng * list Input)) : Disk :=
  match sessions with
  | [] => d
  | (rng, inputs) :: rest =>
      match run_game d rng inputs with
      | Restarted => main d rest
      | Exited d' => d'
      | _ => d
      end
  end.

(** ** Vocabulary of the properties *)

(** Every rectangle the game builds has positive width and height. *)
Definition positive (r : Rect.t) : Prop := 0 < Rect.w r /\ 0 < Rect.h r.

(** No platform of the set overlaps the rectangle. *)
Definition overlaps_none (platforms : list Platform.t) (r : Rect.t) : Prop :=
  forall q, In q platforms -> Rect.colliderect r q = false.

(** The hit list [collide] works on after the horizontal move. *)
Definition hits_x (platforms : list Platform.t) (p : Player.t) : list Platform.t :=
  spritecollide (fun q => q)
    (Rect.move (Player.rect p) (py_round (Player.vel_x p)) 0) platforms.

(** The hit list [collide] works on after the vertical move. *)
Definition hits_y (platforms : list Platform.t) (p : Player.t) : list Platform.t :=
  spritecollide (fun q => q)
    (Rect.move (Player.rect p) 0 (py_round (Player.vel_y p))) platforms.

(** Two adjacent tiles of one template row, in the order the level builder
    inserts them, and a player whose rectangle reaches into the right one
    (as the 60-pixel knock-back of an enemy touch can leave it), walking
    left. *)
Definition tile_A : Platform.t := Platform.__init__ 0 0 TILE TILE.
Definition tile_B : Platform.t := Platform.__init__ 48 0 TILE TILE.
Definition walker_left : Player.t :=
  Player.mk (Rect.mk 53 10 34 46) (inject_Z (-6)) 0
    PLAYER_SPEED PLAYER_JUMP_POWER false true 0 (-1) 3 0 0 0.

(** A player moves diagonally into a corner of a tile: before the step its
    rectangle is clear of the tile on both axes (edges may touch), the step
    moves it on both axes, and the rectangle moved on both axes overlaps the
    tile.  [dx], [dy] are the rounded horizontal velocity and the rounded
    vertical velocity after gravity. *)
Definition corner_approach (p : Player.t) (q : Platform.t) : Prop :=
  let dx := py_round (Player.vel_x p) in
  let dy := py_round (fadd (Player.vel_y p) GRAVITY) in
  (Rect.right (Player.rect p) <= Rect.left q \/
   Rect.right q <= Rect.left (Player.rect p)) /\
  (Rect.bottom (Player.rect p) <= Rect.top q \/
   Rect.bottom q <= Rect.top (Player.rect p)) /\
  dx <> 0 /\ dy <> 0 /\
  Rect.colliderect (Rect.move (Player.rect p) dx dy) q = true.

(** Before the step the player is level with no platform: each one lies
    entirely below its feet or entirely above its head. *)
Definition clear_of_rows (platforms : list Platform.t) (p : Player.t) : Prop :=
  forall q, In q platforms ->
    Rect.bottom (Player.rect p) <= Rect.top q \/
    Rect.bottom q <= Rect.top (Player.rect p).

(** The outcome of a contact with a vertical (X) face of the tile: the
    player is stopped flush against its left or right edge. *)
Definition stopped_at_x_face (p' : Player.t) (q : Platform.t) : Prop :=
  Player.vel_x p' = 0%Q /\
  (Rect.right (Player.rect p') = Rect.left q \/
   Rect.left (Player.rect p') = Rect.right q).

(** The outcome of a contact with a horizontal (Y) face of the tile when the
    step moves the player by [dy]: going down it stands on the top face,
    grounded; going up its head is against the bottom face. *)
Definition stopped_at_y_face (dy : Z) (p' : Player.t) (q : Platform.t) : Prop :=
  Player.vel_y p' = 0%Q /\
  (0 < dy -> Rect.bottom (Player.rect p') = Rect.top q /\ Player.on_ground p' = true) /\
  (dy < 0 -> Rect.top (Player.rect p') = Rect.bottom q).

(** A tile and a player falling at 45 degrees (6 pixels right, 6 down after
    gravity) whose bottom-right corner is 3 pixels short of the tile's
    top-left corner on both axes. *)
Definition corner_tile : Platform.t := Platform.__init__ 96 96 TILE TILE.
Definition corner_player : Player.t :=
  Player.mk (Rect.mk 59 47 34 46) (inject_Z 6) (inject_Z 5)
    PLAYER_SPEED PLAYER_JUMP_POWER false true 0 1 3 0 0 0.

(** The state a fired double jump leaves behind: airborne, coyote time run
    out, charge used. *)
Definition spent (p : Player.t) : Prop :=
  Player.double_jump p = false /\ Player.on_ground p = false /\
  Player.coyote_timer p = 0.

(** The player's own state as [update] leaves it. *)
Definition updated (aim : Aim) (c : Controls) (camera : Camera.t)
    (LEVEL_HEIGHT : Z) (platforms : list Platform.t)
    (bullets_group : list Bullet.t) (p : Player.t) : Player.t :=
  fst (fst (Player.update aim c camera LEVEL_HEIGHT platforms bullets_group p)).

(** The player at the end of each frame of a run, as long as the loop goes
    on. *)
Fixpoint players_of (inputs : list Input) (d : Disk) (w : World) : list Player.t :=
  match inputs with
  | [] => []
  | inp :: rest =>
      match frame inp d w with
      | Continues w' => player w' :: players_of rest d w'
      | _ => []
      end
  end.

(** A player in mid-air over a single tile with a jump press buffered, the
    coyote time run out and the double jump still charged. *)
Definition jumper : Player.t :=
  Player.mk (Rect.mk 100 0 34 46) 0 (inject_Z 3)
    PLAYER_SPEED PLAYER_JUMP_POWER false true 0 1 3 0 0 5.
Definition no_keys : Controls :=
  mkControls false false false false false false (0, 0).
Definition no_aim : Aim := fun _ _ => (0, 0).

(** [update] after its controls phase. *)
Definition after_controls (aim : Aim) (c : Controls) (camera : Camera.t)
    (LEVEL_HEIGHT : Z) (platforms : list Platform.t)
    (bullets_group : list Bullet.t) (p : Player.t) : Player.t * list Bullet.t * bool :=
  let p := Player.update_physics platforms p in
  let p := Player.update_grounded p in
  let bullets_group := Player.update_shoot aim c camera p bullets_group in
  if LEVEL_HEIGHT + 200 <? Rect.top (Player.rect p)
  then (Player.set_lives p (Player.lives p - 1), bullets_group, true)
  else (p, bullets_group, false).

(** Two player states agree on what the jump logic reads. *)
Definition same_jump_state (a b : Player.t) : Prop :=
  Player.on_ground a = Player.on_ground b /\
  Player.double_jump a = Player.double_jump b /\
  Player.coyote_timer a = Player.coyote_timer b.

(** The loss condition of the loop: a player without lives has lost. *)
Definition lost_when_dead (w : World) : Prop :=
  Player.lives (player w) <= 0 -> game_over w = true.

(** A session of level 1 in which the four extra enemies are patrols
    standing on the first platform at grid columns 6, 5 and 8 (next to the
    player's spawn) and at column 47, and the player holds LEFT: it is touched
    twice, walks off the left end of the platform and falls. *)
Definition ambush_roll (gx : Z) (right : bool) : Roll :=
  mkRoll patrol 1 gx 7 false right 60.
Definition ambush_rng : Rng :=
  fun n =>
    match n with
    | 0%nat => ambush_roll 6 false
    | 1%nat => ambush_roll 5 false
    | 2%nat => ambush_roll 8 false
    | _ => ambush_roll 47 true
    end.
(** The draws of an extra enemy lie within the ranges [load_level] asks
    [random.randint] for, in a level of [lw] by [lh] pixels. *)
Definition extra_roll_in_range (lw lh : Z) (r : Roll) : bool :=
  (2 <=? grid_x r) && (grid_x r <=? Z.max 3 (lw / TILE - 3))
  && (1 <=? grid_y r) && (grid_y r <=? Z.max 2 (lh / TILE - 2))
  && (30 <=? timer r) && (timer r <=? 120).

Definition hold_left : Input :=
  mkInput [] (mkControls false true false false false false (0, 0))
    no_aim (fun _ => 60) ambush_rng.

(** Lives and the game-over flag after [n] frames of that session. *)
Definition ambush_after (n : nat) : option (Z * bool) :=
  match run_game None ambush_rng (repeat hold_left n) with
  | Continues w => Some (Player.lives (player w), game_over w)
  | _ => None
  end.

(** The horizontal test of the chaser: the player's centre is within 400
    pixels of the enemy's. *)
Definition in_chase_range (player_rect : Rect.t) (e : Enemy.t) : bool :=
  Z.abs (Rect.centerx player_rect - Rect.centerx (Enemy.rect e)) <? 400.

(** Both probes let the enemy walk: ground ahead and no wall. *)
Definition probes_pass (platforms : list Platform.t) (e : Enemy.t) : bool :=
  Enemy.ground_hit platforms e && negb (Enemy.wall_hit platforms e).

(** A chaser over a sequence of updates; each step brings the platforms and
    the player's rectangle of its frame. *)
Fixpoint chase_run (aim : Aim) (steps : list (list Platform.t * Rect.t)) (e : Enemy.t)
    : Enemy.t :=
  match steps with
  | [] => e
  | (platforms, player_rect) :: rest =>
      chase_run aim rest (fst (Enemy.update aim 60 platforms player_rect [] e))
  end.

(** A chaser of speed 1 standing on [corner_tile] (which spans x = 96..144),
    facing left, and a player's rectangle 99 pixels to its left.  At x = 98
    the sensor ahead of the chaser finds no ground; at x = 110 it does. *)
Definition chaser_at (x : Z) (aggro : bool) : Enemy.t :=
  Enemy.mk (Rect.mk x 56 36 40) chaser 1 (-1) aggro 60 0.
Definition left_player_rect : Rect.t := Rect.mk 0 50 34 46.

(** The checkpoint loop run once per player rectangle of a list: the player
    touching (or not touching) the checkpoints frame after frame. *)
Fixpoint touch_many (rects : list Rect.t) (cps : list Checkpoint.t)
    (respawn_point : Z * Z) (timer : Z) : list Checkpoint.t * (Z * Z) * Z :=
  match rects with
  | [] => (cps, respawn_point, timer)
  | r :: rest =>
      let '(cps', rp, t) := checkpoint_pass r cps respawn_point timer in
      touch_many rest cps' rp t
  end.

(** The same checkpoint one frame later: same place, same respawn point, and
    still activated if it was. *)
Definition checkpoint_kept (a b : Checkpoint.t) : Prop :=
  Checkpoint.rect b = Checkpoint.rect a /\
  Checkpoint.respawn_point b = Checkpoint.respawn_point a /\
  (Checkpoint.activated a = true -> Checkpoint.activated b = true).

(** The flag the level builder puts on [corner_tile], and a player rectangle
    that overlaps it. *)
Definition corner_flag : Checkpoint.t := Checkpoint.__init__ corner_tile.
Definition at_flag_rect : Rect.t := Rect.mk 100 50 34 46.

(** The events of the frame ask neither to quit nor to restart. *)
Definition requests_exit (evs : list Event) : bool :=
  existsb (fun e => match e with QUIT | KEYDOWN K_r => true | _ => false end) evs.

(** A world one frame before its transition countdown runs out, at a given
    stage and with a given number of lives, the player holding 150 points;
    and a frame without events. *)
Definition transition_world (stage lives : Z) : World :=
  mkWorld 0 2400 480 (Camera.__init__ 2400 480) [corner_tile] [] [] [] (312, 336)
    (Player.set_score (Player.set_lives (Player.__init__ 312 336) lives) 150)
    [] [] stage false false false 0 1 (312, 336).
Definition idle_input : Input :=
  mkInput [] no_keys no_aim (fun _ => 60) ambush_rng.

(** The cleared-level condition: no enemy and no collectible left. *)
Definition is_cleared (w : World) : bool :=
  (Z.of_nat (List.length (enemies w)) =? 0)
  && (Z.of_nat (List.length (collectibles w)) =? 0).

(** The frame runs the simulation: no quit or restart request, and after the
    pause key neither paused nor game over nor won nor counting down. *)
Definition simulated (inp : Input) (w : World) : bool :=
  match poll_events (events inp) (game_over w) (win w) (level_transition_timer w)
          (paused w) with
  | Proceed pz =>
      negb (pz || game_over w || win w || (0 <? level_transition_timer w))
  | _ => false
  end.

(** The number of simulated frames, counted back from the end of a run, that
    each ended with the level cleared; [acc] is the count before the run. *)
Fixpoint clear_streak (inputs : list Input) (d : Disk) (w : World) (acc : Z) : Z :=
  match inputs with
  | [] => acc
  | inp :: rest =>
      match frame inp d w with
      | Continues w' =>
          clear_streak rest d w'
            (if simulated inp w then (if is_cleared w' then acc + 1 else 0) else acc)
      | _ => acc
      end
  end.

Definition session_streak (d : Disk) (rng : Rng) (inputs : list Input) : Z :=
  match run_game_init d rng with
  | Some w0 => clear_streak inputs d w0 0
  | None => 0
  end.

(** A world without enemies, collectibles and checkpoints, the player
    standing on [corner_tile]. *)
Definition cleared_world (cool : Z) : World :=
  mkWorld 0 2400 480 (Camera.__init__ 2400 480) [corner_tile] [] [] [] (120, 96)
    (Player.__init__ 120 96) [] [] 1 false false false cool 0 (120, 96).

(** The clear counter and the countdown after [n] idle frames in it. *)
Definition cleared_after (n : nat) : option (Z * Z) :=
  match run_frames (repeat idle_input n) None (cleared_world 0) with
  | Continues w => Some (level_clear_cool w, level_transition_timer w)
  | _ => None
  end.

(** The platform tiles of a template, read row by row: one tile per '#'. *)
Fixpoint tiles_of_row (r c : Z) (row : list ascii) : list Platform.t :=
  match row with
  | [] => []
  | ch :: rest =>
      (if Ascii.eqb ch "#" then [Platform.__init__ (c * TILE) (r * TILE) TILE TILE]
       else [])
      ++ tiles_of_row r (c + 1) rest
  end.

Fixpoint tiles_of (r : Z) (rows : list string) : list Platform.t :=
  match rows with
  | [] => []
  | row :: rest => tiles_of_row r 0 (list_ascii_of_string row) ++ tiles_of (r + 1) rest
  end.

Definition has_platform_tile (template : list string) : bool :=
  existsb (fun row => existsb (fun ch => Ascii.eqb ch "#") (list_ascii_of_string row))
    template.

(** [q] is the platform the checkpoint goes on: none lies further right, and
    of those as far right none lies higher. *)
Definition rightmost_highest (platforms : list Platform.t) (q : Platform.t) : Prop :=
  In q platforms /\
  forall p, In p platforms ->
    Rect.left p <= Rect.left q /\ (Rect.left p = Rect.left q -> Rect.top q <= Rect.top p).

(** Frames whose only event is the R key, or the window being closed. *)
Definition restart_input : Input :=
  mkInput [KEYDOWN K_r] no_keys no_aim (fun _ => 60) ambush_rng.
Definition quit_input : Input :=
  mkInput [QUIT] no_keys no_aim (fun _ => 60) ambush_rng.

(** ** Vocabulary of the further properties *)

(** A bullet's rectangle has not left a level of the given size. *)
Definition in_level (LEVEL_WIDTH LEVEL_HEIGHT : Z) (r : Rect.t) : Prop :=
  0 <= Rect.right r /\ Rect.left r <= LEVEL_WIDTH /\
  Rect.top r <= LEVEL_HEIGHT /\ 0 <= Rect.bottom r.

(** A bullet after [n] updates, [None] once it has killed itself. *)
Fixpoint bullet_flight (n : nat) (LEVEL_WIDTH LEVEL_HEIGHT : Z) (b : Bullet.t)
    : option Bullet.t :=
  match n with
  | O => Some b
  | S n' =>
      match Bullet.update LEVEL_WIDTH LEVEL_HEIGHT b with
      | Some b' => bullet_flight n' LEVEL_WIDTH LEVEL_HEIGHT b'
      | None => None
      end
  end.

(** A particle after [n] updates, [None] once it has killed itself. *)
Fixpoint particle_life (n : nat) (p : Particle.t) : option Particle.t :=
  match n with
  | O => Some p
  | S n' =>
      match Particle.update p with
      | Some p' => particle_life n' p'
      | None => None
      end
  end.

(** The bounds the player's frame counters and facing keep. *)
Definition player_in_bounds (p : Player.t) : Prop :=
  0 <= Player.dash_cooldown p <= 44 /\
  0 <= Player.jump_buffer p <= JUMP_BUFFER /\
  0 <= Player.coyote_timer p <= COYOTE_TIME /\
  (Player.facing p = 1 \/ Player.facing p = -1) /\
  Player.speed p = PLAYER_SPEED /\ Player.jump_power p = PLAYER_JUMP_POWER /\
  Rect.w (Player.rect p) = 34 /\ Rect.h (Player.rect p) = 46.

(** Two player states agree on what only the controls of [update] change. *)
Definition same_build (a b : Player.t) : Prop :=
  Player.speed a = Player.speed b /\ Player.jump_power a = Player.jump_power b /\
  Player.dash_cooldown a = Player.dash_cooldown b /\ Player.facing a = Player.facing b /\
  Rect.w (Player.rect a) = Rect.w (Player.rect b) /\
  Rect.h (Player.rect a) = Rect.h (Player.rect b).

(** Two player states agree on every counter of [player_in_bounds]. *)
Definition same_counters (a b : Player.t) : Prop :=
  same_build a b /\
  Player.jump_buffer a = Player.jump_buffer b /\
  Player.coyote_timer a = Player.coyote_timer b.

(** The bounds the loop keeps on its own counters: at most 6 player bullets,
    the countdown within its 54 frames, the clear counter within its 72, the
    stage index from 1 to [MAX_LEVEL] while not won and [MAX_LEVEL + 1] once
    won, no countdown while paused, and a score that is not negative. *)
Definition world_in_bounds (w : World) : Prop :=
  player_in_bounds (player w) /\
  (List.length (bullets w) <= 6)%nat /\
  0 <= level_transition_timer w <= TRANSITION_FRAMES /\
  0 <= level_clear_cool w <= CLEAR_FRAMES /\
  ((win w = false /\ 1 <= level_num w <= MAX_LEVEL) \/
   (win w = true /\ level_num w = MAX_LEVEL + 1 /\ level_transition_timer w = 0)) /\
  (paused w = true -> level_transition_timer w = 0) /\
  0 <= Player.score (player w).

(** The controls phase of the horizontal movement over several frames. *)
Definition move_run (cs : list Controls) (p : Player.t) : Player.t :=
  fold_left (fun p c => Player.update_move c p) cs p.

(** The player stands on a platform: its feet are on the platform's top edge
    and the two overlap horizontally. *)
Definition stands_on (p : Player.t) (q : Platform.t) : Prop :=
  Rect.top q = Rect.bottom (Player.rect p) /\
  Rect.left q < Rect.right (Player.rect p) /\
  Rect.left (Player.rect p) < Rect.right q.

(** A player at rest on [corner_tile], and the shift key held. *)
Definition rester : Player.t :=
  Player.mk (Rect.mk 100 50 34 46) 0 0
    PLAYER_SPEED PLAYER_JUMP_POWER true true 0 1 3 0 8 0.
Definition shift_key : Controls :=
  mkControls false false false false true false (0, 0).

(** The player as [update] leaves it just before the falling-death test of
    a frame of the loop. *)
Definition before_fall_test (inp : Input) (w : World) : Player.t :=
  Player.update_grounded
    (Player.update_physics (platforms w)
       (Player.update_controls (controls inp)
          (Player.handle_events (events inp) (player w)))).

(** A shooter whose countdown runs out in this frame. *)
Definition fires (e : Enemy.t) : bool :=
  match Enemy.type e with
  | shooter => Enemy.shoot_timer e - 1 <=? 0
  | _ => false
  end.

(** An enemy stands on a platform. *)
Definition enemy_on (e : Enemy.t) (q : Platform.t) : Prop :=
  Rect.top q = Rect.bottom (Enemy.rect e) /\
  Rect.left q < Rect.right (Enemy.rect e) /\
  Rect.left (Enemy.rect e) < Rect.right q.

(** A patrol walking right on [corner_tile]. *)
Definition patroller : Enemy.t :=
  Enemy.mk (Rect.mk 100 56 36 40) patrol 1 1 false 30 0.

(** A world whose player has fallen far below the level. *)
Definition falling_world : World :=
  mkWorld 0 2400 480 (Camera.__init__ 2400 480) [corner_tile] [] [] [] (120, 96)
    (Player.set_rect (Player.__init__ 120 96) (Rect.mk 300 700 34 46))
    [] [] 1 false false false 0 0 (120, 96).

(** The character of a template at row [i], column [j]. *)
Definition cell (template : list string) (i j : nat) : option ascii :=
  match nth_error template i with
  | Some row => String.get j row
  | None => None
  end.

(** How often a character occurs in a template. *)
Definition count_cells (ch : ascii) (template : list string) : nat :=
  fold_right
    (fun row n => (count_occ ascii_dec (list_ascii_of_string row) ch + n)%nat)
    0%nat template.

(** What of a level does not depend on the enemies. *)
Definition layout (lv : Level)
    : list Platform.t * list Rect.t * (Z * Z) * list Checkpoint.t * Z * Z :=
  (lv_platforms lv, lv_collectibles lv, lv_spawn lv, lv_checkpoints lv,
   lv_width lv, lv_height lv).

(** The template [load_level] picks for stage [n]. *)
Definition template_for (n : Z) : list string :=
  nth (Z.to_nat ((n - 1) mod Z.of_nat (List.length LEVEL_TEMPLATES)))
      LEVEL_TEMPLATES [].

(** Two scans of the level builder agree on everything but the draws. *)
Definition same_scan (a b : Scan) : Prop :=
  sc_platforms a = sc_platforms b /\ sc_collectibles a = sc_collectibles b /\
  sc_spawn a = sc_spawn b /\
  map Enemy.rect (sc_enemies a) = map Enemy.rect (sc_enemies b).

(** An enemy as [load_level] adds it: a patrol or a chaser of the given
    speed, at rest and not aggressive. *)
Definition extra_enemy (speed : Q) (e : Enemy.t) : Prop :=
  Enemy.type e <> shooter /\ Enemy.speed e = speed /\
  Enemy.aggro e = false /\ Enemy.vel_y e = 0%Q /\
  Rect.w (Enemy.rect e) = 36 /\ Rect.h (Enemy.rect e) = 40.

(** A template of two rows. *)
Definition small_template : list string := [ ".#"; "P." ]%string.

(** The world with its countdown set to [t]. *)
Definition with_timer (w : World) (t : Z) : World :=
  mkWorld (highscore w) (LEVEL_WIDTH w) (LEVEL_HEIGHT w) (camera w)
    (platforms w) (enemies w) (collectibles w) (checkpoints w)
    (player_spawn w) (player w) (bullets w) (enemy_bullets w)
    (level_num w) (paused w) (game_over w) (win w)
    (level_clear_cool w) t (respawn_point w).

(** The events hold no quit request, no restart key and no pause key. *)
Definition no_control (evs : list Event) : bool :=
  forallb (fun e => match e with
                    | QUIT | KEYDOWN K_p | KEYDOWN K_r => false
                    | _ => true
                    end) evs.

(** A frame whose only event is the pause key, and a world after the last
    life is lost. *)
Definition pause_input : Input :=
  mkInput [KEYDOWN K_p] no_keys no_aim (fun _ => 60) ambush_rng.
Definition ended_world : World :=
  mkWorld 0 2400 480 (Camera.__init__ 2400 480) [corner_tile] [] [] [] (120, 96)
    (Player.set_score (Player.set_lives (Player.__init__ 120 96) 0) 150)
    [] [] 1 false true false 0 0 (120, 96).

(** An enemy that has dropped below the level: the top of its rectangle lies
    at least a bullet's height (8 pixels) under the level's lower edge, and
    it is not moving up. *)
Definition out_of_reach (LEVEL_HEIGHT : Z) (e : Enemy.t) : Prop :=
  positive (Enemy.rect e) /\
  LEVEL_HEIGHT + 8 <= Rect.top (Enemy.rect e) /\
  (0 <= Enemy.vel_y e)%Q.

Definition has_fallen_enemy (w : World) : Prop :=
  exists e, In e (enemies w) /\ out_of_reach (LEVEL_HEIGHT w) e.

(** The bullets are as high as [Bullet] makes them, and no platform reaches
    further down than a bullet's height under the level. *)
Definition bullets_sized (bs : list Bullet.t) : Prop :=
  Forall (fun b => Rect.h (Bullet.rect b) = 8) bs.
Definition platforms_within (w : World) : Prop :=
  forall q, In q (platforms w) ->
    positive q /\ Rect.bottom q <= LEVEL_HEIGHT w + 8.

(** The world the loop has reached after the given frames, if it goes on. *)
Definition world_after (inputs : list Input) (d : Disk) (w : World) : World :=
  match run_frames inputs d w with
  | Continues w' => w'
  | _ => w
  end.

(** A world with one patrol fallen below the level. *)
Definition sunk_world : World :=
  mkWorld 0 2400 480 (Camera.__init__ 2400 480) [corner_tile]
    [Enemy.mk (Rect.mk 600 500 36 40) patrol 1 1 false 30 (4 # 5)] [] []
    (120, 96) (Player.__init__ 120 96) [] [] 1 false false false 0 0 (120, 96).

(** A jump key is among the events of the frame. *)
Definition jump_pressed (evs : list Event) : bool :=
  existsb (fun e => match e with
                    | KEYDOWN k => Player.is_jump_key k
                    | _ => false
                    end) evs.

(** A bullet moved by its step, as a surviving [update] leaves it. *)
Definition flown (b : Bullet.t) : Bullet.t :=
  Bullet.mk (Rect.move (Bullet.rect b) (Bullet.step_x b) (Bullet.step_y b))
    (Bullet.step_x b) (Bullet.step_y b) (Bullet.owner b).

(** The range of the coordinates of a [pygame.Rect], which stores them as C
    [int]: position, size and the far edges all fit. *)
Definition rect_int (z : Z) : Prop := -2147483648 <= z <= 2147483647.
Definition rect_in_range (r : Rect.t) : Prop :=
  rect_int (Rect.x r) /\ rect_int (Rect.y r) /\
  rect_int (Rect.w r) /\ rect_int (Rect.h r) /\
  rect_int (Rect.right r) /\ rect_int (Rect.bottom r).

(** * Verified properties *)

#[local] Arguments fadd : simpl never.
#[local] Arguments fmul : simpl never.
#[local] Arguments py_round : simpl never.
#[local] Arguments Rect.colliderect : simpl never.

(** ** The embedding on concrete values *)

Example py_round_ties_to_even :
  map py_round [1 # 2; 3 # 2; 5 # 2; -1 # 2; -3 # 2] = [0; 2; 2; 0; -2].
Proof. reflexivity. Qed.

Example py_round_velocities :
  map py_round [4 # 5; 8 # 5; -269 # 20; 29 # 5; 7 # 4] = [1; 2; -13; 6; 2].
Proof. reflexivity. Qed.

Example double_jump_impulse :
  fmul (inject_Z PLAYER_JUMP_POWER) DOUBLE_JUMP_MULT = (-57 # 4)%Q.
Proof. reflexivity. Qed.

Example touching_edges_do_not_collide :
  Rect.colliderect (Rect.mk 0 0 48 48) (Rect.mk 48 0 48 48) = false /\
  Rect.colliderect (Rect.mk 0 0 48 48) (Rect.mk 47 47 48 48) = true /\
  Rect.colliderect (Rect.mk 0 0 0 48) (Rect.mk 0 0 48 48) = false.
Proof. repeat split; reflexivity. Qed.

Example player_starts_on_spawn :
  Player.rect (Player.__init__ 312 336) = Rect.mk 295 290 34 46.
Proof. reflexivity. Qed.

Example level_one_start :
  option_map
    (fun w => (LEVEL_WIDTH w, LEVEL_HEIGHT w, List.length (platforms w),
               List.length (enemies w), collectibles w, player_spawn w,
               map Checkpoint.rect (checkpoints w)))
    (run_game_init None ambush_rng)
  = Some (2400, 480, 31%nat, 4%nat, [Rect.mk 974 158 20 20], (312, 336),
          [Rect.mk 1886 308 20 28]).
Proof. vm_compute. reflexivity. Qed.

(** ** Geometry *)

Lemma colliderect_positive (a b : Rect.t) :
  positive a -> positive b ->
  Rect.colliderect a b = true <->
  Rect.x a < Rect.x b + Rect.w b /\ Rect.y a < Rect.y b + Rect.h b /\
  Rect.x b < Rect.x a + Rect.w a /\ Rect.y b < Rect.y a + Rect.h a.
Proof.
  intros [Hwa Hha] [Hwb Hhb]. unfold Rect.colliderect.
  replace (Rect.w a =? 0) with false by (symmetry; apply Z.eqb_neq; lia).
  replace (Rect.h a =? 0) with false by (symmetry; apply Z.eqb_neq; lia).
  replace (Rect.w b =? 0) with false by (symmetry; apply Z.eqb_neq; lia).
  replace (Rect.h b =? 0) with false by (symmetry; apply Z.eqb_neq; lia).
  cbn [orb]. rewrite !andb_true_iff, !Z.ltb_lt. lia.
Qed.

Lemma colliderect_false_positive (a b : Rect.t) :
  positive a -> positive b ->
  (Rect.x b + Rect.w b <= Rect.x a \/ Rect.y b + Rect.h b <= Rect.y a \/
   Rect.x a + Rect.w a <= Rect.x b \/ Rect.y a + Rect.h a <= Rect.y b) ->
  Rect.colliderect a b = false.
Proof.
  intros Ha Hb H. apply not_true_is_false. intros Hc.
  apply (colliderect_positive a b Ha Hb) in Hc. lia.
Qed.

(** *** The loop of [collide] *)

Lemma collide_x_rest (hits : list Platform.t) (p : Player.t) :
  Player.vel_x p = 0%Q -> fold_left (Player.collide_hit "x") hits p = p.
Proof.
  revert p; induction hits as [|q hits IH]; intros p Hv; cbn [fold_left]; [reflexivity|].
  assert (Player.collide_hit "x" p q = p) as ->.
  { unfold Player.collide_hit. cbn [String.eqb Ascii.eqb Bool.eqb].
    rewrite Hv. cbn. destruct p; cbn in *; subst; reflexivity. }
  apply IH; assumption.
Qed.

Lemma collide_hit_x_vel (p : Player.t) (q : Platform.t) :
  Player.vel_x (Player.collide_hit "x" p q) = 0%Q.
Proof.
  unfold Player.collide_hit. cbn [String.eqb Ascii.eqb Bool.eqb].
  destruct (fpos (Player.vel_x p)); [reflexivity|].
  destruct (fneg (Player.vel_x p)); reflexivity.
Qed.

(** Only the first platform of the hit list moves the player on the X axis:
    it zeroes [vel.x], and the later iterations test a zero velocity. *)
Lemma collide_x_first (h : Platform.t) (hits : list Platform.t) (p : Player.t) :
  fold_left (Player.collide_hit "x") (h :: hits) p = Player.collide_hit "x" p h.
Proof. cbn [fold_left]. apply collide_x_rest, collide_hit_x_vel. Qed.

Lemma collide_y_still (hits : list Platform.t) (p : Player.t) :
  fpos (Player.vel_y p) = false -> fneg (Player.vel_y p) = false ->
  fold_left (Player.collide_hit "y") hits p = p.
Proof.
  revert p; induction hits as [|q hits IH]; intros p Hp Hn; cbn [fold_left]; [reflexivity|].
  assert (Player.collide_hit "y" p q = p) as ->.
  { unfold Player.collide_hit. cbn [String.eqb Ascii.eqb Bool.eqb].
    rewrite Hp, Hn. reflexivity. }
  apply IH; assumption.
Qed.

Lemma collide_y_first (h : Platform.t) (hits : list Platform.t) (p : Player.t) :
  fold_left (Player.collide_hit "y") (h :: hits) p = Player.collide_hit "y" p h.
Proof.
  cbn [fold_left]. apply collide_y_still;
    unfold Player.collide_hit; cbn [String.eqb Ascii.eqb Bool.eqb];
    destruct (fpos (Player.vel_y p)) eqn:Hp; try reflexivity;
    destruct (fneg (Player.vel_y p)) eqn:Hn; try reflexivity; assumption.
Qed.

Lemma resolve_x_cases (platforms : list Platform.t) (p : Player.t) :
  Player.resolve_x platforms p =
  let moved := Player.set_rect p (Rect.move (Player.rect p) (py_round (Player.vel_x p)) 0) in
  match hits_x platforms p with
  | [] => moved
  | h :: _ => Player.collide_hit "x" moved h
  end.
Proof.
  unfold Player.resolve_x, Player.collide, hits_x. cbn [Player.rect Player.set_rect].
  match goal with |- context [fold_left _ ?l _] => destruct l as [|h hs] end;
    [reflexivity|apply collide_x_first].
Qed.

Lemma resolve_y_cases (platforms : list Platform.t) (p : Player.t) :
  Player.resolve_y platforms p =
  let moved := Player.set_rect p (Rect.move (Player.rect p) 0 (py_round (Player.vel_y p))) in
  match hits_y platforms p with
  | [] => moved
  | h :: _ => Player.collide_hit "y" moved h
  end.
Proof.
  unfold Player.resolve_y, Player.collide, hits_y. cbn [Player.rect Player.set_rect].
  match goal with |- context [fold_left _ ?l _] => destruct l as [|h hs] end;
    [reflexivity|apply collide_y_first].
Qed.

Lemma hits_head_in {A} (f : A -> bool) (l : list A) h t :
  filter f l = h :: t -> In h l /\ f h = true.
Proof.
  intros H. assert (In h (filter f l)) by (rewrite H; left; reflexivity).
  apply filter_In in H0. exact H0.
Qed.

(** ** Horizontal resolution (C3) *)

Lemma positive_forall_in (platforms : list Platform.t) (q : Platform.t) :
  Forall positive platforms -> In q platforms -> positive q.
Proof. intros H Hq. rewrite Forall_forall in H. apply H, Hq. Qed.

(** C3, as the code has it.  After the horizontal move and
    [collide(platforms, 'x')]: without contact only the position has changed;
    with contact [vel.x] is 0 afterwards.  If [vel.x] was not 0 the player is
    flush against the first contacted platform (group order), so it overlaps
    no platform whose facing edge lies at or beyond that platform's (left
    edge when moving right, right edge when moving left).  If [vel.x] was 0
    (a player that already overlaps a platform) the rectangle is left where
    it was and still overlaps the first contacted platform.  Later platforms
    of the hit list do not move the player, because the first iteration has
    zeroed [vel.x]. *)
Theorem resolve_x_first_contact (platforms : list Platform.t) (p : Player.t) :
  positive (Player.rect p) ->
  Forall positive platforms ->
  let p' := Player.resolve_x platforms p in
  match hits_x platforms p with
  | [] =>
      p' = Player.set_rect p (Rect.move (Player.rect p) (py_round (Player.vel_x p)) 0)
  | h :: _ =>
      Player.vel_x p' = 0%Q /\
      (fpos (Player.vel_x p) = true ->
         Rect.right (Player.rect p') = Rect.left h /\
         forall q, In q platforms -> Rect.left h <= Rect.left q ->
                   Rect.colliderect (Player.rect p') q = false) /\
      (fpos (Player.vel_x p) = false -> fneg (Player.vel_x p) = true ->
         Rect.left (Player.rect p') = Rect.right h /\
         forall q, In q platforms -> Rect.right q <= Rect.right h ->
                   Rect.colliderect (Player.rect p') q = false) /\
      (fpos (Player.vel_x p) = false -> fneg (Player.vel_x p) = false ->
         Player.rect p' = Player.rect p /\
         Rect.colliderect (Player.rect p') h = true)
  end.
Proof.
  intros Hp Hps p'. subst p'. rewrite resolve_x_cases. cbv zeta.
  destruct (hits_x platforms p) as [|h hits] eqn:Hh; [reflexivity|].
  split; [apply collide_hit_x_vel|].
  unfold hits_x, spritecollide in Hh. apply hits_head_in in Hh.
  destruct Hh as [_ Hhc].
  unfold Player.collide_hit. cbn [String.eqb Ascii.eqb Bool.eqb].
  cbn [Player.vel_x Player.set_rect Player.rect].
  destruct Hp as [Hw Hhh].
  split; [|split].
  - intros Hpos. rewrite Hpos. cbn. split; [unfold Rect.right, Rect.left; cbn; lia|].
    intros q Hq Hle. pose proof (positive_forall_in _ _ Hps Hq) as Hqp.
    apply colliderect_false_positive; [split; cbn; assumption|assumption|].
    unfold Rect.left in *. cbn. lia.
  - intros Hnp Hneg. rewrite Hnp, Hneg. cbn. split; [reflexivity|].
    intros q Hq Hle. pose proof (positive_forall_in _ _ Hps Hq) as Hqp.
    apply colliderect_false_positive; [split; cbn; assumption|assumption|].
    unfold Rect.right in *. cbn. lia.
  - intros Hnp Hnn. rewrite Hnp, Hnn. cbn [Player.rect Player.set_vel_x Player.set_rect].
    assert (Hz : py_round (Player.vel_x p) = 0).
    { unfold fpos, fneg in Hnp, Hnn. apply Z.ltb_ge in Hnp. apply Z.ltb_ge in Hnn.
      assert (Hn : Qnum (Player.vel_x p) = 0) by lia.
      unfold py_round. cbv zeta. rewrite Hn. cbn. reflexivity. }
    rewrite Hz in Hhc |- *.
    assert (Hsame : Rect.move (Player.rect p) 0 0 = Player.rect p).
    { destruct (Player.rect p). unfold Rect.move. cbn. f_equal; lia. }
    rewrite Hsame in Hhc |- *. split; [reflexivity|exact Hhc].
Qed.

(** C3 as stated fails: walking left into two adjacent tiles, the player is
    placed against the right edge of the first one in group order, which is
    inside the second. *)
Lemma resolve_x_leaves_overlap :
  Player.vel_y walker_left = 0%Q /\
  fneg (Player.vel_x walker_left) = true /\
  hits_x [tile_A; tile_B] walker_left = [tile_A; tile_B] /\
  In tile_B [tile_A; tile_B] /\
  Rect.colliderect
    (Player.rect (Player.resolve_x [tile_A; tile_B] walker_left)) tile_B = true.
Proof. repeat split; try reflexivity. right; left; reflexivity. Qed.

Lemma resolve_x_first_contact_witness :
  Player.vel_x (Player.resolve_x [tile_A; tile_B] walker_left) = 0%Q /\
  Rect.left (Player.rect (Player.resolve_x [tile_A; tile_B] walker_left))
    = Rect.right tile_A /\
  Rect.colliderect
    (Player.rect (Player.resolve_x [tile_A; tile_B] walker_left)) tile_A = false.
Proof.
  assert (Hp : positive (Player.rect walker_left)) by (split; reflexivity).
  assert (Hps : Forall positive [tile_A; tile_B])
    by (repeat constructor; reflexivity).
  pose proof (resolve_x_first_contact [tile_A; tile_B] walker_left Hp Hps) as H.
  cbv zeta in H.
  change (hits_x [tile_A; tile_B] walker_left) with [tile_A; tile_B] in H.
  destruct H as [Hv [_ [Hneg _]]].
  destruct (Hneg eq_refl eq_refl) as [Hl Hq].
  split; [exact Hv|]. split; [exact Hl|].
  apply Hq; [left; reflexivity|]. unfold Rect.right; cbn; lia.
Defined.

(** ** Order of the physics step (C1) *)

Lemma collide_hit_x_keeps (p : Player.t) (q : Platform.t) :
  let p' := Player.collide_hit "x" p q in
  Rect.y (Player.rect p') = Rect.y (Player.rect p) /\
  Rect.w (Player.rect p') = Rect.w (Player.rect p) /\
  Rect.h (Player.rect p') = Rect.h (Player.rect p) /\
  Player.vel_y p' = Player.vel_y p /\
  Player.on_ground p' = Player.on_ground p.
Proof.
  unfold Player.collide_hit. cbn [String.eqb Ascii.eqb Bool.eqb].
  destruct (fpos (Player.vel_x p)); [cbn; repeat split; reflexivity|].
  destruct (fneg (Player.vel_x p)); cbn; repeat split; reflexivity.
Qed.

Lemma collide_hit_y_keeps (p : Player.t) (q : Platform.t) :
  let p' := Player.collide_hit "y" p q in
  Rect.x (Player.rect p') = Rect.x (Player.rect p) /\
  Player.vel_x p' = Player.vel_x p.
Proof.
  unfold Player.collide_hit. cbn [String.eqb Ascii.eqb Bool.eqb].
  destruct (fpos (Player.vel_y p)); [cbn; split; reflexivity|].
  destruct (fneg (Player.vel_y p)); cbn; split; reflexivity.
Qed.

(** The X pass reads and writes nothing of the Y axis. *)
Lemma resolve_x_keeps_y (platforms : list Platform.t) (p : Player.t) :
  let p' := Player.resolve_x platforms p in
  Rect.y (Player.rect p') = Rect.y (Player.rect p) /\
  Rect.w (Player.rect p') = Rect.w (Player.rect p) /\
  Rect.h (Player.rect p') = Rect.h (Player.rect p) /\
  Player.vel_y p' = Player.vel_y p /\
  Player.on_ground p' = Player.on_ground p.
Proof.
  cbv zeta. rewrite resolve_x_cases. cbv zeta.
  destruct (hits_x platforms p) as [|h hits];
    [cbn; repeat split; try reflexivity; lia|].
  pose proof (collide_hit_x_keeps
                (Player.set_rect p (Rect.move (Player.rect p) (py_round (Player.vel_x p)) 0))
                h) as H.
  cbv zeta in H. destruct H as (H1 & H2 & H3 & H4 & H5).
  rewrite H1, H2, H3, H4, H5. cbn. repeat split; try reflexivity; lia.
Qed.

(** The Y pass leaves the X axis as the X pass resolved it. *)
Lemma resolve_y_keeps_x (platforms : list Platform.t) (p : Player.t) :
  let p' := Player.resolve_y platforms p in
  Rect.x (Player.rect p') = Rect.x (Player.rect p) /\
  Player.vel_x p' = Player.vel_x p.
Proof.
  cbv zeta. rewrite resolve_y_cases. cbv zeta.
  destruct (hits_y platforms p) as [|h hits];
    [cbn; split; try reflexivity; lia|].
  pose proof (collide_hit_y_keeps
                (Player.set_rect p (Rect.move (Player.rect p) 0 (py_round (Player.vel_y p))))
                h) as H.
  cbv zeta in H. destruct H as (H1 & H2).
  rewrite H1, H2. cbn. split; try reflexivity; lia.
Qed.

(** The grounded flag is raised by a downward Y contact and by nothing else. *)
Lemma resolve_y_on_ground (platforms : list Platform.t) (p : Player.t) :
  Player.on_ground (Player.resolve_y platforms p) =
  Player.on_ground p
  || (fpos (Player.vel_y p) && negb (Nat.eqb (List.length (hits_y platforms p)) 0)).
Proof.
  rewrite resolve_y_cases. cbv zeta.
  destruct (hits_y platforms p) as [|h hits]; cbn [List.length Nat.eqb negb].
  - rewrite andb_false_r, orb_false_r. reflexivity.
  - rewrite andb_true_r. unfold Player.collide_hit.
    cbn [String.eqb Ascii.eqb Bool.eqb]. cbn [Player.vel_y Player.set_rect].
    destruct (fpos (Player.vel_y p)); [cbn; rewrite orb_true_r; reflexivity|].
    rewrite orb_false_r.
    destruct (fneg (Player.vel_y p)); reflexivity.
Qed.

Lemma update_controls_on_ground (c : Controls) (p : Player.t) :
  Player.on_ground (Player.update_controls c p) = false.
Proof.
  unfold Player.update_controls, Player.update_jump, Player.update_move.
  repeat match goal with
         | |- context [if ?b then _ else _] => destruct b
         end; reflexivity.
Qed.

(** A float that rounds to a positive integer is positive. *)
Lemma py_round_pos (q : Q) : 0 < py_round q -> fpos q = true.
Proof.
  unfold py_round, fpos. cbv zeta. intros Hr. apply Z.ltb_lt.
  set (n := Qnum q) in *. set (d := Z.pos (Qden q)) in *.
  assert (0 < d) by (subst d; lia).
  destruct (Z_lt_le_dec 0 n) as [|Hle]; [assumption|exfalso].
  destruct (Z.eq_dec n 0) as [Hz|Hnz].
  - rewrite Hz in Hr. rewrite Z.mod_0_l, Z.div_0_l in Hr by lia.
    replace (2 * 0 <? d) with true in Hr by (symmetry; apply Z.ltb_lt; lia). lia.
  - assert (n / d < 0) by (apply Z.div_lt_upper_bound; lia).
    destruct (2 * (n mod d) <? d); [lia|].
    destruct (d <? 2 * (n mod d)); [lia|].
    destruct (Z.even (n / d)); lia.
Qed.

(** A float that rounds to a negative integer is negative. *)
Lemma py_round_neg (q : Q) : py_round q < 0 -> fneg q = true /\ fpos q = false.
Proof.
  unfold py_round, fneg, fpos. cbv zeta. intros Hr.
  set (n := Qnum q) in *. set (d := Z.pos (Qden q)) in *.
  assert (0 < d) by (subst d; lia).
  assert (Hn : n < 0).
  { destruct (Z_lt_le_dec n 0) as [|Hle]; [assumption|exfalso].
    assert (0 <= n / d) by (apply Z.div_pos; lia).
    destruct (2 * (n mod d) <? d); [lia|].
    destruct (d <? 2 * (n mod d)); [lia|].
    destruct (Z.even (n / d)); lia. }
  split; [apply Z.ltb_lt; exact Hn|apply Z.ltb_ge; lia].
Qed.

Lemma move_x_then_y (r : Rect.t) (dx dy : Z) :
  Rect.move (Rect.move r dx 0) 0 dy = Rect.move r dx dy.
Proof. unfold Rect.move; cbn. f_equal; lia. Qed.

(** A player that is level with no platform passes the X pass without
    contact: the horizontally moved rectangle overlaps nothing vertically. *)
Lemma corner_x_pass_free (platforms : list Platform.t) (p : Player.t) :
  positive (Player.rect p) -> Forall positive platforms ->
  clear_of_rows platforms p ->
  hits_x platforms p = [].
Proof.
  intros Hp Hps Hclear. unfold hits_x, spritecollide.
  induction platforms as [|q qs IH]; [reflexivity|].
  cbn [filter].
  assert (Rect.colliderect (Rect.move (Player.rect p) (py_round (Player.vel_x p)) 0) q
          = false) as ->.
  { apply colliderect_false_positive.
    - destruct Hp; split; cbn; assumption.
    - apply (positive_forall_in (q :: qs) q Hps). left; reflexivity.
    - specialize (Hclear q (or_introl eq_refl)).
      unfold Rect.bottom, Rect.top in Hclear. cbn. lia. }
  apply IH.
  - inversion Hps; assumption.
  - intros q' Hq'. apply Hclear. right; assumption.
Qed.

(** C1, as the code has it.  [update_physics] adds gravity, then moves and
    resolves on X, then moves and resolves on Y.  The X pass decides its hits
    with the vertical position of the previous frame and touches neither the
    vertical position nor [vel.y] nor the grounded flag; it zeroes [vel.x] on
    contact.  The Y pass keeps the horizontal result.  The grounded flag is
    raised exactly by a Y contact with [vel.y > 0]; [update] clears it before.
    Consequently a player that moves diagonally into a corner of a tile,
    level with no platform before the step, passes the X pass without
    contact, keeps its horizontal movement and velocity, and is stopped by the
    Y pass at a horizontal (Y) face of the first platform, in group order,
    that its rectangle moved on both axes overlaps: on top of it, grounded,
    when going down, under it when going up.  That platform is the tile
    itself when the tile is the only platform the player moves into. *)
Theorem physics_x_pass_before_y_pass (platforms : list Platform.t) (p : Player.t) :
  let g := Player.apply_gravity p in
  let px := Player.resolve_x platforms g in
  let py := Player.update_physics platforms p in
  (* gravity first *)
  (Player.vel_y g = fadd (Player.vel_y p) GRAVITY /\ Player.rect g = Player.rect p /\
   Player.vel_x g = Player.vel_x p) /\
  (* then the X pass, on the old vertical position *)
  (hits_x platforms g = [] ->
     Player.rect px = Rect.move (Player.rect p) (py_round (Player.vel_x p)) 0 /\
     Player.vel_x px = Player.vel_x p) /\
  (hits_x platforms g <> [] -> Player.vel_x px = 0%Q) /\
  (Rect.y (Player.rect px) = Rect.y (Player.rect p) /\
   Player.vel_y px = Player.vel_y g /\
   Player.on_ground px = Player.on_ground p) /\
  (* then the Y pass, on the X-resolved position *)
  (py = Player.resolve_y platforms px /\
   Rect.x (Player.rect py) = Rect.x (Player.rect px) /\
   Player.vel_x py = Player.vel_x px) /\
  (* grounded only by a downward Y contact *)
  (Player.on_ground py =
     Player.on_ground p
     || (fpos (Player.vel_y g) && negb (Nat.eqb (List.length (hits_y platforms px)) 0))) /\
  (forall c, let u := Player.update_physics platforms (Player.update_controls c p) in
     Player.on_ground u = true ->
     fpos (fadd (Player.vel_y (Player.update_controls c p)) GRAVITY) = true /\
     hits_y platforms
       (Player.resolve_x platforms (Player.apply_gravity (Player.update_controls c p)))
       <> []) /\
  (* the corner *)
  (positive (Player.rect p) -> Forall positive platforms ->
   clear_of_rows platforms p ->
   forall q, In q platforms -> corner_approach p q ->
     let dx := py_round (Player.vel_x p) in
     let dy := py_round (fadd (Player.vel_y p) GRAVITY) in
     Rect.x (Player.rect py) = Rect.x (Player.rect p) + dx /\
     Player.vel_x py = Player.vel_x p /\
     exists h rest,
       spritecollide (fun r => r) (Rect.move (Player.rect p) dx dy) platforms
         = h :: rest /\
       stopped_at_y_face dy py h /\
       ((forall r, In r platforms ->
           Rect.colliderect (Rect.move (Player.rect p) dx dy) r = true -> r = q) ->
        h = q)).
Proof.
  cbv zeta.
  pose proof (resolve_x_keeps_y platforms (Player.apply_gravity p)) as Hx.
  cbv zeta in Hx. destruct Hx as (Hxy & Hxw & Hxh & Hxv & Hxg).
  pose proof (resolve_y_keeps_x platforms
                (Player.resolve_x platforms (Player.apply_gravity p))) as Hy.
  cbv zeta in Hy. destruct Hy as (Hyx & Hyv).
  split; [repeat split; reflexivity|].
  split.
  { intros Hnil. rewrite resolve_x_cases. cbv zeta. rewrite Hnil.
    split; reflexivity. }
  split.
  { intros Hne. rewrite resolve_x_cases. cbv zeta.
    destruct (hits_x platforms (Player.apply_gravity p)) as [|h hits];
      [congruence|apply collide_hit_x_vel]. }
  split; [repeat split; assumption|].
  split; [repeat split; assumption|].
  split.
  { unfold Player.update_physics. rewrite resolve_y_on_ground, Hxv, Hxg. reflexivity. }
  split.
  { intros c Hg. unfold Player.update_physics in Hg.
    rewrite resolve_y_on_ground in Hg.
    pose proof (resolve_x_keeps_y platforms
                  (Player.apply_gravity (Player.update_controls c p))) as Hc.
    cbv zeta in Hc. destruct Hc as (_ & _ & _ & Hcv & Hcg).
    rewrite Hcv, Hcg in Hg.
    change (Player.on_ground (Player.apply_gravity (Player.update_controls c p)))
      with (Player.on_ground (Player.update_controls c p)) in Hg.
    rewrite update_controls_on_ground in Hg. cbn [orb] in Hg.
    apply andb_true_iff in Hg. destruct Hg as [Hpos Hhits]. split; [exact Hpos|].
    intros Hnil. rewrite Hnil in Hhits. discriminate. }
  intros Hp Hps Hclear q Hq (Hr & Hb & Hdx & Hdy & Hov).
  assert (Hfree : hits_x platforms (Player.apply_gravity p) = [])
    by (apply corner_x_pass_free; assumption).
  assert (Hpx : Player.resolve_x platforms (Player.apply_gravity p) =
                Player.set_rect (Player.apply_gravity p)
                  (Rect.move (Player.rect p) (py_round (Player.vel_x p)) 0)).
  { rewrite resolve_x_cases. cbv zeta. rewrite Hfree. reflexivity. }
  unfold Player.update_physics. rewrite resolve_y_cases. cbv zeta.
  rewrite Hpx.
  assert (Hin : In q (hits_y platforms
                        (Player.set_rect (Player.apply_gravity p)
                           (Rect.move (Player.rect p) (py_round (Player.vel_x p)) 0)))).
  { unfold hits_y, spritecollide. apply filter_In. split; [assumption|].
    cbn [Player.rect Player.set_rect Player.vel_y Player.apply_gravity Player.set_vel_y].
    rewrite move_x_then_y. exact Hov. }
  destruct (hits_y _ _) as [|h hits] eqn:Hh; [contradiction|].
  unfold hits_y in Hh.
  cbn [Player.rect Player.set_rect Player.vel_y Player.apply_gravity Player.set_vel_y]
    in Hh.
  rewrite move_x_then_y in Hh.
  assert (Hfirst : (forall r, In r platforms ->
                      Rect.colliderect
                        (Rect.move (Player.rect p) (py_round (Player.vel_x p))
                           (py_round (fadd (Player.vel_y p) GRAVITY))) r = true ->
                      r = q) -> h = q).
  { intros Honly. pose proof Hh as Hh'. unfold spritecollide in Hh'.
    apply hits_head_in in Hh'. destruct Hh' as [Hhin Hhc]. exact (Honly h Hhin Hhc). }
  unfold Player.collide_hit. cbn [String.eqb Ascii.eqb Bool.eqb].
  cbn [Player.rect Player.set_rect Player.vel_y Player.vel_x Player.apply_gravity
       Player.set_vel_y].
  unfold stopped_at_y_face.
  destruct (Z_lt_le_dec 0 (py_round (fadd (Player.vel_y p) GRAVITY))) as [Hdown|Hup].
  - rewrite (py_round_pos _ Hdown). cbn. split; [lia|]. split; [reflexivity|].
    exists h, hits. split; [exact Hh|]. split; [|exact Hfirst].
    unfold Rect.bottom, Rect.top. cbn. repeat split; intros; lia.
  - destruct (py_round_neg (fadd (Player.vel_y p) GRAVITY) ltac:(lia)) as [Hneg Hnpos].
    rewrite Hnpos, Hneg. cbn. split; [lia|]. split; [reflexivity|].
    exists h, hits. split; [exact Hh|]. split; [|exact Hfirst].
    unfold Rect.bottom, Rect.top. cbn. repeat split; intros; lia.
Qed.

Lemma corner_player_approaches : corner_approach corner_player corner_tile.
Proof.
  unfold corner_approach. cbv zeta.
  split; [left; vm_compute; congruence|].
  split; [left; vm_compute; congruence|].
  repeat split; vm_compute; congruence.
Qed.

(** C1 as stated fails in its consequence: the player falling diagonally onto
    the corner of the tile is not stopped at an X face of the tile; it keeps
    its 6 pixels of horizontal movement and its horizontal velocity and lands
    on the top face. *)
Lemma corner_not_resolved_on_x_face :
  corner_approach corner_player corner_tile /\
  ~ stopped_at_x_face (Player.update_physics [corner_tile] corner_player) corner_tile /\
  Rect.right (Player.rect (Player.update_physics [corner_tile] corner_player))
    = Rect.left corner_tile + 3 /\
  Player.vel_x (Player.update_physics [corner_tile] corner_player) = inject_Z 6 /\
  Rect.bottom (Player.rect (Player.update_physics [corner_tile] corner_player))
    = Rect.top corner_tile /\
  Player.vel_y (Player.update_physics [corner_tile] corner_player) = 0%Q /\
  Player.on_ground (Player.update_physics [corner_tile] corner_player) = true.
Proof.
  split; [exact corner_player_approaches|].
  split; [intros [H _]; vm_compute in H; discriminate|].
  repeat split; reflexivity.
Qed.

Lemma corner_player_clear : clear_of_rows [corner_tile] corner_player.
Proof.
  intros q [<-|[]]. left. vm_compute. congruence.
Qed.

Lemma physics_x_pass_before_y_pass_witness :
  Rect.x (Player.rect (Player.update_physics [corner_tile] corner_player)) = 65 /\
  Player.vel_x (Player.update_physics [corner_tile] corner_player) = inject_Z 6 /\
  stopped_at_y_face 6 (Player.update_physics [corner_tile] corner_player) corner_tile.
Proof.
  pose proof (physics_x_pass_before_y_pass [corner_tile] corner_player) as H.
  cbv zeta in H. destruct H as (_ & _ & _ & _ & _ & _ & _ & Hcorner).
  destruct (Hcorner
              (conj eq_refl eq_refl)
              (Forall_cons corner_tile (conj eq_refl eq_refl) (Forall_nil positive))
              corner_player_clear
              corner_tile (or_introl eq_refl) corner_player_approaches)
    as (Hx & Hv & h & rest & _ & Hstop & Honly).
  split; [exact Hx|]. split; [exact Hv|].
  pose proof (Honly (fun r Hr _ => match Hr with
                                   | or_introl e => eq_sym e
                                   | or_intror f => False_ind _ f
                                   end)) as Hq.
  rewrite Hq in Hstop. exact Hstop.
Defined.

(** ** Jumping (C6) *)

Ltac break_if :=
  match goal with
  | |- context [if ?b then _ else _] => destruct b eqn:?
  end.

Lemma fpos_Qlt (q : Q) : fpos q = true <-> (0 < q)%Q.
Proof. unfold fpos, Qlt. cbn. rewrite Z.ltb_lt. lia. Qed.

Lemma fpos_fadd (a b : Q) : fpos (fadd a b) = true <-> (0 < a + b)%Q.
Proof. unfold fadd. rewrite fpos_Qlt, Qred_correct. reflexivity. Qed.

(** With an upward jump power the reduced impulse still points upward after
    gravity. *)
Lemma double_jump_rises (jp : Z) :
  jp < 0 -> fpos (fadd (fmul (inject_Z jp) DOUBLE_JUMP_MULT) GRAVITY) = false.
Proof.
  intros Hjp. apply not_true_is_false. rewrite fpos_fadd. unfold fmul.
  rewrite Qred_correct. unfold Qlt, DOUBLE_JUMP_MULT, GRAVITY. cbn. lia.
Qed.

(** *** What each phase leaves alone *)

Lemma update_move_keeps (c : Controls) (p : Player.t) :
  let m := Player.update_move c p in
  Player.rect m = Player.rect p /\ Player.vel_y m = Player.vel_y p /\
  Player.jump_power m = Player.jump_power p /\
  Player.on_ground m = Player.on_ground p /\
  Player.double_jump m = Player.double_jump p /\
  Player.coyote_timer m = Player.coyote_timer p /\
  Player.jump_buffer m = Player.jump_buffer p /\
  Player.lives m = Player.lives p /\ Player.score m = Player.score p.
Proof.
  unfold Player.update_move. repeat break_if; cbn; repeat split; reflexivity.
Qed.

Lemma update_jump_double (prev : bool) (m : Player.t) :
  0 < Player.jump_buffer m -> prev = false -> Player.coyote_timer m <= 0 ->
  Player.double_jump m = true ->
  Player.update_jump prev m =
  Player.set_jump_buffer
    (Player.set_double_jump
       (Player.set_vel_y m (fmul (inject_Z (Player.jump_power m)) DOUBLE_JUMP_MULT))
       false) 0.
Proof.
  intros Hb -> Hc Hd. unfold Player.update_jump.
  replace (0 <? Player.jump_buffer m) with true by (symmetry; apply Z.ltb_lt; lia).
  replace (0 <? Player.coyote_timer m) with false by (symmetry; apply Z.ltb_ge; lia).
  rewrite Hd. reflexivity.
Qed.

Lemma update_jump_spent (prev : bool) (m : Player.t) :
  0 < Player.jump_buffer m -> prev = false -> Player.coyote_timer m <= 0 ->
  Player.double_jump m = false ->
  Player.update_jump prev m = Player.set_jump_buffer m (Player.jump_buffer m - 1).
Proof.
  intros Hb -> Hc Hd. unfold Player.update_jump.
  replace (0 <? Player.jump_buffer m) with true by (symmetry; apply Z.ltb_lt; lia).
  replace (0 <? Player.coyote_timer m) with false by (symmetry; apply Z.ltb_ge; lia).
  rewrite Hd. cbn [orb].
  replace (0 <? Player.jump_buffer m) with true by (symmetry; apply Z.ltb_lt; lia).
  reflexivity.
Qed.

Lemma update_jump_idle (prev : bool) (m : Player.t) :
  Player.jump_buffer m <= 0 -> Player.update_jump prev m = m.
Proof.
  intros Hb. unfold Player.update_jump.
  assert (E : (0 <? Player.jump_buffer m) = false) by (apply Z.ltb_ge; lia).
  rewrite E. cbv zeta. rewrite E. reflexivity.
Qed.

Lemma collide_hit_keeps (dir : string) (p : Player.t) (q : Platform.t) :
  let p' := Player.collide_hit dir p q in
  Player.double_jump p' = Player.double_jump p /\
  Player.coyote_timer p' = Player.coyote_timer p /\
  Player.jump_buffer p' = Player.jump_buffer p /\
  Player.jump_power p' = Player.jump_power p /\
  Player.lives p' = Player.lives p /\ Player.score p' = Player.score p.
Proof.
  unfold Player.collide_hit. repeat break_if; cbn; repeat split; reflexivity.
Qed.

Lemma collide_fold_keeps (dir : string) (hits : list Platform.t) (p : Player.t) :
  let p' := fold_left (Player.collide_hit dir) hits p in
  Player.double_jump p' = Player.double_jump p /\
  Player.coyote_timer p' = Player.coyote_timer p /\
  Player.jump_buffer p' = Player.jump_buffer p /\
  Player.jump_power p' = Player.jump_power p /\
  Player.lives p' = Player.lives p /\ Player.score p' = Player.score p.
Proof.
  revert p. induction hits as [|h hits IH]; intros p; cbn [fold_left].
  - repeat split; reflexivity.
  - destruct (IH (Player.collide_hit dir p h)) as (A & B & C & D & E & F).
    destruct (collide_hit_keeps dir p h) as (A' & B' & C' & D' & E' & F').
    repeat split; congruence.
Qed.

Lemma collide_keeps (platforms : list Platform.t) (dir : string) (p : Player.t) :
  let p' := Player.collide platforms dir p in
  Player.double_jump p' = Player.double_jump p /\
  Player.coyote_timer p' = Player.coyote_timer p /\
  Player.jump_buffer p' = Player.jump_buffer p /\
  Player.jump_power p' = Player.jump_power p /\
  Player.lives p' = Player.lives p /\ Player.score p' = Player.score p.
Proof. unfold Player.collide. cbv zeta. apply collide_fold_keeps. Qed.

Lemma update_physics_keeps (platforms : list Platform.t) (p : Player.t) :
  let p' := Player.update_physics platforms p in
  Player.double_jump p' = Player.double_jump p /\
  Player.coyote_timer p' = Player.coyote_timer p /\
  Player.jump_buffer p' = Player.jump_buffer p /\
  Player.jump_power p' = Player.jump_power p /\
  Player.lives p' = Player.lives p /\ Player.score p' = Player.score p.
Proof.
  unfold Player.update_physics, Player.resolve_y, Player.resolve_x. cbv zeta.
  match goal with
  | |- context [Player.collide platforms "y" ?a] =>
      destruct (collide_keeps platforms "y" a) as (A & B & C & D & E & F)
  end.
  match goal with
  | |- context [Player.collide platforms "x" ?a] =>
      destruct (collide_keeps platforms "x" a) as (A' & B' & C' & D' & E' & F')
  end.
  cbn in *. repeat split; congruence.
Qed.

(** *** The jump buffer is read by the controls phase only *)

Lemma update_move_buffer (c : Controls) (p : Player.t) (n : Z) :
  Player.update_move c (Player.set_jump_buffer p n)
  = Player.set_jump_buffer (Player.update_move c p) n.
Proof.
  destruct p. unfold Player.update_move. cbn.
  repeat break_if; cbn; try reflexivity; cbn in *; congruence.
Qed.

Lemma collide_hit_buffer (dir : string) (p : Player.t) (q : Platform.t) (n : Z) :
  Player.collide_hit dir (Player.set_jump_buffer p n) q
  = Player.set_jump_buffer (Player.collide_hit dir p q) n.
Proof.
  destruct p. unfold Player.collide_hit. cbn.
  repeat break_if; cbn; try reflexivity; cbn in *; congruence.
Qed.

Lemma collide_fold_buffer (dir : string) (hits : list Platform.t) (p : Player.t) (n : Z) :
  fold_left (Player.collide_hit dir) hits (Player.set_jump_buffer p n)
  = Player.set_jump_buffer (fold_left (Player.collide_hit dir) hits p) n.
Proof.
  revert p. induction hits as [|h hits IH]; intros p; cbn [fold_left]; [reflexivity|].
  rewrite collide_hit_buffer. apply IH.
Qed.

Lemma update_physics_buffer (platforms : list Platform.t) (p : Player.t) (n : Z) :
  Player.update_physics platforms (Player.set_jump_buffer p n)
  = Player.set_jump_buffer (Player.update_physics platforms p) n.
Proof.
  unfold Player.update_physics, Player.resolve_y, Player.resolve_x, Player.collide.
  cbv zeta.
  change (Player.apply_gravity (Player.set_jump_buffer p n))
    with (Player.set_jump_buffer (Player.apply_gravity p) n).
  set (g := Player.apply_gravity p).
  change (Player.set_rect (Player.set_jump_buffer g n)
            (Rect.move (Player.rect (Player.set_jump_buffer g n))
               (py_round (Player.vel_x (Player.set_jump_buffer g n))) 0))
    with (Player.set_jump_buffer
            (Player.set_rect g (Rect.move (Player.rect g) (py_round (Player.vel_x g)) 0)) n).
  set (mx := Player.set_rect g _).
  change (Player.rect (Player.set_jump_buffer mx n)) with (Player.rect mx).
  rewrite collide_fold_buffer.
  set (px := fold_left (Player.collide_hit "x") _ mx).
  change (Player.set_rect (Player.set_jump_buffer px n)
            (Rect.move (Player.rect (Player.set_jump_buffer px n)) 0
               (py_round (Player.vel_y (Player.set_jump_buffer px n)))))
    with (Player.set_jump_buffer
            (Player.set_rect px (Rect.move (Player.rect px) 0 (py_round (Player.vel_y px)))) n).
  set (my := Player.set_rect px _).
  change (Player.rect (Player.set_jump_buffer my n)) with (Player.rect my).
  apply collide_fold_buffer.
Qed.

Lemma update_grounded_buffer (p : Player.t) (n : Z) :
  Player.update_grounded (Player.set_jump_buffer p n)
  = Player.set_jump_buffer (Player.update_grounded p) n.
Proof.
  destruct p. unfold Player.update_grounded. cbn.
  repeat break_if; cbn; try reflexivity; cbn in *; congruence.
Qed.

Lemma after_controls_buffer (aim : Aim) (c : Controls) (camera : Camera.t)
    (LH : Z) (platforms : list Platform.t) (bs : list Bullet.t) (p : Player.t) (n : Z) :
  after_controls aim c camera LH platforms bs (Player.set_jump_buffer p n) =
  let r := after_controls aim c camera LH platforms bs p in
  (Player.set_jump_buffer (fst (fst r)) n, snd (fst r), snd r).
Proof.
  unfold after_controls. cbv zeta.
  rewrite update_physics_buffer, update_grounded_buffer.
  set (q := Player.update_grounded (Player.update_physics platforms p)).
  change (Player.rect (Player.set_jump_buffer q n)) with (Player.rect q).
  change (Player.update_shoot aim c camera (Player.set_jump_buffer q n) bs)
    with (Player.update_shoot aim c camera q bs).
  destruct (LH + 200 <? Rect.top (Player.rect q)); reflexivity.
Qed.

Lemma update_after_controls (aim : Aim) (c : Controls) (camera : Camera.t)
    (LH : Z) (platforms : list Platform.t) (bs : list Bullet.t) (p : Player.t) :
  Player.update aim c camera LH platforms bs p
  = after_controls aim c camera LH platforms bs (Player.update_controls c p).
Proof. reflexivity. Qed.

(** *** Grounding and recharge *)

Lemma update_physics_on_ground (platforms : list Platform.t) (p : Player.t) :
  Player.on_ground p = false ->
  fpos (fadd (Player.vel_y p) GRAVITY) = false ->
  Player.on_ground (Player.update_physics platforms p) = false.
Proof.
  intros Hg Hv. unfold Player.update_physics. cbv zeta.
  rewrite resolve_y_on_ground.
  destruct (resolve_x_keeps_y platforms (Player.apply_gravity p)) as (_ & _ & _ & Hy & Ho).
  rewrite Hy, Ho. cbn [Player.apply_gravity Player.set_vel_y Player.vel_y Player.on_ground].
  rewrite Hg, Hv. reflexivity.
Qed.

Lemma after_controls_player (aim : Aim) (c : Controls) (camera : Camera.t)
    (LH : Z) (platforms : list Platform.t) (bs : list Bullet.t) (m : Player.t) :
  let q := fst (fst (after_controls aim c camera LH platforms bs m)) in
  let ph := Player.update_physics platforms m in
  Player.on_ground q = Player.on_ground ph /\
  (Player.on_ground ph = true ->
     Player.double_jump q = true /\ Player.coyote_timer q = COYOTE_TIME) /\
  (Player.on_ground ph = false ->
     Player.double_jump q = Player.double_jump m /\
     Player.coyote_timer q =
       if 0 <? Player.coyote_timer m then Player.coyote_timer m - 1
       else Player.coyote_timer m).
Proof.
  cbv zeta. unfold after_controls. cbv zeta.
  destruct (update_physics_keeps platforms m) as (Hd & Hc & _).
  set (ph := Player.update_physics platforms m) in *.
  assert (Hq : forall x,
             fst (fst (if LH + 200 <? Rect.top (Player.rect x)
                       then (Player.set_lives x (Player.lives x - 1),
                             Player.update_shoot aim c camera x bs, true)
                       else (x, Player.update_shoot aim c camera x bs, false)))
             = x \/
             fst (fst (if LH + 200 <? Rect.top (Player.rect x)
                       then (Player.set_lives x (Player.lives x - 1),
                             Player.update_shoot aim c camera x bs, true)
                       else (x, Player.update_shoot aim c camera x bs, false)))
             = Player.set_lives x (Player.lives x - 1)).
  { intros x. destruct (LH + 200 <? Rect.top (Player.rect x)); [right|left]; reflexivity. }
  destruct (Hq (Player.update_grounded ph)) as [-> | ->];
    cbn [Player.set_lives Player.on_ground Player.double_jump Player.coyote_timer];
    unfold Player.update_grounded;
    destruct (Player.on_ground ph) eqn:Hg; cbn;
    try (destruct (0 <? Player.coyote_timer ph) eqn:Hct; cbn);
    rewrite ?Hg; repeat split; intros; try discriminate; try reflexivity;
    try congruence; rewrite <- ?Hc, ?Hct; try reflexivity.
Qed.

Lemma handle_events_keeps (evs : list Event) (p : Player.t) :
  let p' := Player.handle_events evs p in
  Player.rect p' = Player.rect p /\ Player.vel_x p' = Player.vel_x p /\
  Player.vel_y p' = Player.vel_y p /\
  Player.on_ground p' = Player.on_ground p /\
  Player.double_jump p' = Player.double_jump p /\
  Player.coyote_timer p' = Player.coyote_timer p /\
  Player.lives p' = Player.lives p /\ Player.score p' = Player.score p.
Proof.
  unfold Player.handle_events. revert p.
  induction evs as [|e evs IH]; intros p; cbn [fold_left].
  - repeat split; reflexivity.
  - match goal with
    | |- context [fold_left _ evs ?a] => specialize (IH a)
    end.
    cbv zeta in IH. destruct IH as (A & B & C & D & E & F & G & H).
    rewrite A, B, C, D, E, F, G, H.
    destruct e as [|k|]; [repeat split; reflexivity| |repeat split; reflexivity].
    destruct (Player.is_jump_key k); repeat split; reflexivity.
Qed.

Lemma update_controls_spent (c : Controls) (p : Player.t) :
  spent p ->
  let m := Player.update_controls c p in
  Player.double_jump m = false /\ Player.coyote_timer m = 0 /\
  Player.on_ground m = false /\ Player.vel_y m = Player.vel_y p.
Proof.
  intros (Hd & Hg & Hc). cbv zeta. unfold Player.update_controls. cbv zeta.
  destruct (update_move_keeps c (Player.set_on_ground p false))
    as (_ & Hv & _ & Ho & Hdj & Hct & Hjb & _).
  cbn [Player.set_on_ground Player.vel_y Player.on_ground Player.double_jump
       Player.coyote_timer Player.jump_buffer] in *.
  set (m0 := Player.update_move c (Player.set_on_ground p false)) in *.
  rewrite Hg.
  destruct (Z_lt_le_dec 0 (Player.jump_buffer m0)) as [Hb|Hb].
  - rewrite update_jump_spent by (try assumption; try reflexivity; try lia; congruence).
    cbn. repeat split; congruence.
  - rewrite update_jump_idle by assumption. repeat split; congruence.
Qed.

(** From a spent state a step ends grounded or spent again, whatever the
    input. *)
Lemma spent_step (aim : Aim) (c : Controls) (camera : Camera.t) (LH : Z)
    (platforms : list Platform.t) (bs : list Bullet.t) (p : Player.t) :
  spent p ->
  let p' := updated aim c camera LH platforms bs p in
  Player.on_ground p' = true \/ spent p'.
Proof.
  intros Hs. cbv zeta. unfold updated. rewrite update_after_controls.
  destruct (update_controls_spent c p Hs) as (Hd & Hc & Hg & _).
  destruct (after_controls_player aim c camera LH platforms bs (Player.update_controls c p))
    as (Ho & _ & Hair).
  destruct (Player.on_ground (Player.update_physics platforms (Player.update_controls c p)))
    eqn:Hph.
  - left. exact Ho.
  - right. destruct (Hair eq_refl) as (Hdj & Hct). unfold spent.
    rewrite Ho, Hdj, Hct, Hd, Hc. repeat split; reflexivity.
Qed.

(** *** The frame leaves the jump state to [update] *)

Lemma touch_enemy_jump_state (es : list Enemy.t) (p : Player.t) (go : bool) :
  same_jump_state (fst (touch_enemy es p go)) p.
Proof.
  unfold touch_enemy, same_jump_state.
  destruct (spritecollideany Enemy.rect (Player.rect p) es); cbn; repeat split; reflexivity.
Qed.

Lemma play_frame_jump_state (inp : Input) (pz : bool) (w : World) :
  same_jump_state (player (play_frame inp pz w))
    (updated (aim inp) (controls inp) (camera w) (LEVEL_HEIGHT w) (platforms w)
       (bullets w) (Player.handle_events (events inp) (player w))).
Proof.
  unfold play_frame, player_pass, updated.
  destruct (Player.update (aim inp) (controls inp) (camera w) (LEVEL_HEIGHT w)
              (platforms w) (bullets w) (Player.handle_events (events inp) (player w)))
    as [[p bs] died].
  cbn [fst].
  set (p1 := if died then Player.respawn p (respawn_point w) else p).
  assert (Hp1 : same_jump_state p1 p)
    by (subst p1; destruct died; cbn; repeat split; reflexivity).
  assert (Hpass :
            (if died
             then (Player.respawn p (respawn_point w), bs,
                   if Player.lives (Player.respawn p (respawn_point w)) <=? 0
                   then true else game_over w)
             else (p, bs, game_over w))
            = (p1, bs, if died
                       then (if Player.lives (Player.respawn p (respawn_point w)) <=? 0
                             then true else game_over w)
                       else game_over w))
    by (subst p1; destruct died; reflexivity).
  rewrite Hpass. clearbody p1. clear Hpass.
  destruct (enemies_update _ _ _ _ _ _ _) as [es ebs].
  destruct (bullet_hits _ _ _) as [[bs' es'] score].
  destruct (enemy_bullet_hits _ _ _ _) as [[ebs' lives] go].
  match goal with
  | |- context [touch_enemy ?a ?b ?c] =>
      pose proof (touch_enemy_jump_state a b c) as Ht;
      destruct (touch_enemy a b c) as [p2 go2]
  end.
  cbn [fst] in Ht.
  destruct (collect _ _ _) as [cs score'].
  destruct (checkpoint_pass _ _ _ _) as [[cps rp] timer].
  destruct (level_clear _ _ _ _) as [cool timer'].
  cbn [player]. unfold same_jump_state in *. cbn in *.
  destruct Ht as (A & B & C). destruct Hp1 as (A' & B' & C').
  repeat split; congruence.
Qed.

Lemma frozen_frame_jump_state (inp : Input) (pz : bool) (w w' : World) :
  frozen_frame inp pz w = Continues w' -> same_jump_state (player w') (player w).
Proof.
  unfold frozen_frame. intros H.
  repeat match type of H with
         | context [if ?b then _ else _] => destruct b
         | context [match ?o with Some _ => _ | None => _ end] => destruct o as [[lv st]|]
         end;
    inversion H; subst; cbn; repeat split; reflexivity.
Qed.

Lemma frame_spent (inp : Input) (d : Disk) (w w' : World) :
  spent (player w) -> frame inp d w = Continues w' ->
  Player.on_ground (player w') = true \/ spent (player w').
Proof.
  intros Hs. unfold frame.
  destruct (poll_events _ _ _ _ _) as [pz| |]; try discriminate.
  destruct (pz || game_over w || win w || (0 <? level_transition_timer w)).
  - intros H. apply frozen_frame_jump_state in H. destruct H as (A & B & C).
    right. unfold spent in *. rewrite A, B, C. exact Hs.
  - intros H. inversion H; subst; clear H.
    destruct (play_frame_jump_state inp pz w) as (A & B & C).
    assert (Hs' : spent (Player.handle_events (events inp) (player w))).
    { destruct (handle_events_keeps (events inp) (player w))
        as (_ & _ & _ & Ho & Hd & Hc & _).
      unfold spent in *. rewrite Ho, Hd, Hc. exact Hs. }
    destruct (spent_step (aim inp) (controls inp) (camera w) (LEVEL_HEIGHT w)
                (platforms w) (bullets w) _ Hs') as [Hg|Hsp].
    + left. rewrite A. exact Hg.
    + right. unfold spent in *. rewrite A, B, C. exact Hsp.
Qed.

Lemma run_spent (inputs : list Input) (d : Disk) (w : World) :
  spent (player w) ->
  Forall (fun q => Player.on_ground q = false) (players_of inputs d w) ->
  Forall spent (players_of inputs d w).
Proof.
  revert w. induction inputs as [|inp rest IH]; intros w Hs Hair; cbn [players_of] in *.
  - constructor.
  - destruct (frame inp d w) as [w'| | |] eqn:Hf; try constructor.
    + inversion Hair; subst.
      destruct (frame_spent inp d w w' Hs Hf) as [Hg|Hsp]; [congruence|assumption].
    + inversion Hair; subst. apply IH; [|assumption].
      destruct (frame_spent inp d w w' Hs Hf) as [Hg|Hsp]; [congruence|assumption].
Qed.

(** C6.  A buffered jump request reaches a player that was not grounded on
    the previous frame and whose coyote timer is 0.  With the charge
    available the controls phase sets [vel.y] to
    [jump_power * DOUBLE_JUMP_MULT], uses the charge and clears the buffer; the
    step then ends grounded or with the charge still used, and with an upward
    jump power it ends airborne with the charge used.  With the charge used
    the request changes nothing but the buffer count: the step is the step
    without the request.  A step that ends grounded ends with the charge
    available.  Over the frames of a run, starting from the state a double
    jump leaves, the charge stays used at every frame until the first one
    that ends grounded, so the reduced impulse cannot fire twice in between. *)
Theorem double_jump_once_per_airtime (aim : Aim) (c : Controls) (camera : Camera.t)
    (LH : Z) (platforms : list Platform.t) (bs : list Bullet.t) (p : Player.t) :
  0 < Player.jump_buffer p ->
  Player.on_ground p = false ->
  Player.coyote_timer p = 0 ->
  let m := Player.update_controls c p in
  let p' := updated aim c camera LH platforms bs p in
  (Player.double_jump p = true ->
     Player.vel_y m = fmul (inject_Z (Player.jump_power p)) DOUBLE_JUMP_MULT /\
     Player.double_jump m = false /\ Player.jump_buffer m = 0 /\
     (Player.on_ground p' = true \/ spent p') /\
     (Player.jump_power p < 0 -> spent p')) /\
  (Player.double_jump p = false ->
     Player.vel_y m = Player.vel_y p /\
     Player.update aim c camera LH platforms bs p =
       (let r := Player.update aim c camera LH platforms bs
                   (Player.set_jump_buffer p 0) in
        (Player.set_jump_buffer (fst (fst r)) (Player.jump_buffer p - 1),
         snd (fst r), snd r)) /\
     (Player.on_ground p' = true \/ spent p')) /\
  (Player.on_ground p' = true -> Player.double_jump p' = true) /\
  (forall inputs d w,
     spent (player w) ->
     Forall (fun q => Player.on_ground q = false) (players_of inputs d w) ->
     Forall spent (players_of inputs d w)).
Proof.
  intros Hb Hg Hc. cbv zeta.
  destruct (update_move_keeps c (Player.set_on_ground p false))
    as (_ & Hv & Hjp & Ho & Hdj & Hct & Hjb & _).
  cbn [Player.set_on_ground Player.vel_y Player.on_ground Player.double_jump
       Player.coyote_timer Player.jump_buffer Player.jump_power] in *.
  destruct (after_controls_player aim c camera LH platforms bs (Player.update_controls c p))
    as (Hq & Hground & Hair).
  fold (updated aim c camera LH platforms bs p) in Hq, Hground, Hair.
  change (fst (fst (after_controls aim c camera LH platforms bs
                      (Player.update_controls c p))))
    with (updated aim c camera LH platforms bs p) in *.
  split; [|split; [|split]].
  - intros Hd.
    assert (Hm : Player.update_controls c p =
                 Player.set_jump_buffer
                   (Player.set_double_jump
                      (Player.set_vel_y (Player.update_move c (Player.set_on_ground p false))
                         (fmul (inject_Z (Player.jump_power p)) DOUBLE_JUMP_MULT))
                      false) 0).
    { unfold Player.update_controls. cbv zeta. rewrite Hg.
      rewrite update_jump_double by (try reflexivity; try lia; congruence).
      rewrite Hjp. reflexivity. }
    assert (Hmg : Player.on_ground (Player.update_controls c p) = false)
      by apply update_controls_on_ground.
    assert (Hmd : Player.double_jump (Player.update_controls c p) = false)
      by (rewrite Hm; reflexivity).
    assert (Hmc : Player.coyote_timer (Player.update_controls c p) = 0)
      by (rewrite Hm; cbn; congruence).
    split; [rewrite Hm; reflexivity|]. split; [exact Hmd|].
    split; [rewrite Hm; reflexivity|].
    assert (Hsp : Player.on_ground
                    (Player.update_physics platforms (Player.update_controls c p)) = false ->
                  spent (updated aim c camera LH platforms bs p)).
    { intros Hph. destruct (Hair Hph) as (A & B). unfold spent.
      rewrite Hq, Hph, A, B, Hmd, Hmc. repeat split; reflexivity. }
    split.
    + destruct (Player.on_ground
                  (Player.update_physics platforms (Player.update_controls c p))) eqn:Hph.
      * left. exact Hq.
      * right. apply Hsp. reflexivity.
    + intros Hneg. apply Hsp. apply update_physics_on_ground; [exact Hmg|].
      rewrite Hm. cbn [Player.vel_y Player.set_jump_buffer Player.set_double_jump
                       Player.set_vel_y].
      apply double_jump_rises. exact Hneg.
  - intros Hd.
    assert (Hs : spent p) by (repeat split; assumption).
    destruct (update_controls_spent c p Hs) as (_ & _ & _ & Hvy).
    split; [exact Hvy|]. split.
    + rewrite !update_after_controls.
      assert (Hm : Player.update_controls c p =
                   Player.set_jump_buffer
                     (Player.update_controls c (Player.set_jump_buffer p 0))
                     (Player.jump_buffer p - 1)).
      { unfold Player.update_controls. cbv zeta.
        cbn [Player.on_ground Player.set_jump_buffer]. rewrite Hg.
        change (Player.set_on_ground (Player.set_jump_buffer p 0) false)
          with (Player.set_jump_buffer (Player.set_on_ground p false) 0).
        rewrite update_move_buffer.
        rewrite update_jump_spent by (try reflexivity; try lia; congruence).
        rewrite (update_jump_idle false
                   (Player.set_jump_buffer
                      (Player.update_move c (Player.set_on_ground p false)) 0))
          by (cbn; lia).
        rewrite Hjb. reflexivity. }
      rewrite Hm at 1. rewrite after_controls_buffer. reflexivity.
    + apply spent_step. exact Hs.
  - intros Hgr. rewrite Hq in Hgr. apply Hground in Hgr. apply Hgr.
  - intros inputs d w. apply run_spent.
Qed.

Lemma double_jump_once_per_airtime_witness :
  Player.vel_y (Player.update_controls no_keys jumper) = (-57 # 4)%Q /\
  Player.double_jump (Player.update_controls no_keys jumper) = false /\
  spent (updated no_aim no_keys (Camera.__init__ 960 640) 480
           [corner_tile] [] jumper).
Proof.
  pose proof (double_jump_once_per_airtime no_aim no_keys (Camera.__init__ 960 640) 480
                [corner_tile] [] jumper
                ltac:(vm_compute; reflexivity) eq_refl eq_refl) as H.
  cbv zeta in H. destruct H as (Hfire & _).
  destruct (Hfire eq_refl) as (Hv & Hd & _ & _ & Hs).
  split; [exact Hv|]. split; [exact Hd|].
  apply Hs. vm_compute. reflexivity.
Defined.

(** ** Lives and game over (C2) *)

Lemma update_jump_lives (prev : bool) (m : Player.t) :
  Player.lives (Player.update_jump prev m) = Player.lives m.
Proof. unfold Player.update_jump. repeat break_if; reflexivity. Qed.

Lemma update_grounded_lives (p : Player.t) :
  Player.lives (Player.update_grounded p) = Player.lives p.
Proof. unfold Player.update_grounded. repeat break_if; reflexivity. Qed.

(** [update] takes one life exactly when it returns ['died']. *)
Lemma update_lives (aim : Aim) (c : Controls) (camera : Camera.t) (LH : Z)
    (platforms : list Platform.t) (bs : list Bullet.t) (p : Player.t) :
  let r := Player.update aim c camera LH platforms bs p in
  Player.lives (fst (fst r)) = if snd r then Player.lives p - 1 else Player.lives p.
Proof.
  cbv zeta. unfold Player.update. cbv zeta.
  set (q := Player.update_grounded _).
  assert (Hq : Player.lives q = Player.lives p).
  { subst q. rewrite update_grounded_lives.
    destruct (update_physics_keeps platforms (Player.update_controls c p))
      as (_ & _ & _ & _ & Hl & _).
    rewrite Hl. unfold Player.update_controls. cbv zeta. rewrite update_jump_lives.
    destruct (update_move_keeps c (Player.set_on_ground p false))
      as (_ & _ & _ & _ & _ & _ & _ & Hm & _).
    rewrite Hm. reflexivity. }
  destruct (LH + 200 <? Rect.top (Player.rect q)); cbn; rewrite Hq; reflexivity.
Qed.

Lemma enemy_bullet_hits_lost (r : Rect.t) (ebs : list Bullet.t) (lives : Z) (go : bool) :
  (lives <= 0 -> go = true) ->
  let res := enemy_bullet_hits r ebs lives go in
  snd (fst res) <= 0 -> snd res = true.
Proof.
  revert lives go. induction ebs as [|b ebs IH]; intros lives go Hinv; cbn [enemy_bullet_hits].
  - exact Hinv.
  - destruct (Rect.colliderect r (Bullet.rect b)).
    + apply IH. intros Hl. destruct (lives - 1 <=? 0) eqn:E; [reflexivity|].
      apply Z.leb_gt in E. lia.
    + specialize (IH lives go Hinv). cbv zeta in IH.
      destruct (enemy_bullet_hits r ebs lives go) as [[ebs' lives'] go'].
      exact IH.
Qed.

Lemma touch_enemy_lost (es : list Enemy.t) (p : Player.t) (go : bool) :
  (Player.lives p <= 0 -> go = true) ->
  let res := touch_enemy es p go in
  Player.lives (fst res) <= 0 -> snd res = true.
Proof.
  intros Hinv. cbv zeta. unfold touch_enemy.
  destruct (spritecollideany Enemy.rect (Player.rect p) es); [|exact Hinv].
  cbn. intros Hl. destruct (Player.lives p - 1 <=? 0) eqn:E; [reflexivity|].
  apply Z.leb_gt in E. lia.
Qed.

Lemma player_pass_lost (inp : Input) (w : World) :
  lost_when_dead w ->
  let res := player_pass inp w in
  Player.lives (fst (fst res)) <= 0 -> snd res = true.
Proof.
  intros Hinv. cbv zeta. unfold player_pass.
  pose proof (update_lives (aim inp) (controls inp) (camera w) (LEVEL_HEIGHT w)
                (platforms w) (bullets w)
                (Player.handle_events (events inp) (player w))) as Hl.
  cbv zeta in Hl.
  destruct (Player.update _ _ _ _ _ _ _) as [[p bs] died]. cbn [fst snd] in Hl.
  destruct (handle_events_keeps (events inp) (player w))
    as (_ & _ & _ & _ & _ & _ & Hlives & _).
  rewrite Hlives in Hl.
  destruct died; cbn [fst snd].
  - change (Player.lives (Player.respawn p (respawn_point w))) with (Player.lives p).
    intros Hle. destruct (Player.lives p <=? 0) eqn:E; [reflexivity|].
    apply Z.leb_gt in E. lia.
  - intros Hle. apply Hinv. lia.
Qed.

Lemma play_frame_lost (inp : Input) (pz : bool) (w : World) :
  lost_when_dead w -> lost_when_dead (play_frame inp pz w).
Proof.
  intros Hinv. pose proof (player_pass_lost inp w Hinv) as H1. cbv zeta in H1.
  unfold play_frame.
  destruct (player_pass inp w) as [[p bs] go]. cbn [fst snd] in H1.
  destruct (enemies_update _ _ _ _ _ _ _) as [es ebs].
  destruct (bullet_hits _ _ _) as [[bs' es'] score].
  match goal with
  | |- context [enemy_bullet_hits ?r ?l ?n ?g] =>
      pose proof (enemy_bullet_hits_lost r l n g) as H2;
      destruct (enemy_bullet_hits r l n g) as [[ebs' lives] go2]
  end.
  cbn [fst snd Player.lives Player.set_score] in H2. specialize (H2 H1).
  match goal with
  | |- context [touch_enemy ?a ?b ?c] =>
      pose proof (touch_enemy_lost a b c) as H3;
      destruct (touch_enemy a b c) as [p3 go3]
  end.
  cbn [fst snd Player.lives Player.set_lives] in H3. specialize (H3 H2).
  destruct (collect _ _ _) as [cs score'].
  destruct (checkpoint_pass _ _ _ _) as [[cps rp] timer].
  destruct (level_clear _ _ _ _) as [cool timer'].
  unfold lost_when_dead. cbn. exact H3.
Qed.

Lemma frozen_frame_lost (inp : Input) (pz : bool) (w w' : World) :
  lost_when_dead w -> frozen_frame inp pz w = Continues w' ->
  lost_when_dead w' /\ Player.lives (player w) <= Player.lives (player w').
Proof.
  unfold frozen_frame, lost_when_dead. intros Hinv H.
  repeat match type of H with
         | context [if ?b then _ else _] => destruct b
         | context [match ?o with Some _ => _ | None => _ end] => destruct o as [[lv st]|]
         end;
    inversion H; subst; cbn; split; try assumption; try lia.
Qed.

Lemma frame_lost (inp : Input) (d : Disk) (w w' : World) :
  lost_when_dead w -> frame inp d w = Continues w' -> lost_when_dead w'.
Proof.
  intros Hinv. unfold frame.
  destruct (poll_events _ _ _ _ _) as [pz| |]; try discriminate.
  destruct (pz || game_over w || win w || (0 <? level_transition_timer w)).
  - intros H. apply (frozen_frame_lost inp pz w w' Hinv H).
  - intros H. inversion H; subst. apply play_frame_lost, Hinv.
Qed.

Lemma run_frames_lost (inputs : list Input) (d : Disk) (w w' : World) :
  lost_when_dead w -> run_frames inputs d w = Continues w' -> lost_when_dead w'.
Proof.
  revert w. induction inputs as [|inp rest IH]; intros w Hinv H; cbn [run_frames] in H.
  - inversion H; subst. exact Hinv.
  - destruct (frame inp d w) as [w1| | |] eqn:Hf; try discriminate.
    apply (IH w1); [|exact H]. exact (frame_lost inp d w w1 Hinv Hf).
Qed.

Lemma run_game_init_lives (d : Disk) (rng : Rng) (w : World) :
  run_game_init d rng = Some w ->
  Player.lives (player w) = 3 /\ game_over w = false.
Proof.
  unfold run_game_init. destruct (LevelManager.load_level rng 1) as [[lv st]|];
    [|discriminate].
  intros H. inversion H; subst. split; reflexivity.
Qed.

(** Once the game is over the frame is frozen: lives are not taken any
    more. *)
Lemma frame_game_over_frozen (inp : Input) (d : Disk) (w w' : World) :
  game_over w = true -> frame inp d w = Continues w' ->
  game_over w' = true /\ Player.lives (player w) <= Player.lives (player w').
Proof.
  intros Hgo. unfold frame.
  destruct (poll_events _ _ _ _ _) as [pz| |]; try discriminate.
  rewrite Hgo, orb_true_r. cbn [orb].
  unfold frozen_frame. intros H.
  repeat match type of H with
         | context [if ?b then _ else _] => destruct b
         | context [match ?o with Some _ => _ | None => _ end] => destruct o as [[lv st]|]
         end;
    inversion H; subst; cbn; split; try assumption; try lia.
Qed.

(** C2, as the code has it.  In every session, at the end of every frame, a
    player with no lives left (zero or fewer) has lost: the state is GameOver,
    so the lives counter is at least 1 as long as the game is not over; a
    frame that brings lives to zero or below ends in GameOver; and from then
    on no frame takes a life.  The counter itself may end that last frame
    below zero. *)
Theorem lives_exhausted_is_game_over :
  (forall d rng inputs w,
     run_game d rng inputs = Continues w ->
     (Player.lives (player w) <= 0 -> game_over w = true) /\
     (game_over w = false -> 1 <= Player.lives (player w))) /\
  (forall inp d w w',
     frame inp d w = Continues w' ->
     0 < Player.lives (player w) ->
     Player.lives (player w') <= 0 -> game_over w' = true) /\
  (forall inp d w w',
     frame inp d w = Continues w' ->
     game_over w = true ->
     game_over w' = true /\ Player.lives (player w) <= Player.lives (player w')).
Proof.
  split; [|split].
  - intros d rng inputs w. unfold run_game.
    destruct (run_game_init d rng) as [w0|] eqn:Hinit; [|discriminate].
    intros Hrun. apply run_game_init_lives in Hinit. destruct Hinit as [Hl Hg].
    assert (Hinv : lost_when_dead w) .
    { apply (run_frames_lost inputs d w0 w); [|exact Hrun].
      unfold lost_when_dead. lia. }
    split; [exact Hinv|].
    intros Hgo. destruct (Z_le_gt_dec (Player.lives (player w)) 0) as [Hle|]; [|lia].
    apply Hinv in Hle. congruence.
  - intros inp d w w' Hf Hpos. apply (frame_lost inp d w w'); [|exact Hf].
    unfold lost_when_dead. lia.
  - intros inp d w w' Hf Hgo. exact (frame_game_over_frozen inp d w w' Hgo Hf).
Qed.

(** The ambush session is one the game can play: its draws are in range. *)
Lemma ambush_rolls_in_range (n : nat) :
  extra_roll_in_range 2400 480 (ambush_rng n) = true.
Proof. destruct n as [|[|[|n]]]; reflexivity. Qed.

(** C2 as stated fails: in the ambush session the player, down to one life
    after 64 frames, dies of its fall in frame 65, is put back on the spawn
    point where a patrol stands, and is touched in the same frame: the
    counter ends at -1. *)
Lemma lives_go_negative :
  ambush_after 64 = Some (1, false) /\ ambush_after 65 = Some (-1, true).
Proof. split; vm_compute; reflexivity. Qed.

Lemma lives_exhausted_is_game_over_witness :
  exists w,
    run_game None ambush_rng (repeat hold_left 65) = Continues w /\
    Player.lives (player w) <= 0 /\ game_over w = true.
Proof.
  eexists. split; [vm_compute; reflexivity|].
  split; [vm_compute; discriminate|].
  refine (proj1 (proj1 lives_exhausted_is_game_over None ambush_rng
                   (repeat hold_left 65) _ _) _).
  - vm_compute. reflexivity.
  - vm_compute. discriminate.
Defined.

(** ** The chaser (C4) *)

Lemma land_hit_keeps (e : Enemy.t) (p : Platform.t) :
  let e' := Enemy.land_hit e p in
  Rect.x (Enemy.rect e') = Rect.x (Enemy.rect e) /\
  Enemy.dir e' = Enemy.dir e /\ Enemy.aggro e' = Enemy.aggro e /\
  Enemy.type e' = Enemy.type e.
Proof.
  unfold Enemy.land_hit. break_if; cbn; repeat split; reflexivity.
Qed.

Lemma land_fold_keeps (hits : list Platform.t) (e : Enemy.t) :
  let e' := fold_left Enemy.land_hit hits e in
  Rect.x (Enemy.rect e') = Rect.x (Enemy.rect e) /\
  Enemy.dir e' = Enemy.dir e /\ Enemy.aggro e' = Enemy.aggro e /\
  Enemy.type e' = Enemy.type e.
Proof.
  revert e. induction hits as [|h hits IH]; intros e; cbn [fold_left].
  - repeat split; reflexivity.
  - destruct (IH (Enemy.land_hit e h)) as (A & B & C & D).
    destruct (land_hit_keeps e h) as (A' & B' & C' & D').
    repeat split; congruence.
Qed.

(** The vertical physics of an enemy moves it on the Y axis only. *)
Lemma update_fall_keeps (platforms : list Platform.t) (e : Enemy.t) :
  let e' := Enemy.update_fall platforms e in
  Rect.x (Enemy.rect e') = Rect.x (Enemy.rect e) /\
  Enemy.dir e' = Enemy.dir e /\ Enemy.aggro e' = Enemy.aggro e /\
  Enemy.type e' = Enemy.type e.
Proof.
  unfold Enemy.update_fall. cbv zeta.
  match goal with
  | |- context [fold_left Enemy.land_hit ?l ?a] =>
      destruct (land_fold_keeps l a) as (A & B & C & D)
  end.
  cbn in *. repeat split; try assumption. lia.
Qed.

Lemma update_chaser (aim : Aim) (new_timer : Z) (platforms : list Platform.t)
    (player_rect : Rect.t) (bs : list Bullet.t) (e : Enemy.t) :
  Enemy.type e = chaser ->
  let e' := fst (Enemy.update aim new_timer platforms player_rect bs e) in
  let w := Enemy.update_walk platforms player_rect e in
  Rect.x (Enemy.rect e') = Rect.x (Enemy.rect w) /\
  Enemy.dir e' = Enemy.dir w /\ Enemy.aggro e' = Enemy.aggro w /\
  Enemy.type e' = chaser.
Proof.
  intros Ht. cbv zeta. unfold Enemy.update. rewrite Ht. cbn [fst].
  destruct (update_fall_keeps platforms (Enemy.update_walk platforms player_rect e))
    as (A & B & C & D).
  repeat split; try assumption. rewrite D.
  unfold Enemy.update_walk. rewrite Ht. repeat break_if; cbn; reflexivity.
Qed.

Lemma update_walk_aggro_sticky (platforms : list Platform.t) (player_rect : Rect.t)
    (e : Enemy.t) :
  Enemy.type e = chaser -> Enemy.aggro e = true ->
  Enemy.aggro (Enemy.update_walk platforms player_rect e) = true.
Proof.
  intros Ht Ha. unfold Enemy.update_walk. rewrite Ht, Ha.
  destruct (negb (Enemy.ground_hit platforms e) || Enemy.wall_hit platforms e);
    [reflexivity|].
  destruct (Z.abs (Rect.centerx player_rect - Rect.centerx (Enemy.rect e)) <? 400);
    destruct (Rect.centerx player_rect <? Rect.centerx (Enemy.rect e)); reflexivity.
Qed.

Lemma chase_run_aggro (aim : Aim) (steps : list (list Platform.t * Rect.t)) (e : Enemy.t) :
  Enemy.type e = chaser -> Enemy.aggro e = true ->
  Enemy.aggro (chase_run aim steps e) = true.
Proof.
  revert e. induction steps as [|[platforms pr] rest IH]; intros e Ht Ha; cbn [chase_run].
  - exact Ha.
  - destruct (update_chaser aim 60 platforms pr [] e Ht) as (_ & _ & Hag & Hty).
    apply IH; [exact Hty|]. rewrite Hag.
    apply update_walk_aggro_sticky; assumption.
Qed.

(** C4, as the code has it.  For a chaser, in one [update]: aggro, once set,
    stays set, also over any sequence of updates.  When the ground probe
    finds a platform and the wall probe finds none, aggro is set if the
    player's horizontal centre is within 400 pixels, and an aggro chaser moves
    [round(speed)] toward the player's horizontal centre (right when level
    with it), its direction set accordingly.  When the ground probe fails or
    the wall probe hits, the direction flips, the chaser does not move
    horizontally and aggro is left as it was, in range or not, aggro or
    not. *)
Theorem chaser_aggro_and_probes (aim : Aim) (new_timer : Z)
    (platforms : list Platform.t) (player_rect : Rect.t) (bs : list Bullet.t)
    (e : Enemy.t) :
  Enemy.type e = chaser ->
  let e' := fst (Enemy.update aim new_timer platforms player_rect bs e) in
  (Enemy.aggro e = true -> Enemy.aggro e' = true) /\
  (forall steps, Enemy.aggro e = true -> Enemy.aggro (chase_run aim steps e) = true) /\
  (probes_pass platforms e = true ->
     (in_chase_range player_rect e = true -> Enemy.aggro e' = true) /\
     (Enemy.aggro e' = true ->
        (Rect.centerx player_rect < Rect.centerx (Enemy.rect e) ->
           Rect.x (Enemy.rect e') = Rect.x (Enemy.rect e) - py_round (Enemy.speed e) /\
           Enemy.dir e' = -1) /\
        (Rect.centerx (Enemy.rect e) <= Rect.centerx player_rect ->
           Rect.x (Enemy.rect e') = Rect.x (Enemy.rect e) + py_round (Enemy.speed e) /\
           Enemy.dir e' = 1)) /\
     (Enemy.aggro e' = false ->
        Rect.x (Enemy.rect e') = Rect.x (Enemy.rect e) /\ Enemy.dir e' = Enemy.dir e)) /\
  (probes_pass platforms e = false ->
     Rect.x (Enemy.rect e') = Rect.x (Enemy.rect e) /\
     Enemy.dir e' = Enemy.dir e * -1 /\
     Enemy.aggro e' = Enemy.aggro e).
Proof.
  intros Ht. cbv zeta.
  destruct (update_chaser aim new_timer platforms player_rect bs e Ht)
    as (Hx & Hd & Ha & _).
  rewrite Hx, Hd, Ha. clear Hx Hd Ha.
  split; [intros Hag; apply update_walk_aggro_sticky; assumption|].
  unfold probes_pass, in_chase_range, Enemy.update_walk. rewrite Ht.
  split; [|split].
  - intros steps Hag. apply chase_run_aggro; assumption.
  - intros Hp. apply andb_true_iff in Hp. destruct Hp as [Hg Hw].
    apply negb_true_iff in Hw. rewrite Hg, Hw. cbn [negb orb].
    split; [|split].
    + intros Hr. rewrite Hr. break_if; reflexivity.
    + intros Hag. split; intros Hc.
      * replace (Rect.centerx player_rect <? Rect.centerx (Enemy.rect e)) with true in *
          by (symmetry; apply Z.ltb_lt; lia).
        destruct (if Z.abs _ <? 400 then true else Enemy.aggro e);
          [cbn; split; [lia|reflexivity]|discriminate].
      * replace (Rect.centerx player_rect <? Rect.centerx (Enemy.rect e)) with false in *
          by (symmetry; apply Z.ltb_ge; lia).
        destruct (if Z.abs _ <? 400 then true else Enemy.aggro e);
          [cbn; split; reflexivity|discriminate].
    + intros Hag.
      destruct (if Z.abs _ <? 400 then true else Enemy.aggro e).
      * destruct (Rect.centerx player_rect <? Rect.centerx (Enemy.rect e));
          discriminate.
      * cbn. split; reflexivity.
  - intros Hp. apply andb_false_iff in Hp.
    assert (Hflip : negb (Enemy.ground_hit platforms e) || Enemy.wall_hit platforms e = true).
    { destruct Hp as [Hg|Hw]; [rewrite Hg; reflexivity|].
      apply negb_false_iff in Hw. rewrite Hw. apply orb_true_r. }
    rewrite Hflip. cbn. repeat split; reflexivity.
Qed.

(** C4 as stated fails: at the end of the tile the ground probe finds
    nothing, so the chaser, although the player is 99 pixels away, neither
    becomes aggro nor, when already aggro, moves toward the player: it stays
    where it is and turns away. *)
Lemma chaser_on_ledge_flips :
  in_chase_range left_player_rect (chaser_at 98 false) = true /\
  Enemy.aggro
    (fst (Enemy.update no_aim 60 [corner_tile] left_player_rect [] (chaser_at 98 false)))
    = false /\
  fst (Enemy.update no_aim 60 [corner_tile] left_player_rect [] (chaser_at 98 true))
    = Enemy.mk (Rect.mk 98 56 36 40) chaser 1 1 true 60 0.
Proof. repeat split; vm_compute; reflexivity. Qed.

Lemma chaser_aggro_and_probes_witness :
  Enemy.aggro
    (fst (Enemy.update no_aim 60 [corner_tile] left_player_rect [] (chaser_at 110 false)))
    = true /\
  Rect.x (Enemy.rect
    (fst (Enemy.update no_aim 60 [corner_tile] left_player_rect [] (chaser_at 110 false))))
    = 109.
Proof.
  pose proof (chaser_aggro_and_probes no_aim 60 [corner_tile] left_player_rect []
                (chaser_at 110 false) eq_refl) as H.
  cbv zeta in H. destruct H as (_ & _ & Hpass & _).
  destruct (Hpass eq_refl) as (Hrange & Hmove & _).
  pose proof (Hrange eq_refl) as Hag.
  split; [exact Hag|].
  destruct (Hmove Hag) as (Hleft & _).
  destruct (Hleft ltac:(vm_compute; reflexivity)) as (Hx & _).
  exact Hx.
Defined.

(** ** Checkpoints (C5) *)

Lemma checkpoint_touch_activated (r : Rect.t) (cp : Checkpoint.t) (rp : Z * Z) (t : Z) :
  Checkpoint.activated cp = true -> checkpoint_touch r cp rp t = (cp, rp, t).
Proof.
  intros Ha. unfold checkpoint_touch. rewrite Ha.
  destruct (Rect.colliderect r (Checkpoint.rect cp)); reflexivity.
Qed.

Lemma checkpoint_touch_untouched (r : Rect.t) (cp : Checkpoint.t) (rp : Z * Z) (t : Z) :
  Rect.colliderect r (Checkpoint.rect cp) = false -> checkpoint_touch r cp rp t = (cp, rp, t).
Proof. intros Hc. unfold checkpoint_touch. rewrite Hc. reflexivity. Qed.

Lemma checkpoint_pass_noop (r : Rect.t) (cps : list Checkpoint.t) (rp : Z * Z) (t : Z) :
  Forall (fun cp => Rect.colliderect r (Checkpoint.rect cp) = true ->
                    Checkpoint.activated cp = true) cps ->
  checkpoint_pass r cps rp t = (cps, rp, t).
Proof.
  induction 1 as [|cp cps Hcp _ IH]; cbn [checkpoint_pass]; [reflexivity|].
  assert (checkpoint_touch r cp rp t = (cp, rp, t)) as ->.
  { destruct (Rect.colliderect r (Checkpoint.rect cp)) eqn:Hc.
    - apply checkpoint_touch_activated, Hcp. reflexivity.
    - apply checkpoint_touch_untouched, Hc. }
  rewrite IH. reflexivity.
Qed.

Lemma touch_many_noop (rects : list Rect.t) (cps : list Checkpoint.t) (rp : Z * Z) (t : Z) :
  Forall (fun cp => Checkpoint.activated cp = true) cps ->
  touch_many rects cps rp t = (cps, rp, t).
Proof.
  intros Hall. induction rects as [|r rects IH]; cbn [touch_many]; [reflexivity|].
  rewrite checkpoint_pass_noop; [exact IH|].
  eapply Forall_impl; [|exact Hall]. cbv beta. intros cp Ha _. exact Ha.
Qed.

Lemma checkpoint_touch_kept (r : Rect.t) (cp : Checkpoint.t) (rp : Z * Z) (t : Z) :
  checkpoint_kept cp (fst (fst (checkpoint_touch r cp rp t))).
Proof.
  unfold checkpoint_touch, checkpoint_kept.
  destruct (Rect.colliderect r (Checkpoint.rect cp));
    [destruct (Checkpoint.activated cp) eqn:Ha|]; cbn;
    repeat split; intros; try reflexivity; try assumption; congruence.
Qed.

Lemma checkpoint_pass_kept (r : Rect.t) (cps : list Checkpoint.t) (rp : Z * Z) (t : Z) :
  Forall2 checkpoint_kept cps (fst (fst (checkpoint_pass r cps rp t))).
Proof.
  revert rp t. induction cps as [|cp cps IH]; intros rp t; cbn [checkpoint_pass].
  - constructor.
  - pose proof (checkpoint_touch_kept r cp rp t) as Hk.
    destruct (checkpoint_touch r cp rp t) as [[cp' rp'] t']. cbn [fst] in Hk.
    specialize (IH rp' t').
    destruct (checkpoint_pass r cps rp' t') as [[cps' rp''] t'']. cbn [fst] in *.
    constructor; assumption.
Qed.

Lemma checkpoint_kept_refl (cps : list Checkpoint.t) : Forall2 checkpoint_kept cps cps.
Proof.
  induction cps as [|cp cps IH]; constructor; [|exact IH].
  unfold checkpoint_kept. repeat split; auto.
Qed.

Lemma play_frame_checkpoints (inp : Input) (pz : bool) (w : World) :
  Forall2 checkpoint_kept (checkpoints w) (checkpoints (play_frame inp pz w)).
Proof.
  unfold play_frame.
  destruct (player_pass inp w) as [[p bs] go].
  destruct (enemies_update _ _ _ _ _ _ _) as [es ebs].
  destruct (bullet_hits _ _ _) as [[bs' es'] score].
  destruct (enemy_bullet_hits _ _ _ _) as [[ebs' lives] go2].
  destruct (touch_enemy _ _ _) as [p3 go3].
  destruct (collect _ _ _) as [cs score'].
  match goal with
  | |- context [checkpoint_pass ?r ?c ?rp ?t] =>
      pose proof (checkpoint_pass_kept r c rp t) as Hk;
      destruct (checkpoint_pass r c rp t) as [[cps rp'] timer]
  end.
  destruct (level_clear _ _ _ _) as [cool timer'].
  cbn in *. exact Hk.
Qed.

Lemma frame_checkpoints (inp : Input) (d : Disk) (w w' : World) :
  frame inp d w = Continues w' -> level_num w' = level_num w ->
  Forall2 checkpoint_kept (checkpoints w) (checkpoints w').
Proof.
  unfold frame.
  destruct (poll_events _ _ _ _ _) as [pz| |]; try discriminate.
  destruct (pz || game_over w || win w || (0 <? level_transition_timer w)).
  - unfold frozen_frame. intros H.
    repeat match type of H with
           | context [if ?b then _ else _] => destruct b
           | context [match ?o with Some _ => _ | None => _ end] => destruct o as [[lv st]|]
           end;
      inversion H; subst; cbn; intros Hl; try lia; apply checkpoint_kept_refl.
  - intros H _. inversion H; subst. apply play_frame_checkpoints.
Qed.

Lemma activate_activated (cp : Checkpoint.t) :
  Checkpoint.activated cp = true -> Checkpoint.activate cp = cp.
Proof. destruct cp as [r a rp]. cbn. intros ->. reflexivity. Qed.

(** The checkpoints after a pass: every touched one activated, in place. *)
Lemma checkpoint_pass_map (r : Rect.t) (cps : list Checkpoint.t) (rp : Z * Z) (t : Z) :
  fst (fst (checkpoint_pass r cps rp t)) =
  map (fun cp => if Rect.colliderect r (Checkpoint.rect cp)
                 then Checkpoint.activate cp else cp) cps.
Proof.
  revert rp t. induction cps as [|cp cps IH]; intros rp t; cbn [checkpoint_pass map];
    [reflexivity|].
  assert (Hhead : fst (fst (checkpoint_touch r cp rp t)) =
                  if Rect.colliderect r (Checkpoint.rect cp)
                  then Checkpoint.activate cp else cp).
  { unfold checkpoint_touch.
    destruct (Rect.colliderect r (Checkpoint.rect cp)); [|reflexivity].
    destruct (Checkpoint.activated cp) eqn:Ha; cbn [negb fst].
    - symmetry. apply activate_activated, Ha.
    - reflexivity. }
  destruct (checkpoint_touch r cp rp t) as [[cp' rp'] t']. cbn [fst] in Hhead.
  specialize (IH rp' t').
  destruct (checkpoint_pass r cps rp' t') as [[cps' rp''] t'']. cbn [fst] in *.
  rewrite Hhead, IH. reflexivity.
Qed.

(** The respawn point and the countdown after a pass: as before when no
    checkpoint is touched for the first time, otherwise those of a first
    touch. *)
Lemma checkpoint_pass_outcome (r : Rect.t) (cps : list Checkpoint.t) (rp : Z * Z)
    (t : Z) :
  (Forall (fun cp => Rect.colliderect r (Checkpoint.rect cp) = true ->
                     Checkpoint.activated cp = true) cps /\
   snd (fst (checkpoint_pass r cps rp t)) = rp /\
   snd (checkpoint_pass r cps rp t) = t) \/
  (exists cp0, In cp0 cps /\ Checkpoint.activated cp0 = false /\
               Rect.colliderect r (Checkpoint.rect cp0) = true /\
               snd (fst (checkpoint_pass r cps rp t)) = Checkpoint.respawn_point cp0 /\
               snd (checkpoint_pass r cps rp t) = TRANSITION_FRAMES).
Proof.
  revert rp t. induction cps as [|cp cps IH]; intros rp t; cbn [checkpoint_pass].
  - left. split; [constructor|split; reflexivity].
  - unfold checkpoint_touch.
    destruct (Rect.colliderect r (Checkpoint.rect cp)) eqn:Hc;
      [destruct (Checkpoint.activated cp) eqn:Ha|]; cbn [negb].
    + destruct (IH rp t) as [(Hall & Hrp & Ht)|(cp0 & Hin & Ha0 & Hc0 & Hrp & Ht)];
        destruct (checkpoint_pass r cps rp t) as [[cps' rp'] t']; cbn [fst snd] in *.
      * left. split; [constructor; [intros _; exact Ha|exact Hall]|split; assumption].
      * right. exists cp0. split; [right; exact Hin|]. repeat split; assumption.
    + destruct (IH (Checkpoint.respawn_point cp) TRANSITION_FRAMES)
        as [(Hall & Hrp & Ht)|(cp0 & Hin & Ha0 & Hc0 & Hrp & Ht)];
        destruct (checkpoint_pass r cps (Checkpoint.respawn_point cp) TRANSITION_FRAMES)
          as [[cps' rp'] t']; cbn [fst snd] in *.
      * right. exists cp. split; [left; reflexivity|]. repeat split; assumption.
      * right. exists cp0. split; [right; exact Hin|]. repeat split; assumption.
    + destruct (IH rp t) as [(Hall & Hrp & Ht)|(cp0 & Hin & Ha0 & Hc0 & Hrp & Ht)];
        destruct (checkpoint_pass r cps rp t) as [[cps' rp'] t']; cbn [fst snd] in *.
      * left. split; [constructor; [congruence|exact Hall]|split; assumption].
      * right. exists cp0. split; [right; exact Hin|]. repeat split; assumption.
Qed.

Lemma checkpoint_pass_first_touch (r : Rect.t) (cps : list Checkpoint.t) (rp : Z * Z)
    (t : Z) (cp : Checkpoint.t) :
  In cp cps -> Checkpoint.activated cp = false ->
  Rect.colliderect r (Checkpoint.rect cp) = true ->
  In (Checkpoint.activate cp) (fst (fst (checkpoint_pass r cps rp t))) /\
  snd (checkpoint_pass r cps rp t) = TRANSITION_FRAMES /\
  (exists cp0, In cp0 cps /\ Checkpoint.activated cp0 = false /\
               Rect.colliderect r (Checkpoint.rect cp0) = true /\
               snd (fst (checkpoint_pass r cps rp t)) = Checkpoint.respawn_point cp0) /\
  (cps = [cp] ->
   checkpoint_pass r cps rp t
     = ([Checkpoint.activate cp], Checkpoint.respawn_point cp, TRANSITION_FRAMES)).
Proof.
  intros Hin Ha Hc. split.
  { rewrite checkpoint_pass_map. apply in_map_iff. exists cp.
    rewrite Hc. split; [reflexivity|exact Hin]. }
  destruct (checkpoint_pass_outcome r cps rp t)
    as [(Hall & _ & _)|(cp0 & Hin0 & Ha0 & Hc0 & Hrp & Ht)].
  { rewrite Forall_forall in Hall. specialize (Hall cp Hin Hc). congruence. }
  split; [exact Ht|]. split.
  { exists cp0. repeat split; assumption. }
  intros ->. cbn [checkpoint_pass]. unfold checkpoint_touch. rewrite Hc, Ha. reflexivity.
Qed.

(** The checkpoint stage of a simulated frame works on the rectangle the
    player ends the frame with. *)
Lemma play_frame_checkpoint_stage (inp : Input) (pz : bool) (w : World) :
  let w' := play_frame inp pz w in
  let pass := checkpoint_pass (Player.rect (player w')) (checkpoints w)
                (respawn_point w) (level_transition_timer w) in
  checkpoints w' = fst (fst pass) /\ respawn_point w' = snd (fst pass) /\
  (snd pass = TRANSITION_FRAMES -> level_transition_timer w' = TRANSITION_FRAMES).
Proof.
  cbv zeta. unfold play_frame.
  destruct (player_pass inp w) as [[p bs] go].
  destruct (enemies_update _ _ _ _ _ _ _) as [es ebs].
  destruct (bullet_hits _ _ _) as [[bs' es'] score].
  destruct (enemy_bullet_hits _ _ _ _) as [[ebs' lives] go2].
  destruct (touch_enemy _ _ _) as [p3 go3].
  destruct (collect _ _ _) as [cs score'].
  cbn [Player.rect Player.set_score].
  destruct (checkpoint_pass _ _ _ _) as [[cps rp'] timer] eqn:Hpass.
  unfold level_clear. cbv zeta.
  destruct (_ && (timer =? 0)) eqn:Hfire.
  - apply andb_true_iff in Hfire. destruct Hfire as [_ Hz]. apply Z.eqb_eq in Hz.
    destruct (CLEAR_FRAMES <? level_clear_cool w + 1);
      cbn; rewrite Hpass; cbn; repeat split; intros Ht; subst; discriminate.
  - destruct (negb _); cbn; rewrite Hpass; cbn; repeat split; intros Ht; exact Ht.
Qed.

(** C5.  The loop body leaves an activated checkpoint, the active respawn
    point and the transition timer as they are, touched or not; a pass over
    checkpoints of which every touched one is activated changes nothing, and
    so do any number of passes over activated checkpoints.  A first touch
    activates the checkpoint, makes its respawn point the active one and
    starts the countdown in the same step: in the loop body, in the pass over
    the checkpoints, which leaves every touched checkpoint activated, and in
    the simulated frame of the game loop, where the touch is decided on the
    rectangle the player ends the frame with.  Within a level every frame
    keeps each checkpoint in place and, once activated, activated. *)
Theorem checkpoint_activation_idempotent :
  (forall r cp rp t,
     Checkpoint.activated cp = true -> checkpoint_touch r cp rp t = (cp, rp, t)) /\
  (forall r cps rp t,
     Forall (fun cp => Rect.colliderect r (Checkpoint.rect cp) = true ->
                       Checkpoint.activated cp = true) cps ->
     checkpoint_pass r cps rp t = (cps, rp, t)) /\
  (forall rects cps rp t,
     Forall (fun cp => Checkpoint.activated cp = true) cps ->
     touch_many rects cps rp t = (cps, rp, t)) /\
  (forall r cp rp t,
     Checkpoint.activated cp = false ->
     Rect.colliderect r (Checkpoint.rect cp) = true ->
     checkpoint_touch r cp rp t
       = (Checkpoint.activate cp, Checkpoint.respawn_point cp, TRANSITION_FRAMES) /\
     Checkpoint.activated (Checkpoint.activate cp) = true /\
     Checkpoint.respawn_point (Checkpoint.activate cp) = Checkpoint.respawn_point cp) /\
  (forall r cps rp t,
     Forall2 checkpoint_kept cps (fst (fst (checkpoint_pass r cps rp t)))) /\
  (forall inp d w w',
     frame inp d w = Continues w' -> level_num w' = level_num w ->
     Forall2 checkpoint_kept (checkpoints w) (checkpoints w')) /\
  (* the first touch, in the pass over the checkpoints *)
  (forall r cps rp t,
     fst (fst (checkpoint_pass r cps rp t)) =
     map (fun cp => if Rect.colliderect r (Checkpoint.rect cp)
                    then Checkpoint.activate cp else cp) cps) /\
  (forall r cps rp t cp,
     In cp cps -> Checkpoint.activated cp = false ->
     Rect.colliderect r (Checkpoint.rect cp) = true ->
     In (Checkpoint.activate cp) (fst (fst (checkpoint_pass r cps rp t))) /\
     snd (checkpoint_pass r cps rp t) = TRANSITION_FRAMES /\
     (exists cp0, In cp0 cps /\ Checkpoint.activated cp0 = false /\
                  Rect.colliderect r (Checkpoint.rect cp0) = true /\
                  snd (fst (checkpoint_pass r cps rp t))
                    = Checkpoint.respawn_point cp0) /\
     (cps = [cp] ->
      checkpoint_pass r cps rp t
        = ([Checkpoint.activate cp], Checkpoint.respawn_point cp, TRANSITION_FRAMES))) /\
  (* the first touch, in a simulated frame of the loop *)
  (forall inp d w w' cp,
     simulated inp w = true -> frame inp d w = Continues w' ->
     In cp (checkpoints w) -> Checkpoint.activated cp = false ->
     Rect.colliderect (Player.rect (player w')) (Checkpoint.rect cp) = true ->
     In (Checkpoint.activate cp) (checkpoints w') /\
     level_transition_timer w' = TRANSITION_FRAMES /\
     (exists cp0, In cp0 (checkpoints w) /\ Checkpoint.activated cp0 = false /\
                  Rect.colliderect (Player.rect (player w')) (Checkpoint.rect cp0) = true /\
                  respawn_point w' = Checkpoint.respawn_point cp0) /\
     (checkpoints w = [cp] ->
      checkpoints w' = [Checkpoint.activate cp] /\
      respawn_point w' = Checkpoint.respawn_point cp)).
Proof.
  split; [exact checkpoint_touch_activated|].
  split; [exact checkpoint_pass_noop|].
  split; [exact touch_many_noop|].
  split.
  { intros r cp rp t Ha Hc. unfold checkpoint_touch. rewrite Hc, Ha.
    repeat split; reflexivity. }
  split; [exact checkpoint_pass_kept|].
  split; [exact frame_checkpoints|].
  split; [exact checkpoint_pass_map|].
  split; [exact checkpoint_pass_first_touch|].
  intros inp d w w' cp Hsim Hf Hin Ha Hc.
  assert (Hplay : exists pz, w' = play_frame inp pz w).
  { unfold simulated in Hsim. unfold frame in Hf.
    destruct (poll_events _ _ _ _ _) as [pz| |]; try discriminate.
    apply negb_true_iff in Hsim. rewrite Hsim in Hf. exists pz. congruence. }
  destruct Hplay as (pz & ->).
  destruct (play_frame_checkpoint_stage inp pz w) as (Hcps & Hrp & Htimer).
  cbv zeta in Hcps, Hrp, Htimer.
  destruct (checkpoint_pass_first_touch
              (Player.rect (player (play_frame inp pz w))) (checkpoints w)
              (respawn_point w) (level_transition_timer w) cp Hin Ha Hc)
    as (Hact & Ht & (cp0 & Hin0 & Ha0 & Hc0 & Hrp0) & Hone).
  rewrite Hcps, Hrp. split; [exact Hact|]. split; [exact (Htimer Ht)|].
  split.
  { exists cp0. repeat split; assumption. }
  intros Hsingle. rewrite (Hone Hsingle). split; reflexivity.
Qed.

Lemma checkpoint_activation_idempotent_witness :
  checkpoint_touch at_flag_rect corner_flag (0, 0) 0
    = (Checkpoint.activate corner_flag, (120, 68), 54) /\
  touch_many [at_flag_rect; at_flag_rect; at_flag_rect]
    [Checkpoint.activate corner_flag] (120, 68) 7
    = ([Checkpoint.activate corner_flag], (120, 68), 7) /\
  checkpoint_pass at_flag_rect [corner_flag] (0, 0) 0
    = ([Checkpoint.activate corner_flag], (120, 68), 54).
Proof.
  destruct checkpoint_activation_idempotent
    as (_ & _ & Hmany & Hfirst & _ & _ & _ & Hpass & _).
  split; [|split].
  - exact (proj1 (Hfirst at_flag_rect corner_flag (0, 0) 0 eq_refl eq_refl)).
  - apply Hmany. constructor; [reflexivity|constructor].
  - exact (proj2 (proj2 (proj2
             (Hpass at_flag_rect [corner_flag] (0, 0) 0 corner_flag
                (or_introl eq_refl) eq_refl eq_refl))) eq_refl).
Defined.

(** ** Level transition (C7) *)

Lemma poll_events_quiet (evs : list Event) (go wn : bool) (t : Z) (pz : bool) :
  requests_exit evs = false ->
  exists pz', poll_events evs go wn t pz = Proceed pz' /\
              (negb go && negb wn && (t =? 0) = false -> pz' = pz).
Proof.
  revert pz. induction evs as [|e evs IH]; intros pz Hq; cbn [poll_events].
  - exists pz. split; [reflexivity|auto].
  - cbn [requests_exit existsb] in Hq. apply orb_false_iff in Hq. destruct Hq as [He Hq].
    destruct e as [|k|]; [discriminate| |apply IH, Hq].
    destruct k; try discriminate;
      try (apply IH, Hq).
    destruct (IH (if negb go && negb wn && (t =? 0) then negb pz else pz) Hq)
      as (pz' & Hp & Hsame).
    exists pz'. split; [exact Hp|].
    intros Hoff. rewrite (Hsame Hoff), Hoff. reflexivity.
Qed.

Lemma add_extras_length (rng : Rng) (k : nat) (lw lh : Z) (speed : Q) (es : list Enemy.t) :
  List.length (LevelManager.add_extras rng k lw lh speed es) = (List.length es + k)%nat.
Proof.
  revert es. induction k as [|k IH]; intros es; cbn [LevelManager.add_extras].
  - lia.
  - rewrite IH, length_app. cbn [List.length]. lia.
Qed.

Lemma build_level_some (rng : Rng) (template : list string) :
  template <> [] -> exists lv, build_level_from_template rng template = Some lv.
Proof.
  destruct template as [|row0 rows]; [congruence|]. intros _.
  unfold build_level_from_template. eexists. reflexivity.
Qed.

(** [load_level] never fails on the authored templates, returns the settings
    of the stage and at least its enemy count. *)
Lemma load_level_some (rng : Rng) (n : Z) :
  exists lv,
    LevelManager.load_level rng n = Some (lv, LevelManager.settings_for n) /\
    enemy_count (LevelManager.settings_for n) <= Z.of_nat (List.length (lv_enemies lv)).
Proof.
  unfold LevelManager.load_level. cbv zeta.
  set (k := Z.to_nat ((n - 1) mod Z.of_nat (List.length LEVEL_TEMPLATES))).
  assert (Hk : (k < 3)%nat).
  { subst k. change (Z.of_nat (List.length LEVEL_TEMPLATES)) with 3.
    pose proof (Z.mod_pos_bound (n - 1) 3 ltac:(lia)). lia. }
  assert (Hne : nth k LEVEL_TEMPLATES [] <> []).
  { destruct k as [|[|[|k]]]; [cbn; discriminate ..|lia]. }
  destruct (build_level_some rng _ Hne) as (lv & Hlv). rewrite Hlv.
  eexists. split; [reflexivity|].
  cbn [lv_enemies]. rewrite add_extras_length. lia.
Qed.

(** ** Level-clear fallback (C8) *)

Lemma checkpoint_pass_cases (r : Rect.t) (cps : list Checkpoint.t) (rp : Z * Z) (t : Z) :
  checkpoint_pass r cps rp t = (cps, rp, t) \/
  (fst (fst (checkpoint_pass r cps rp t)) <> cps /\
   snd (checkpoint_pass r cps rp t) = TRANSITION_FRAMES).
Proof.
  revert rp t. induction cps as [|cp cps IH]; intros rp t; cbn [checkpoint_pass].
  - left. reflexivity.
  - unfold checkpoint_touch.
    destruct (Rect.colliderect r (Checkpoint.rect cp));
      [destruct (Checkpoint.activated cp) eqn:Ha|]; cbn [negb].
    + destruct (IH rp t) as [E|[Hne Ht]].
      * left. rewrite E. reflexivity.
      * right. destruct (checkpoint_pass r cps rp t) as [[cps' rp'] t'].
        cbn [fst snd] in *. split; [congruence|exact Ht].
    + right.
      destruct (IH (Checkpoint.respawn_point cp) TRANSITION_FRAMES) as [E|[Hne Ht]].
      * rewrite E. cbn [fst snd]. split; [|reflexivity].
        intros Heq. assert (H1 : Checkpoint.activate cp = cp) by congruence.
        apply (f_equal Checkpoint.activated) in H1. cbn in H1. congruence.
      * destruct (checkpoint_pass r cps _ _) as [[cps' rp'] t'].
        cbn [fst snd] in *. split; [|exact Ht].
        intros Heq. assert (H1 : Checkpoint.activate cp = cp) by congruence.
        apply (f_equal Checkpoint.activated) in H1. cbn in H1. congruence.
    + destruct (IH rp t) as [E|[Hne Ht]].
      * left. rewrite E. reflexivity.
      * right. destruct (checkpoint_pass r cps rp t) as [[cps' rp'] t'].
        cbn [fst snd] in *. split; [congruence|exact Ht].
Qed.

Lemma level_clear_spec (es : list Enemy.t) (cs : list Rect.t) (cool timer : Z) :
  let cleared :=
    (Z.of_nat (List.length es) =? 0) && (Z.of_nat (List.length cs) =? 0) in
  let res := level_clear es cs cool timer in
  (cleared = false -> fst res = 0 /\ snd res = timer) /\
  (cleared = true -> timer <> 0 -> fst res = cool /\ snd res = timer) /\
  (cleared = true -> timer = 0 -> CLEAR_FRAMES <= cool ->
     fst res = 0 /\ snd res = TRANSITION_FRAMES) /\
  (cleared = true -> timer = 0 -> cool < CLEAR_FRAMES ->
     fst res = cool + 1 /\ snd res = 0).
Proof.
  cbv zeta. unfold level_clear.
  destruct ((Z.of_nat (List.length es) =? 0) && (Z.of_nat (List.length cs) =? 0));
    cbn [andb negb].
  - destruct (timer =? 0) eqn:Ht0; [apply Z.eqb_eq in Ht0|apply Z.eqb_neq in Ht0].
    + destruct (CLEAR_FRAMES <? cool + 1) eqn:Hth;
        [apply Z.ltb_lt in Hth|apply Z.ltb_ge in Hth]; cbn [fst snd];
        repeat split; intros; try discriminate; try lia.
    + cbn [fst snd]. repeat split; intros; try discriminate; try lia.
  - cbn [fst snd]. repeat split; intros; try discriminate; try lia.
Qed.

(** What one simulated frame does to the clear counter and the countdown. *)
Lemma play_frame_clear (inp : Input) (pz : bool) (w : World) :
  let w' := play_frame inp pz w in
  (is_cleared w' = false -> level_clear_cool w' = 0) /\
  (level_clear_cool w' = 0 \/ level_clear_cool w' = level_clear_cool w \/
   level_clear_cool w' = level_clear_cool w + 1) /\
  (level_transition_timer w' <> level_transition_timer w ->
     checkpoints w' <> checkpoints w \/
     (CLEAR_FRAMES <= level_clear_cool w /\ is_cleared w' = true /\
      level_transition_timer w = 0 /\
      level_clear_cool w' = 0 /\ level_transition_timer w' = TRANSITION_FRAMES)) /\
  (is_cleared w' = true -> checkpoints w' = checkpoints w ->
   level_transition_timer w = 0 ->
     (CLEAR_FRAMES <= level_clear_cool w ->
        level_transition_timer w' = TRANSITION_FRAMES /\ level_clear_cool w' = 0) /\
     (level_clear_cool w < CLEAR_FRAMES ->
        level_transition_timer w' = 0 /\ level_clear_cool w' = level_clear_cool w + 1)).
Proof.
  cbv zeta. unfold play_frame, is_cleared.
  destruct (player_pass inp w) as [[p bs] go].
  destruct (enemies_update _ _ _ _ _ _ _) as [es ebs].
  destruct (bullet_hits _ _ _) as [[bs' es'] score].
  destruct (enemy_bullet_hits _ _ _ _) as [[ebs' lives] go2].
  destruct (touch_enemy _ _ _) as [p3 go3].
  destruct (collect _ _ _) as [cs score'].
  match goal with
  | |- context [checkpoint_pass ?r ?c ?rp ?t] =>
      pose proof (checkpoint_pass_cases r c rp t) as Hcp;
      destruct (checkpoint_pass r c rp t) as [[cps rp'] timer]
  end.
  cbn [fst snd] in Hcp.
  assert (Htimer : (timer = level_transition_timer w /\ cps = checkpoints w) \/
                   (cps <> checkpoints w /\ timer = TRANSITION_FRAMES)).
  { destruct Hcp as [E|[Hne Ht]];
      [left; inversion E; split; reflexivity|right; split; assumption]. }
  clear Hcp.
  pose proof (level_clear_spec es' cs (level_clear_cool w) timer) as Hlc.
  cbv zeta in Hlc.
  destruct (level_clear es' cs (level_clear_cool w) timer) as [cool' timer'].
  cbn [fst snd] in Hlc.
  cbn [enemies collectibles level_clear_cool level_transition_timer checkpoints].
  destruct Hlc as (Hno & Hbusy & Hfire & Hcount).
  unfold CLEAR_FRAMES, TRANSITION_FRAMES in *.
  destruct ((Z.of_nat (List.length es') =? 0) && (Z.of_nat (List.length cs) =? 0)).
  - destruct (Z.eq_dec timer 0) as [Ht0|Ht0].
    + destruct (Z_le_gt_dec 72 (level_clear_cool w)) as [Hc|Hc].
      * destruct (Hfire eq_refl Ht0 Hc) as [-> ->].
        destruct Htimer as [[Ht Hcps]|[Hcps Ht]]; [|lia]. subst.
        repeat split; intros; try discriminate; try lia; auto.
      * destruct (Hcount eq_refl Ht0 ltac:(lia)) as [-> ->].
        destruct Htimer as [[Ht Hcps]|[Hcps Ht]]; [|lia]. subst.
        repeat split; intros; try discriminate; try lia; auto.
    + destruct (Hbusy eq_refl Ht0) as [-> ->].
      destruct Htimer as [[Ht Hcps]|[Hcps Ht]]; subst;
        repeat split; intros; try discriminate; try lia; auto; try contradiction.
  - destruct (Hno eq_refl) as [-> ->].
    destruct Htimer as [[Ht Hcps]|[Hcps Ht]]; subst;
      repeat split; intros; try discriminate; try lia; auto; try contradiction.
Qed.

Lemma frame_simulated (inp : Input) (d : Disk) (w : World) :
  simulated inp w = true ->
  exists pz, frame inp d w = Continues (play_frame inp pz w).
Proof.
  unfold simulated, frame.
  destruct (poll_events _ _ _ _ _) as [pz| |]; try discriminate.
  intros H. apply negb_true_iff in H. rewrite H. exists pz. reflexivity.
Qed.

Lemma frame_frozen_cool (inp : Input) (d : Disk) (w w' : World) :
  simulated inp w = false -> frame inp d w = Continues w' ->
  level_clear_cool w' = level_clear_cool w.
Proof.
  unfold simulated, frame.
  destruct (poll_events _ _ _ _ _) as [pz| |]; try discriminate.
  intros H. apply negb_false_iff in H. rewrite H. unfold frozen_frame. intros Hf.
  repeat match type of Hf with
         | context [if ?b then _ else _] => destruct b
         | context [match ?o with Some _ => _ | None => _ end] => destruct o as [[lv st]|]
         end;
    inversion Hf; subst; reflexivity.
Qed.

(** The clear counter never exceeds the current streak of cleared frames. *)
Lemma cool_below_streak (inputs : list Input) (d : Disk) (w w' : World) (acc : Z) :
  0 <= level_clear_cool w <= acc ->
  run_frames inputs d w = Continues w' ->
  0 <= level_clear_cool w' <= clear_streak inputs d w acc.
Proof.
  revert w acc. induction inputs as [|inp rest IH]; intros w acc Hb Hrun;
    cbn [run_frames clear_streak] in *.
  - inversion Hrun; subst. exact Hb.
  - destruct (frame inp d w) as [w1| | |] eqn:Hf; try discriminate.
    apply (IH w1); [|exact Hrun].
    destruct (simulated inp w) eqn:Hs.
    + destruct (frame_simulated inp d w Hs) as (pz & Hpz).
      rewrite Hpz in Hf. inversion Hf; subst w1.
      destruct (play_frame_clear inp pz w) as (Hreset & Hstep & _).
      destruct (is_cleared (play_frame inp pz w)); [lia|].
      rewrite (Hreset eq_refl). lia.
    + rewrite (frame_frozen_cool inp d w w1 Hs Hf). exact Hb.
Qed.

Lemma clear_streak_last (inputs : list Input) (inp : Input) (d : Disk)
    (w w1 w2 : World) (acc : Z) :
  run_frames inputs d w = Continues w1 -> frame inp d w1 = Continues w2 ->
  clear_streak (inputs ++ [inp]) d w acc =
  if simulated inp w1
  then (if is_cleared w2 then clear_streak inputs d w acc + 1 else 0)
  else clear_streak inputs d w acc.
Proof.
  revert w acc. induction inputs as [|i rest IH]; intros w acc Hrun Hf;
    cbn [run_frames clear_streak app] in *.
  - inversion Hrun; subst w1. rewrite Hf. reflexivity.
  - destruct (frame i d w) as [wi| | |] eqn:Hi; try discriminate.
    apply IH; assumption.
Qed.

(** C8.  In a simulated frame: if an enemy or a collectible is left at the
    end of the frame the clear counter is reset to zero; the countdown
    changes only if a checkpoint was activated or if the level is cleared,
    no countdown is running and the counter had already reached
    [FPS * 1.2 = 72], that is on the 73rd cleared frame; and on a cleared
    frame without checkpoint touch the counter is incremented until then.
    Over a session the counter never exceeds the number of consecutive
    simulated frames that ended cleared, so the fallback starts the countdown
    only when more than 72 such frames have passed in a row. *)
Theorem level_clear_is_debounced :
  (forall inp d w w',
     simulated inp w = true -> frame inp d w = Continues w' ->
     (is_cleared w' = false -> level_clear_cool w' = 0) /\
     (level_transition_timer w' <> level_transition_timer w ->
        checkpoints w' <> checkpoints w \/
        (CLEAR_FRAMES <= level_clear_cool w /\ is_cleared w' = true /\
         level_transition_timer w = 0 /\
         level_clear_cool w' = 0 /\ level_transition_timer w' = TRANSITION_FRAMES)) /\
     (is_cleared w' = true -> checkpoints w' = checkpoints w ->
      level_transition_timer w = 0 ->
        (CLEAR_FRAMES <= level_clear_cool w ->
           level_transition_timer w' = TRANSITION_FRAMES /\ level_clear_cool w' = 0) /\
        (level_clear_cool w < CLEAR_FRAMES ->
           level_transition_timer w' = 0 /\
           level_clear_cool w' = level_clear_cool w + 1))) /\
  (forall d rng inputs w,
     run_game d rng inputs = Continues w ->
     0 <= level_clear_cool w <= session_streak d rng inputs) /\
  (forall d rng inputs inp w w',
     run_game d rng inputs = Continues w ->
     simulated inp w = true -> frame inp d w = Continues w' ->
     level_transition_timer w' <> level_transition_timer w ->
     checkpoints w' = checkpoints w ->
     CLEAR_FRAMES < session_streak d rng (inputs ++ [inp])).
Proof.
  split; [|split].
  - intros inp d w w' Hs Hf.
    destruct (frame_simulated inp d w Hs) as (pz & Hpz).
    rewrite Hpz in Hf. inversion Hf; subst w'.
    destruct (play_frame_clear inp pz w) as (H1 & _ & H3 & H4).
    split; [exact H1|]. split; [exact H3|exact H4].
  - intros d rng inputs w. unfold run_game, session_streak.
    destruct (run_game_init d rng) as [w0|] eqn:Hinit; [|discriminate].
    intros Hrun. apply (cool_below_streak inputs d w0 w 0); [|exact Hrun].
    unfold run_game_init in Hinit.
    destruct (LevelManager.load_level rng 1) as [[lv st]|]; [|discriminate].
    inversion Hinit; subst. cbn. lia.
  - intros d rng inputs inp w w' Hrun Hs Hf Hchange Hcps.
    unfold run_game, session_streak in *.
    destruct (run_game_init d rng) as [w0|] eqn:Hinit; [|discriminate].
    assert (Hb : 0 <= level_clear_cool w <= clear_streak inputs d w0 0).
    { apply (cool_below_streak inputs d w0 w 0); [|exact Hrun].
      unfold run_game_init in Hinit.
      destruct (LevelManager.load_level rng 1) as [[lv st]|]; [|discriminate].
      inversion Hinit; subst. cbn. lia. }
    rewrite (clear_streak_last inputs inp d w0 w w' 0 Hrun Hf), Hs.
    destruct (frame_simulated inp d w Hs) as (pz & Hpz).
    rewrite Hpz in Hf. inversion Hf; subst w'.
    destruct (play_frame_clear inp pz w) as (_ & _ & H3 & _).
    destruct (H3 Hchange) as [Hne|(Hc & Hcl & _)]; [contradiction|].
    rewrite Hcl. lia.
Qed.

(** The scenario of a level without enemies and collectibles: the countdown
    has not started after 72 idle frames and starts in the 73rd. *)
Lemma cleared_level_auto_transitions :
  cleared_after 72 = Some (72, 0) /\ cleared_after 73 = Some (0, 54).
Proof. split; vm_compute; reflexivity. Qed.

Lemma level_clear_is_debounced_witness :
  exists w', frame idle_input None (cleared_world 72) = Continues w' /\
             level_transition_timer w' = 54 /\ level_clear_cool w' = 0.
Proof.
  eexists. split; [vm_compute; reflexivity|].
  refine (proj1 (proj2 (proj2 (proj1 level_clear_is_debounced idle_input None
                   (cleared_world 72) _ eq_refl _)) _ _ _) _).
  - vm_compute. reflexivity.
  - reflexivity.
  - reflexivity.
  - reflexivity.
  - vm_compute. discriminate.
Defined.

(** ** The checkpoint of a level (C9) *)

Lemma scan_char_platforms (rng : Rng) (r c : Z) (ch : ascii) (s : Scan) :
  sc_platforms (scan_char rng r c ch s) =
  sc_platforms s ++
    (if Ascii.eqb ch "#" then [Platform.__init__ (c * TILE) (r * TILE) TILE TILE] else []).
Proof.
  unfold scan_char. cbv zeta.
  destruct (Ascii.eqb ch "#"); [reflexivity|].
  repeat break_if; cbn; rewrite app_nil_r; reflexivity.
Qed.

Lemma scan_row_platforms (rng : Rng) (r c : Z) (row : list ascii) (s : Scan) :
  sc_platforms (scan_row rng r c row s) = sc_platforms s ++ tiles_of_row r c row.
Proof.
  revert c s. induction row as [|ch row IH]; intros c s; cbn [scan_row tiles_of_row].
  - rewrite app_nil_r. reflexivity.
  - rewrite IH, scan_char_platforms, app_assoc. reflexivity.
Qed.

(** The platform group of a level is the list of its tiles in row-major
    order. *)
Lemma scan_rows_platforms (rng : Rng) (r : Z) (rows : list string) (s : Scan) :
  sc_platforms (scan_rows rng r rows s) = sc_platforms s ++ tiles_of r rows.
Proof.
  revert r s. induction rows as [|row rows IH]; intros r s; cbn [scan_rows tiles_of].
  - rewrite app_nil_r. reflexivity.
  - rewrite IH, scan_row_platforms, app_assoc. reflexivity.
Qed.

Lemma tiles_of_row_nil (r c : Z) (row : list ascii) :
  tiles_of_row r c row = [] <-> existsb (fun ch => Ascii.eqb ch "#") row = false.
Proof.
  revert c. induction row as [|ch row IH]; intros c; cbn [tiles_of_row existsb].
  - split; reflexivity.
  - destruct (Ascii.eqb ch "#"); cbn [app orb].
    + split; discriminate.
    + apply IH.
Qed.

Lemma tiles_of_nil (r : Z) (rows : list string) :
  tiles_of r rows = [] <-> has_platform_tile rows = false.
Proof.
  unfold has_platform_tile. revert r.
  induction rows as [|row rows IH]; intros r; cbn [tiles_of existsb].
  - split; reflexivity.
  - rewrite orb_false_iff, <- (IH (r + 1)), <- (tiles_of_row_nil r 0).
    split.
    + intros H. apply app_eq_nil in H. exact H.
    + intros [-> ->]. reflexivity.
Qed.

Lemma key_lt_spec (a b : Platform.t) :
  key_lt a b = true <->
  Rect.left a < Rect.left b \/ (Rect.left a = Rect.left b /\ Rect.top b < Rect.top a).
Proof.
  unfold key_lt. rewrite orb_true_iff, andb_true_iff, !Z.ltb_lt, Z.eqb_eq. lia.
Qed.

Lemma py_max_fold (rest seen : list Platform.t) (best : Platform.t) :
  rightmost_highest (best :: seen) best ->
  rightmost_highest (best :: seen ++ rest)
    (fold_left (fun b p => if key_lt b p then p else b) rest best).
Proof.
  revert seen best. induction rest as [|p rest IH]; intros seen best Hb; cbn [fold_left].
  - rewrite app_nil_r. exact Hb.
  - set (best' := if key_lt best p then p else best).
    assert (Hnext : rightmost_highest (best' :: (best :: seen ++ [p])) best').
    { destruct Hb as [_ Hmax]. split; [left; reflexivity|].
      intros p' Hp'. subst best'.
      pose proof (key_lt_spec best p) as Hk.
      assert (Hseen : In p' seen -> Rect.left p' <= Rect.left best /\
                        (Rect.left p' = Rect.left best -> Rect.top best <= Rect.top p'))
        by (intros Hs; apply Hmax; right; exact Hs).
      destruct (key_lt best p).
      - assert (Hlt : Rect.left best < Rect.left p \/
                      (Rect.left best = Rect.left p /\ Rect.top p < Rect.top best))
          by (apply Hk; reflexivity).
        destruct Hp' as [<-|[<-|Hp']]; [lia|lia|].
        apply in_app_or in Hp'. destruct Hp' as [Hp'|[<-|[]]]; [|lia].
        specialize (Hseen Hp'). lia.
      - assert (Hge : ~ (Rect.left best < Rect.left p \/
                         (Rect.left best = Rect.left p /\ Rect.top p < Rect.top best)))
          by (intros H; apply Hk in H; discriminate).
        destruct Hp' as [<-|[<-|Hp']]; [lia|lia|].
        apply in_app_or in Hp'. destruct Hp' as [Hp'|[<-|[]]]; [|lia].
        specialize (Hseen Hp'). lia. }
    destruct (IH (best :: seen ++ [p]) best' Hnext) as [Hin Hmax].
    split.
    + cbn [In] in Hin |- *.
      destruct Hin as [Hin|[Hin|Hin]].
      * subst best'. destruct (key_lt best p);
          [right; apply in_or_app; right; left|left]; exact Hin.
      * left. exact Hin.
      * rewrite <- app_assoc in Hin. right. exact Hin.
    + intros p' Hp'. apply Hmax. cbn [In] in Hp' |- *.
      destruct Hp' as [Hp'|Hp']; [right; left; exact Hp'|].
      right. right. rewrite <- app_assoc. exact Hp'.
Qed.

(** Python's [max] with the key [(left, -top)] returns a platform that is
    rightmost and, among the rightmost, highest. *)
Lemma py_max_key_spec (first : Platform.t) (rest : list Platform.t) :
  rightmost_highest (first :: rest) (py_max_key first rest).
Proof.
  unfold py_max_key. apply (py_max_fold rest [] first).
  split; [left; reflexivity|]. intros p [<-|[]]. lia.
Qed.

(** C9.  For a template with at least one row, as every template the
    builder is given has, the builder returns a level whose platforms are the
    template's tiles.  If there is a tile, the level has exactly one
    checkpoint, built on the platform with the greatest left coordinate, the
    higher one on a tie: its 20 by 28 rectangle has its mid-bottom at that
    platform's top centre, its respawn point is the top centre of that
    rectangle and it is not activated.  If there is no tile, the level has no
    checkpoint.  (Without any row there is no grid to read: [template[0]]
    raises.) *)
Theorem checkpoint_on_rightmost_platform (rng : Rng) (template : list string) :
  (template = [] -> build_level_from_template rng template = None) /\
  (template <> [] ->
   exists lv,
     build_level_from_template rng template = Some lv /\
     lv_platforms lv = tiles_of 0 template /\
     (lv_platforms lv <> [] <-> has_platform_tile template = true) /\
     (lv_platforms lv <> [] ->
        exists q,
          rightmost_highest (lv_platforms lv) q /\
          lv_checkpoints lv = [Checkpoint.__init__ q] /\
          Rect.w (Checkpoint.rect (Checkpoint.__init__ q)) = 20 /\
          Rect.h (Checkpoint.rect (Checkpoint.__init__ q)) = 28 /\
          Rect.midbottom (Checkpoint.rect (Checkpoint.__init__ q))
            = (Rect.centerx q, Rect.top q) /\
          Checkpoint.respawn_point (Checkpoint.__init__ q)
            = (Rect.centerx (Checkpoint.rect (Checkpoint.__init__ q)),
               Rect.top (Checkpoint.rect (Checkpoint.__init__ q))) /\
          Checkpoint.activated (Checkpoint.__init__ q) = false) /\
     (lv_platforms lv = [] -> lv_checkpoints lv = [])).
Proof.
  split; [intros ->; reflexivity|].
  intros Hne. destruct template as [|row0 rows]; [congruence|].
  eexists. split; [reflexivity|].
  cbn [lv_platforms lv_checkpoints].
  rewrite scan_rows_platforms. cbn [sc_platforms app].
  split; [reflexivity|]. split.
  { pose proof (tiles_of_nil 0 (row0 :: rows)) as Hnil.
    destruct (has_platform_tile (row0 :: rows)).
    - split; [reflexivity|]. intros _ H. apply Hnil in H. discriminate.
    - split; [|discriminate]. intros H. exfalso. apply H, Hnil. reflexivity. }
  destruct (tiles_of 0 (row0 :: rows)) as [|p ps].
  - split; [congruence|reflexivity].
  - split; [|discriminate]. intros _.
    exists (py_max_key p ps). split; [apply py_max_key_spec|].
    split; [reflexivity|].
    unfold Checkpoint.__init__, Rect.midbottom, Rect.centerx, Rect.bottom, Rect.top.
    cbn. repeat split; try reflexivity. f_equal; lia.
Qed.

Lemma checkpoint_on_rightmost_platform_witness :
  exists lv,
    build_level_from_template ambush_rng (nth 0 LEVEL_TEMPLATES []) = Some lv /\
    lv_checkpoints lv
      = [Checkpoint.mk (Rect.mk 1886 308 20 28) false (1896, 308)] /\
    exists lv', build_level_from_template ambush_rng [".P.C."%string] = Some lv' /\
                lv_checkpoints lv' = [].
Proof.
  destruct (proj2 (checkpoint_on_rightmost_platform ambush_rng (nth 0 LEVEL_TEMPLATES []))
              ltac:(cbn; discriminate))
    as (lv & Hb & Hp & _ & Hcp & _).
  exists lv. split; [exact Hb|]. split.
  - vm_compute in Hb. inversion Hb. reflexivity.
  - destruct (proj2 (checkpoint_on_rightmost_platform ambush_rng [".P.C."%string])
                ltac:(discriminate))
      as (lv' & Hb' & Hp' & _ & _ & Hnone).
    exists lv'. split; [exact Hb'|]. apply Hnone. rewrite Hp'. reflexivity.
Defined.

(** ** The save file (C10) *)

Lemma poll_events_quit (evs : list Event) (go wn : bool) (t : Z) (pz : bool) :
  poll_events evs go wn t pz = QuitRequested -> In QUIT evs.
Proof.
  revert pz. induction evs as [|e evs IH]; intros pz; cbn [poll_events]; [discriminate|].
  destruct e as [|k|].
  - intros _. left. reflexivity.
  - destruct k; try discriminate; intros H; right; exact (IH _ H).
  - intros H. right. exact (IH _ H).
Qed.

(** The R key ends the frame with the restart signal, whatever came before
    it short of a QUIT or another R. *)
Lemma poll_events_restart (pre post : list Event) (go wn : bool) (t : Z) (pz : bool) :
  requests_exit pre = false ->
  poll_events (pre ++ KEYDOWN K_r :: post) go wn t pz = RestartRequested.
Proof.
  revert pz. induction pre as [|e pre IH]; intros pz Hq; cbn [app poll_events].
  - reflexivity.
  - cbn [requests_exit existsb] in Hq. apply orb_false_iff in Hq. destruct Hq as [He Hq].
    destruct e as [|k|]; [discriminate| |apply IH, Hq].
    destruct k; try discriminate; apply IH, Hq.
Qed.

Lemma play_frame_highscore (inp : Input) (pz : bool) (w : World) :
  highscore (play_frame inp pz w) = highscore w.
Proof.
  unfold play_frame.
  destruct (player_pass inp w) as [[p bs] go].
  destruct (enemies_update _ _ _ _ _ _ _) as [es ebs].
  destruct (bullet_hits _ _ _) as [[bs' es'] score].
  destruct (enemy_bullet_hits _ _ _ _) as [[ebs' lives] go2].
  destruct (touch_enemy _ _ _) as [p3 go3].
  destruct (collect _ _ _) as [cs score'].
  destruct (checkpoint_pass _ _ _ _) as [[cps rp'] timer].
  destruct (level_clear _ _ _ _) as [cool timer'].
  reflexivity.
Qed.

Lemma frame_highscore (inp : Input) (d : Disk) (w w' : World) :
  frame inp d w = Continues w' -> highscore w' = highscore w.
Proof.
  unfold frame.
  destruct (poll_events _ _ _ _ _) as [pz| |]; try discriminate.
  destruct (pz || game_over w || win w || (0 <? level_transition_timer w)).
  - unfold frozen_frame. intros H.
    repeat match type of H with
           | context [if ?b then _ else _] => destruct b
           | context [match ?o with Some _ => _ | None => _ end] => destruct o as [[lv st]|]
           end;
      inversion H; subst; reflexivity.
  - intros H. inversion H; subst. apply play_frame_highscore.
Qed.

Lemma frame_exit (inp : Input) (d d' : Disk) (w : World) :
  frame inp d w = Exited d' ->
  In QUIT (events inp) /\ d' = save_on_quit d w.
Proof.
  unfold frame.
  destruct (poll_events _ _ _ _ _) as [pz| |] eqn:Hp.
  - destruct (pz || game_over w || win w || (0 <? level_transition_timer w)).
    + unfold frozen_frame. intros H.
      repeat match type of H with
             | context [if ?b then _ else _] => destruct b
             | context [match ?o with Some _ => _ | None => _ end] =>
                 destruct o as [[lv st]|]
             end; discriminate.
    + discriminate.
  - discriminate.
  - intros H. inversion H; subst. split; [|reflexivity].
    exact (poll_events_quit _ _ _ _ _ Hp).
Qed.

(** A session writes the file only when it exits, and then only a score
    above the highscore it loaded. *)
Lemma run_frames_exit (inputs : list Input) (d d' : Disk) (w : World) :
  run_frames inputs d w = Exited d' ->
  d' = d \/
  exists w', highscore w' = highscore w /\
             highscore w' < Player.score (player w') /\
             d' = Some (Player.score (player w')).
Proof.
  revert w. induction inputs as [|inp rest IH]; intros w; cbn [run_frames]; [discriminate|].
  destruct (frame inp d w) as [w1| |dq|] eqn:Hf; try discriminate.
  - intros H. destruct (IH w1 H) as [->|(w' & Hh & Hs & Hd)]; [left; reflexivity|].
    right. exists w'. pose proof (frame_highscore inp d w w1 Hf) as Hw.
    split; [congruence|]. split; assumption.
  - intros H. inversion H; subst dq.
    apply frame_exit in Hf. destruct Hf as [_ ->]. unfold save_on_quit.
    destruct (highscore w <? Player.score (player w)) eqn:E; [|left; reflexivity].
    right. exists w. apply Z.ltb_lt in E. repeat split; [exact E].
Qed.

Lemma run_game_init_highscore (d : Disk) (rng : Rng) (w : World) :
  run_game_init d rng = Some w ->
  highscore w = load_highscore d /\ Player.score (player w) = 0 /\
  Player.lives (player w) = 3 /\ level_num w = 1.
Proof.
  unfold run_game_init. destruct (LevelManager.load_level rng 1) as [[lv st]|];
    [|discriminate].
  intros H. inversion H; subst. repeat split; reflexivity.
Qed.

Lemma main_disk (d : Disk) (sessions : list (Rng * list Input)) :
  main d sessions = d \/
  exists s, load_highscore d < s /\ main d sessions = Some s.
Proof.
  induction sessions as [|[rng inputs] rest IH]; cbn [main]; [left; reflexivity|].
  destruct (run_game d rng inputs) as [w| |d'|] eqn:Hrun;
    [left; reflexivity|exact IH| |left; reflexivity].
  unfold run_game in Hrun.
  destruct (run_game_init d rng) as [w0|] eqn:Hinit; [|discriminate].
  apply run_game_init_highscore in Hinit. destruct Hinit as (Hh & _).
  destruct (run_frames_exit inputs d d' w0 Hrun) as [->|(w' & Hw & Hs & ->)];
    [left; reflexivity|].
  right. exists (Player.score (player w')). split; [lia|reflexivity].
Qed.

(** C10.  A frame ends the process only on a QUIT event, and leaves the save
    file as it was unless the score exceeds the highscore, in which case the
    file holds the score.  A frame whose first quit-or-restart event is the R
    key returns the restart signal, whatever the score, and touches nothing;
    the entry point then runs a fresh session (three lives, score 0, level 1)
    on the unchanged file, whose highscore it loads again.  Over any number
    of sessions the file is either unchanged or holds a score above the
    highscore it held. *)
Theorem highscore_written_only_on_quit :
  (forall inp d d' w,
     frame inp d w = Exited d' ->
     In QUIT (events inp) /\
     (highscore w < Player.score (player w) -> d' = Some (Player.score (player w))) /\
     (Player.score (player w) <= highscore w -> d' = d)) /\
  (forall inp d w pre post,
     events inp = pre ++ KEYDOWN K_r :: post -> requests_exit pre = false ->
     frame inp d w = Restarted) /\
  (forall d rng inputs rest,
     run_game d rng inputs = Restarted ->
     main d ((rng, inputs) :: rest) = main d rest /\
     forall rng' w0, run_game_init d rng' = Some w0 ->
       highscore w0 = load_highscore d /\ Player.score (player w0) = 0 /\
       Player.lives (player w0) = 3 /\ level_num w0 = 1) /\
  (forall d rng inputs d',
     run_game d rng inputs = Exited d' ->
     d' = d \/ exists s, load_highscore d < s /\ d' = Some s) /\
  (forall d sessions,
     main d sessions = d \/
     exists s, load_highscore d < s /\ main d sessions = Some s).
Proof.
  split; [|split; [|split; [|split]]].
  - intros inp d d' w Hf. apply frame_exit in Hf. destruct Hf as [Hq ->].
    split; [exact Hq|]. unfold save_on_quit. split; intros H.
    + replace (highscore w <? Player.score (player w)) with true
        by (symmetry; apply Z.ltb_lt; exact H). reflexivity.
    + replace (highscore w <? Player.score (player w)) with false
        by (symmetry; apply Z.ltb_ge; exact H). reflexivity.
  - intros inp d w pre post He Hq. unfold frame.
    rewrite He, poll_events_restart by exact Hq. reflexivity.
  - intros d rng inputs rest Hrun. split.
    + cbn [main]. rewrite Hrun. reflexivity.
    + intros rng' w0. apply run_game_init_highscore.
  - intros d rng inputs d' Hrun. unfold run_game in Hrun.
    destruct (run_game_init d rng) as [w0|] eqn:Hinit; [|discriminate].
    apply run_game_init_highscore in Hinit. destruct Hinit as (Hh & _).
    destruct (run_frames_exit inputs d d' w0 Hrun) as [->|(w' & Hw & Hs & ->)];
      [left; reflexivity|].
    right. exists (Player.score (player w')). split; [lia|reflexivity].
  - exact main_disk.
Qed.

Lemma highscore_written_only_on_quit_witness :
  frame restart_input (Some 10) (transition_world 2 3) = Restarted /\
  main (Some 10) [(ambush_rng, [idle_input; restart_input]); (ambush_rng, [])] = Some 10.
Proof.
  destruct highscore_written_only_on_quit as (_ & Hr & Hm & _).
  split.
  - exact (Hr restart_input (Some 10) (transition_world 2 3) [] [] eq_refl eq_refl).
  - rewrite (proj1 (Hm (Some 10) ambush_rng [idle_input; restart_input]
                      [(ambush_rng, [])] ltac:(vm_compute; reflexivity))).
    vm_compute. reflexivity.
Defined.

(** The score of the discarded run does not matter: with 150 points against
    a stored highscore of 10, R leaves the file alone and QUIT writes 150. *)
Lemma restart_discards_score :
  highscore (transition_world 2 3) < Player.score (player (transition_world 2 3)) /\
  frame restart_input (Some 10) (transition_world 2 3) = Restarted /\
  frame quit_input (Some 10) (transition_world 2 3) = Exited (Some 150).
Proof. repeat split; vm_compute; reflexivity. Qed.

(** * Further properties of the code *)

(** ** Camera *)

(** X1.  [Camera.update] never scrolls left of or above the level's origin;
    in a level at least as large as the screen it never scrolls past the far
    edge, and in a smaller one it stays at 0; between the bounds it puts the
    target's centre half a screen from its corner.  The camera's size is never
    changed. *)
Theorem camera_update_clamps (c : Camera.t) (target : Rect.t) :
  let c' := Camera.update c target in
  let x' := Rect.x (Camera.rect c') in
  let y' := Rect.y (Camera.rect c') in
  (0 <= x' /\ 0 <= y') /\
  (WIDTH <= Camera.width c -> x' <= Camera.width c - WIDTH) /\
  (HEIGHT <= Camera.height c -> y' <= Camera.height c - HEIGHT) /\
  (Camera.width c <= WIDTH -> x' = 0) /\
  (Camera.height c <= HEIGHT -> y' = 0) /\
  (0 <= Rect.centerx target - 480 <= Camera.width c - WIDTH ->
     x' = Rect.centerx target - 480) /\
  (0 <= Rect.centery target - 320 <= Camera.height c - HEIGHT ->
     y' = Rect.centery target - 320) /\
  Camera.width c' = Camera.width c /\ Camera.height c' = Camera.height c /\
  Rect.w (Camera.rect c') = Rect.w (Camera.rect c) /\
  Rect.h (Camera.rect c') = Rect.h (Camera.rect c).
Proof.
  cbv zeta. unfold Camera.update, WIDTH, HEIGHT. cbn.
  change (960 / 2) with 480. change (640 / 2) with 320.
  repeat split; intros; lia.
Qed.

(** X2.  [Camera.apply] subtracts the camera's corner and leaves the size
    alone; after [Camera.update] on the same target, when the level is wide
    (tall) enough for the camera not to be clamped, the target is drawn with
    its centre at the centre column (row) of the screen, and in any case inside
    the level the drawn rectangle is never further left than the world one. *)
Theorem camera_apply_centres_target (c : Camera.t) (target : Rect.t) :
  let c' := Camera.update c target in
  let drawn := Camera.apply c' target in
  (Rect.x drawn = Rect.x target - Rect.x (Camera.rect c') /\
   Rect.y drawn = Rect.y target - Rect.y (Camera.rect c') /\
   Rect.w drawn = Rect.w target /\ Rect.h drawn = Rect.h target) /\
  (0 <= Rect.centerx target - 480 <= Camera.width c - WIDTH ->
     Rect.centerx drawn = WIDTH / 2) /\
  (0 <= Rect.centery target - 320 <= Camera.height c - HEIGHT ->
     Rect.centery drawn = HEIGHT / 2) /\
  (Rect.x drawn <= Rect.x target /\ Rect.y drawn <= Rect.y target).
Proof.
  cbv zeta.
  unfold Camera.apply, Camera.update, Rect.move, Rect.centerx, Rect.centery, WIDTH, HEIGHT.
  cbn [Rect.x Rect.y Rect.w Rect.h Camera.rect Camera.width Camera.height
       Rect.set_topleft fst snd].
  change (960 / 2) with 480. change (640 / 2) with 320.
  repeat split; intros; lia.
Qed.

Lemma camera_apply_centres_target_witness :
  Rect.centerx
    (Camera.apply (Camera.update (Camera.__init__ 2400 480) (Rect.mk 1000 290 34 46))
       (Rect.mk 1000 290 34 46)) = 480 /\
  Rect.y (Camera.rect (Camera.update (Camera.__init__ 2400 480) (Rect.mk 1000 290 34 46)))
    = 0.
Proof.
  split.
  - apply (proj1 (proj2 (camera_apply_centres_target (Camera.__init__ 2400 480)
                           (Rect.mk 1000 290 34 46)))).
    vm_compute. split; discriminate.
  - reflexivity.
Defined.

Lemma camera_update_clamps_witness :
  Rect.y (Camera.rect (Camera.update (Camera.__init__ 2400 480) (Rect.mk 1000 290 34 46)))
    = 0 /\
  Rect.x (Camera.rect (Camera.update (Camera.__init__ 2400 480) (Rect.mk 2390 290 34 46)))
    <= 1440.
Proof.
  split.
  - apply (proj1 (proj2 (proj2 (proj2 (proj2
             (camera_update_clamps (Camera.__init__ 2400 480) (Rect.mk 1000 290 34 46))))))).
    vm_compute. discriminate.
  - apply (proj1 (proj2
             (camera_update_clamps (Camera.__init__ 2400 480) (Rect.mk 2390 290 34 46)))).
    vm_compute. discriminate.
Defined.

(** ** Bullets *)

Lemma bullet_update_some (W H : Z) (b b' : Bullet.t) :
  Bullet.update W H b = Some b' ->
  Bullet.rect b' = Rect.move (Bullet.rect b) (Bullet.step_x b) (Bullet.step_y b) /\
  Bullet.step_x b' = Bullet.step_x b /\ Bullet.step_y b' = Bullet.step_y b /\
  Bullet.owner b' = Bullet.owner b /\
  in_level W H (Bullet.rect b').
Proof.
  unfold Bullet.update. cbv zeta.
  destruct (_ || _ || _ || _) eqn:Hout; [discriminate|].
  intros H0. inversion H0; subst; clear H0. cbn [Bullet.rect Bullet.step_x Bullet.step_y Bullet.owner].
  apply orb_false_iff in Hout. destruct Hout as [Hout H4].
  apply orb_false_iff in Hout. destruct Hout as [Hout H3].
  apply orb_false_iff in Hout. destruct Hout as [H1 H2].
  apply Z.ltb_ge in H1, H2, H3, H4.
  split; [rewrite move_x_then_y; reflexivity|].
  repeat split; assumption.
Qed.

Lemma bullet_update_none (W H : Z) (b : Bullet.t) :
  Bullet.update W H b = None <->
  ~ in_level W H (Rect.move (Bullet.rect b) (Bullet.step_x b) (Bullet.step_y b)).
Proof.
  unfold Bullet.update, in_level. cbv zeta. rewrite move_x_then_y.
  set (r := Rect.move (Bullet.rect b) (Bullet.step_x b) (Bullet.step_y b)).
  destruct (_ || _ || _ || _) eqn:Hout.
  - split; [|reflexivity]. intros _ (A & B & C & D).
    rewrite !orb_true_iff, !Z.ltb_lt in Hout. lia.
  - split; [discriminate|]. intros Hn. exfalso. apply Hn.
    rewrite !orb_false_iff, !Z.ltb_ge in Hout. lia.
Qed.

Lemma bullet_update_flown (W H : Z) (b b' : Bullet.t) :
  Bullet.update W H b = Some b' -> b' = flown b.
Proof.
  intros Hb. destruct (bullet_update_some W H b b' Hb) as (A & B & C & D & _).
  destruct b' as [r sx sy o]. cbn in A, B, C, D. subst. reflexivity.
Qed.

Lemma bullets_update_exact (W H : Z) (bs : list Bullet.t) :
  bullets_update W H bs =
  map flown
    (filter (fun b => match Bullet.update W H b with Some _ => true | None => false end)
       bs).
Proof.
  induction bs as [|b bs IH]; cbn [bullets_update filter map]; [reflexivity|].
  destruct (Bullet.update W H b) as [b1|] eqn:Hb; [|exact IH].
  cbn [map]. rewrite (bullet_update_flown W H b b1 Hb), IH. reflexivity.
Qed.

(** X3.  [Bullet.update] moves a bullet by its fixed step and kills it
    exactly when the moved rectangle lies entirely beyond an edge of the
    level; the group update keeps the survivors in order, that is, its
    result is the list of the bullets that do not kill themselves, each moved
    by its step, still inside the level and with step and owner unchanged,
    and it never adds a bullet. *)
Theorem bullets_update_keeps_level (W H : Z) (bs : list Bullet.t) :
  (forall b, Bullet.update W H b = None <->
             ~ in_level W H
                 (Rect.move (Bullet.rect b) (Bullet.step_x b) (Bullet.step_y b))) /\
  (forall b b', Bullet.update W H b = Some b' ->
     Bullet.rect b' = Rect.move (Bullet.rect b) (Bullet.step_x b) (Bullet.step_y b) /\
     Bullet.step_x b' = Bullet.step_x b /\ Bullet.step_y b' = Bullet.step_y b /\
     Bullet.owner b' = Bullet.owner b) /\
  Forall (fun b' => in_level W H (Bullet.rect b')) (bullets_update W H bs) /\
  (forall b', In b' (bullets_update W H bs) ->
     exists b, In b bs /\ Bullet.update W H b = Some b') /\
  (List.length (bullets_update W H bs) <= List.length bs)%nat /\
  (* the survivors are kept, in order *)
  bullets_update W H bs =
    map flown
      (filter (fun b => match Bullet.update W H b with Some _ => true | None => false end)
         bs) /\
  (forall b b', In b bs -> Bullet.update W H b = Some b' ->
     In b' (bullets_update W H bs)).
Proof.
  split; [intros b; apply bullet_update_none|].
  split; [intros b b' Hb; destruct (bullet_update_some W H b b' Hb) as (A & B & C & D & _);
          repeat split; assumption|].
  rewrite <- !and_assoc. split.
  2:{ intros b b' Hin Hb. rewrite bullets_update_exact. apply in_map_iff.
      exists b. split; [symmetry; apply (bullet_update_flown W H b b' Hb)|].
      apply filter_In. split; [exact Hin|]. rewrite Hb. reflexivity. }
  split; [|apply bullets_update_exact].
  rewrite !and_assoc.
  induction bs as [|b bs IH]; cbn [bullets_update].
  - split; [constructor|]. split; [intros b' []|cbn; lia].
  - destruct IH as (Hall & Hfrom & Hlen).
    destruct (Bullet.update W H b) as [b1|] eqn:Hb.
    + split; [constructor; [apply (bullet_update_some W H b b1 Hb)|exact Hall]|].
      split.
      * intros b' [<-|Hin]; [exists b; split; [left; reflexivity|exact Hb]|].
        destruct (Hfrom b' Hin) as (b0 & Hin0 & Hb0). exists b0. split; [right|]; assumption.
      * cbn [List.length]. lia.
    + split; [exact Hall|]. split.
      * intros b' Hin. destruct (Hfrom b' Hin) as (b0 & Hin0 & Hb0).
        exists b0. split; [right|]; assumption.
      * cbn [List.length]. lia.
Qed.

Lemma bullet_flight_some (n : nat) (W H : Z) (b b' : Bullet.t) :
  bullet_flight n W H b = Some b' ->
  Bullet.rect b'
    = Rect.move (Bullet.rect b) (Z.of_nat n * Bullet.step_x b) (Z.of_nat n * Bullet.step_y b) /\
  Bullet.step_x b' = Bullet.step_x b /\ Bullet.step_y b' = Bullet.step_y b /\
  (n <> O -> in_level W H (Bullet.rect b')).
Proof.
  revert b. induction n as [|n IH]; intros b; cbn [bullet_flight].
  - intros H0. inversion H0; subst. split; [|repeat split; congruence].
    destruct (Bullet.rect b'); unfold Rect.move; cbn. f_equal; lia.
  - destruct (Bullet.update W H b) as [b1|] eqn:Hb; [|discriminate].
    intros Hf. destruct (bullet_update_some W H b b1 Hb) as (Hr & Hx & Hy & _ & Hin).
    destruct (IH b1 Hf) as (Hr' & Hx' & Hy' & Hin').
    split.
    { rewrite Hr', Hr, Hx, Hy, Nat2Z.inj_succ. unfold Rect.move.
      cbn [Rect.x Rect.y Rect.w Rect.h]. f_equal; lia. }
    split; [congruence|]. split; [congruence|].
    intros _. destruct n as [|n]; [|apply Hin'; discriminate].
    cbn in Hf. inversion Hf; subst. exact Hin.
Qed.

(** X4.  A bullet flies in a straight line: as long as it lives, after [n]
    updates it has moved [n] times its step and lies inside the level.  So a
    bullet with a step to the right is gone once [n] steps carry its left
    edge past the level's right edge, and likewise to the left, down and
    up. *)
Theorem bullet_flight_is_linear (n : nat) (W H : Z) (b : Bullet.t) :
  (forall b', bullet_flight n W H b = Some b' ->
     Bullet.rect b'
       = Rect.move (Bullet.rect b) (Z.of_nat n * Bullet.step_x b)
           (Z.of_nat n * Bullet.step_y b) /\
     (n <> O -> in_level W H (Bullet.rect b'))) /\
  (n <> O -> W < Rect.left (Bullet.rect b) + Z.of_nat n * Bullet.step_x b ->
     bullet_flight n W H b = None) /\
  (n <> O -> Rect.right (Bullet.rect b) + Z.of_nat n * Bullet.step_x b < 0 ->
     bullet_flight n W H b = None) /\
  (n <> O -> H < Rect.top (Bullet.rect b) + Z.of_nat n * Bullet.step_y b ->
     bullet_flight n W H b = None) /\
  (n <> O -> Rect.bottom (Bullet.rect b) + Z.of_nat n * Bullet.step_y b < 0 ->
     bullet_flight n W H b = None).
Proof.
  assert (Hgone : forall P : Prop,
             n <> O ->
             (forall b', bullet_flight n W H b = Some b' ->
                         in_level W H (Bullet.rect b') -> ~ P) ->
             P -> bullet_flight n W H b = None).
  { intros P Hn Hsome HP. destruct (bullet_flight n W H b) as [b'|] eqn:Hf; [|reflexivity].
    exfalso. destruct (bullet_flight_some n W H b b' Hf) as (_ & _ & _ & Hin).
    exact (Hsome b' eq_refl (Hin Hn) HP). }
  split.
  { intros b' Hf. destruct (bullet_flight_some n W H b b' Hf) as (Hr & _ & _ & Hin).
    split; assumption. }
  repeat split; intros Hn Hout; (apply (Hgone _ Hn) with (2 := Hout));
    intros b' Hf (A & B & C & D);
    destruct (bullet_flight_some n W H b b' Hf) as (Hr & _);
    rewrite Hr in A, B, C, D;
    unfold Rect.right, Rect.left, Rect.top, Rect.bottom, Rect.move in *;
    cbn in *; lia.
Qed.

Lemma bullet_flight_is_linear_witness :
  bullet_flight 200 2400 480 (Bullet.mk (Rect.mk 100 100 8 8) 12 0 owner_player) = None /\
  (exists b', bullet_flight 100 2400 480 (Bullet.mk (Rect.mk 100 100 8 8) 12 0 owner_player)
              = Some b' /\ Bullet.rect b' = Rect.mk 1300 100 8 8).
Proof.
  split.
  - apply (proj1 (proj2 (bullet_flight_is_linear 200 2400 480
                           (Bullet.mk (Rect.mk 100 100 8 8) 12 0 owner_player)))).
    + discriminate.
    + vm_compute. reflexivity.
  - eexists. split; [vm_compute; reflexivity|reflexivity].
Defined.

(** ** The interaction passes of a frame *)

Lemma remove_first_in {A : Type} (f : A -> bool) (l : list A) (a : A) :
  In a (remove_first f l) -> In a l.
Proof.
  induction l as [|x l IH]; cbn [remove_first]; [intros []|].
  destruct (f x); [intros H; right; exact H|].
  intros [<-|H]; [left; reflexivity|right; apply IH, H].
Qed.

Lemma remove_first_length {A : Type} (f : A -> bool) (l : list A) (a : A) :
  find f l = Some a -> S (List.length (remove_first f l)) = List.length l.
Proof.
  induction l as [|x l IH]; cbn [find remove_first]; [discriminate|].
  destruct (f x); [reflexivity|].
  intros H. cbn [List.length]. rewrite (IH H). reflexivity.
Qed.

(** X5.  The pass of the player's bullets over the enemies consumes as many
    bullets as it destroys enemies and adds 100 points for each; what is left
    of either group was in it before, and afterwards no remaining bullet
    overlaps a remaining enemy. *)
Theorem bullet_hits_settles (bs : list Bullet.t) (es : list Enemy.t) (score : Z) :
  let res := bullet_hits bs es score in
  let bs' := fst (fst res) in
  let es' := snd (fst res) in
  let score' := snd res in
  (List.length bs - List.length bs' = List.length es - List.length es')%nat /\
  (List.length bs' <= List.length bs)%nat /\
  (List.length es' <= List.length es)%nat /\
  score' = score + 100 * Z.of_nat (List.length bs - List.length bs') /\
  (forall b, In b bs' -> In b bs) /\
  (forall e, In e es' -> In e es) /\
  (forall b e, In b bs' -> In e es' ->
               Rect.colliderect (Bullet.rect b) (Enemy.rect e) = false).
Proof.
  cbv zeta. revert es score.
  induction bs as [|b bs IH]; intros es score; cbn [bullet_hits].
  - cbn. repeat split; try lia; try tauto.
  - unfold spritecollideany.
    destruct (find (fun s => Rect.colliderect (Bullet.rect b) (Enemy.rect s)) es)
      as [hit|] eqn:Hfind.
    + specialize (IH (remove_first
                        (fun e => Rect.colliderect (Bullet.rect b) (Enemy.rect e)) es)
                     (score + 100)).
      pose proof (remove_first_length _ es hit Hfind) as Hlen.
      destruct (bullet_hits bs _ (score + 100)) as [[bs' es'] score'].
      cbn [fst snd] in *. destruct IH as (A & B & C & D & E & F & G).
      cbn [List.length].
      split; [lia|]. split; [lia|]. split; [lia|].
      split; [rewrite D; replace (S (List.length bs) - List.length bs')%nat
                with (S (List.length bs - List.length bs'))%nat by lia; lia|].
      split; [intros x Hx; right; apply E, Hx|].
      split; [intros x Hx; eapply remove_first_in, F, Hx|exact G].
    + specialize (IH es score).
      destruct (bullet_hits bs es score) as [[bs' es'] score'].
      cbn [fst snd] in *. destruct IH as (A & B & C & D & E & F & G).
      cbn [List.length].
      split; [lia|]. split; [lia|]. split; [lia|].
      split; [rewrite D; f_equal; f_equal; lia|].
      split; [intros x [<-|Hx]; [left; reflexivity|right; apply E, Hx]|].
      split; [exact F|].
      intros x e [<-|Hx] He; [|apply G; assumption].
      apply (find_none _ es Hfind e), F, He.
Qed.

(** X6.  The pass of the enemy bullets over the player removes exactly the
    bullets that overlap the player, keeps the others in order, and takes one
    life for each removed bullet, however many there are; the loss flag is
    raised once a hit has brought lives to zero or below and is never
    lowered. *)
Theorem enemy_bullet_hits_counts (r : Rect.t) (ebs : list Bullet.t) (lives : Z)
    (go : bool) :
  let res := enemy_bullet_hits r ebs lives go in
  let hits := filter (fun b => Rect.colliderect r (Bullet.rect b)) ebs in
  fst (fst res) = filter (fun b => negb (Rect.colliderect r (Bullet.rect b))) ebs /\
  snd (fst res) = lives - Z.of_nat (List.length hits) /\
  (go = true -> snd res = true) /\
  (hits = [] -> snd res = go) /\
  (hits <> [] -> lives - Z.of_nat (List.length hits) <= 0 -> snd res = true) /\
  (go = false -> 0 < lives - Z.of_nat (List.length hits) -> snd res = false).
Proof.
  cbv zeta. revert lives go.
  induction ebs as [|b ebs IH]; intros lives go; cbn [enemy_bullet_hits filter].
  - cbn. repeat split; try lia; try tauto.
  - destruct (Rect.colliderect r (Bullet.rect b)); cbn [negb].
    + destruct (IH (lives - 1) (if lives - 1 <=? 0 then true else go))
        as (A & B & C & D & E & F).
      cbn [List.length]. rewrite Nat2Z.inj_succ.
      split; [exact A|]. split; [rewrite B; lia|].
      split; [intros ->; apply C; destruct (lives - 1 <=? 0); reflexivity|].
      split; [discriminate|].
      split.
      * intros _ Hle.
        destruct (filter (fun b0 => Rect.colliderect r (Bullet.rect b0)) ebs) eqn:Hf.
        -- rewrite (D eq_refl). cbn in Hle.
           replace (lives - 1 <=? 0) with true by (symmetry; apply Z.leb_le; lia).
           reflexivity.
        -- apply E; [discriminate|]. lia.
      * intros -> Hpos. apply F; [|lia].
        replace (lives - 1 <=? 0) with false; [reflexivity|].
        symmetry. apply Z.leb_gt. lia.
    + specialize (IH lives go).
      destruct (enemy_bullet_hits r ebs lives go) as [[ebs' lives'] go'].
      cbn [fst snd] in *. destruct IH as (A & B & C & D & E & F).
      split; [rewrite A; reflexivity|]. repeat split; assumption.
Qed.

(** X7.  Touching enemies costs one life per frame however many enemies
    overlap the player, and always throws the player 60 pixels to the left,
    on whichever side the enemy is; without overlap nothing changes.  Nothing
    but lives and the horizontal position of the player is touched. *)
Theorem touch_enemy_knocks_left (es : list Enemy.t) (p : Player.t) (go : bool) :
  let touching := existsb (fun e => Rect.colliderect (Player.rect p) (Enemy.rect e)) es in
  let p' := fst (touch_enemy es p go) in
  (touching = false -> touch_enemy es p go = (p, go)) /\
  (touching = true ->
     Player.lives p' = Player.lives p - 1 /\
     Player.rect p' = Rect.move (Player.rect p) (-60) 0 /\
     snd (touch_enemy es p go) = (if Player.lives p - 1 <=? 0 then true else go)) /\
  Player.set_lives (Player.set_rect p' (Player.rect p)) (Player.lives p) = p.
Proof.
  cbv zeta. unfold touch_enemy, spritecollideany.
  destruct (find (fun s => Rect.colliderect (Player.rect p) (Enemy.rect s)) es)
    as [e|] eqn:Hfind.
  - apply find_some in Hfind. destruct Hfind as [Hin Hc].
    assert (Ht : existsb (fun e => Rect.colliderect (Player.rect p) (Enemy.rect e)) es
                 = true)
      by (apply existsb_exists; exists e; split; assumption).
    rewrite Ht. split; [discriminate|]. split; [|destruct p; reflexivity].
    intros _. repeat split; reflexivity.
  - assert (Ht : existsb (fun e => Rect.colliderect (Player.rect p) (Enemy.rect e)) es
                 = false).
    { apply not_true_is_false. intros H. apply existsb_exists in H.
      destruct H as (e & Hin & Hc). rewrite (find_none _ es Hfind e Hin) in Hc.
      discriminate. }
    rewrite Ht. split; [reflexivity|]. split; [discriminate|destruct p; reflexivity].
Qed.

(** X8.  The pass over the collectibles removes exactly those the player
    overlaps, keeps the others in order and adds 50 points for each one
    removed. *)
Theorem collect_counts (r : Rect.t) (cs : list Rect.t) (score : Z) :
  fst (collect r cs score) = filter (fun c => negb (Rect.colliderect r c)) cs /\
  snd (collect r cs score)
    = score + 50 * Z.of_nat (List.length (filter (fun c => Rect.colliderect r c) cs)).
Proof.
  revert score. induction cs as [|c cs IH]; intros score; cbn [collect filter].
  - cbn. split; [reflexivity|lia].
  - destruct (Rect.colliderect r c); cbn [negb].
    + destruct (IH (score + 50)) as (A & B). split; [exact A|].
      rewrite B. cbn [List.length]. rewrite Nat2Z.inj_succ. lia.
    + specialize (IH score). destruct (collect r cs score) as [cs' score'].
      cbn [fst snd] in *. destruct IH as (A & B). split; [rewrite A; reflexivity|exact B].
Qed.

(** ** Invariants of a session *)

(** A property of the world that holds when [run_game] enters its loop and
    that every frame keeps holds after any number of frames. *)
Lemma run_game_invariant (P : World -> Prop) :
  (forall d rng w, run_game_init d rng = Some w -> P w) ->
  (forall inp d w w', P w -> frame inp d w = Continues w' -> P w') ->
  forall d rng inputs w, run_game d rng inputs = Continues w -> P w.
Proof.
  intros Hinit Hstep d rng inputs w. unfold run_game.
  destruct (run_game_init d rng) as [w0|] eqn:Hi; [|discriminate].
  apply Hinit in Hi. revert w0 Hi.
  induction inputs as [|inp rest IH]; intros w0 Hi; cbn [run_frames].
  - intros H. inversion H; subst. exact Hi.
  - destruct (frame inp d w0) as [w1| | |] eqn:Hf; try discriminate.
    apply IH. exact (Hstep inp d w0 w1 Hi Hf).
Qed.

Lemma frame_cases (inp : Input) (d : Disk) (w w' : World) :
  frame inp d w = Continues w' ->
  exists pz,
    poll_events (events inp) (game_over w) (win w) (level_transition_timer w) (paused w)
      = Proceed pz /\
    ((pz || game_over w || win w || (0 <? level_transition_timer w) = true /\
      frozen_frame inp pz w = Continues w') \/
     (pz || game_over w || win w || (0 <? level_transition_timer w) = false /\
      w' = play_frame inp pz w)).
Proof.
  unfold frame.
  destruct (poll_events _ _ _ _ _) as [pz| |]; try discriminate.
  intros H. exists pz. split; [reflexivity|].
  destruct (pz || game_over w || win w || (0 <? level_transition_timer w)).
  - left. split; [reflexivity|exact H].
  - right. split; [reflexivity|]. inversion H. reflexivity.
Qed.

(** *** What [update] leaves of the player *)

Lemma collide_hit_build (dir : string) (p : Player.t) (q : Platform.t) :
  same_build (Player.collide_hit dir p q) p.
Proof.
  unfold Player.collide_hit, same_build.
  repeat break_if; cbn; repeat split; reflexivity.
Qed.

Lemma collide_fold_build (dir : string) (hits : list Platform.t) (p : Player.t) :
  same_build (fold_left (Player.collide_hit dir) hits p) p.
Proof.
  revert p. induction hits as [|h hits IH]; intros p; cbn [fold_left].
  - unfold same_build. repeat split; reflexivity.
  - destruct (IH (Player.collide_hit dir p h)) as (A & B & C & D & E & F).
    destruct (collide_hit_build dir p h) as (A' & B' & C' & D' & E' & F').
    unfold same_build. repeat split; congruence.
Qed.

Lemma update_physics_build (platforms : list Platform.t) (p : Player.t) :
  same_build (Player.update_physics platforms p) p.
Proof.
  unfold Player.update_physics, Player.resolve_y, Player.resolve_x, Player.collide.
  cbv zeta.
  match goal with
  | |- same_build (fold_left _ ?l ?a) _ =>
      destruct (collide_fold_build "y" l a) as (A & B & C & D & E & F)
  end.
  match goal with
  | H : context [fold_left (Player.collide_hit "x") ?l ?a] |- _ =>
      destruct (collide_fold_build "x" l a) as (A' & B' & C' & D' & E' & F')
  end.
  unfold same_build in *. cbn in *. repeat split; congruence.
Qed.

Lemma update_move_bounds (c : Controls) (p : Player.t) :
  let m := Player.update_move c p in
  (0 <= Player.dash_cooldown p <= 44 -> 0 <= Player.dash_cooldown m <= 44) /\
  (Player.facing p = 1 \/ Player.facing p = -1 ->
   Player.facing m = 1 \/ Player.facing m = -1) /\
  Player.speed m = Player.speed p /\
  (Player.vel_x m = 0%Q \/ Player.vel_x m = inject_Z (Player.speed p) \/
   Player.vel_x m = inject_Z (- Player.speed p) \/
   Player.vel_x m = inject_Z (18 * Player.facing m)).
Proof.
  destruct p. unfold Player.update_move. cbn.
  destruct (k_a c || k_LEFT c); destruct (k_d c || k_RIGHT c);
    destruct (k_LSHIFT c); cbn;
    repeat match goal with
           | |- context [?a <=? ?b] => destruct (Z.leb_spec a b)
           | |- context [?a <? ?b] => destruct (Z.ltb_spec a b)
           end; cbn; repeat split; intros; try lia; auto.
Qed.

Lemma update_jump_bounds (prev : bool) (m : Player.t) :
  let j := Player.update_jump prev m in
  (0 <= Player.jump_buffer m <= JUMP_BUFFER ->
   0 <= Player.jump_buffer j <= JUMP_BUFFER - 1) /\
  Player.coyote_timer j = Player.coyote_timer m /\
  Player.rect j = Player.rect m /\ Player.score j = Player.score m /\
  same_build j m.
Proof.
  destruct m. unfold Player.update_jump, same_build, JUMP_BUFFER. cbn.
  repeat match goal with
         | |- context [?a <=? ?b] => destruct (Z.leb_spec a b)
         | |- context [?a <? ?b] => destruct (Z.ltb_spec a b)
         | |- context [if ?b then _ else _] => destruct b
         end; cbn in *; repeat split; intros; try lia; auto.
Qed.

Lemma update_grounded_bounds (p : Player.t) :
  let g := Player.update_grounded p in
  (0 <= Player.coyote_timer p <= COYOTE_TIME ->
   0 <= Player.coyote_timer g <= COYOTE_TIME) /\
  Player.jump_buffer g = Player.jump_buffer p /\
  Player.rect g = Player.rect p /\ Player.score g = Player.score p /\
  same_build g p.
Proof.
  destruct p. unfold Player.update_grounded, same_build, COYOTE_TIME. cbn.
  repeat match goal with
         | |- context [?a <? ?b] => destruct (Z.ltb_spec a b)
         | |- context [if ?b then _ else _] => destruct b
         end; cbn in *; repeat split; intros; try lia; auto.
Qed.

Lemma handle_events_bounds (evs : list Event) (p : Player.t) :
  let h := Player.handle_events evs p in
  (0 <= Player.jump_buffer p <= JUMP_BUFFER -> 0 <= Player.jump_buffer h <= JUMP_BUFFER) /\
  same_build h p.
Proof.
  unfold Player.handle_events. revert p.
  induction evs as [|e evs IH]; intros p; cbn [fold_left].
  - unfold same_build. repeat split; try reflexivity. tauto. tauto.
  - match goal with
    | |- context [fold_left _ evs ?a] => specialize (IH a); set (p1 := a) in *
    end.
    cbv zeta in IH. destruct IH as (Hb & Hs).
    assert (H1 : (0 <= Player.jump_buffer p <= JUMP_BUFFER ->
                  0 <= Player.jump_buffer p1 <= JUMP_BUFFER) /\ same_build p1 p).
    { subst p1. unfold same_build, JUMP_BUFFER.
      destruct e as [|k|]; [| destruct (Player.is_jump_key k) |];
        cbn; repeat split; intros; try lia; auto. }
    destruct H1 as (Hb1 & Hs1). split; [intros H; apply Hb, Hb1, H|].
    unfold same_build in *. destruct Hs as (A & B & C & D & E & F).
    destruct Hs1 as (A' & B' & C' & D' & E' & F'). repeat split; congruence.
Qed.

(** The bounds survive [handle_events] followed by [update]. *)
Lemma update_in_bounds (aim : Aim) (c : Controls) (camera : Camera.t) (LH : Z)
    (platforms : list Platform.t) (bs : list Bullet.t) (evs : list Event) (p : Player.t) :
  player_in_bounds p ->
  player_in_bounds (updated aim c camera LH platforms bs (Player.handle_events evs p)).
Proof.
  intros (Hd & Hj & Hc & Hf & Hs & Hp & Hw & Hh).
  destruct (handle_events_bounds evs p) as (Hj0 & S0).
  destruct (handle_events_keeps evs p) as (Hr0 & _ & _ & _ & _ & Hc0 & _).
  set (p0 := Player.handle_events evs p) in *.
  unfold updated. rewrite update_after_controls. unfold Player.update_controls. cbv zeta.
  set (p1 := Player.set_on_ground p0 false).
  destruct (update_move_bounds c p1) as (Hd1 & Hf1 & Hs1 & _).
  destruct (update_move_keeps c p1) as (Hr1 & _ & Hp1 & _ & _ & Hc1 & Hj1 & _).
  set (m := Player.update_move c p1) in *.
  destruct (update_jump_bounds (Player.on_ground p0) m) as (Hj2 & Hc2 & Hr2 & _ & S2).
  set (j := Player.update_jump (Player.on_ground p0) m) in *.
  unfold after_controls. cbv zeta.
  destruct (update_physics_build platforms j) as (A3 & B3 & C3 & D3 & E3 & F3).
  destruct (update_physics_keeps platforms j) as (_ & Hc3 & Hj3 & _).
  set (ph := Player.update_physics platforms j) in *.
  destruct (update_grounded_bounds ph) as (Hc4 & Hj4 & Hr4 & _ & S4).
  set (g := Player.update_grounded ph) in *.
  assert (Hg : player_in_bounds g).
  { unfold same_build in *.
    destruct S0 as (a0 & b0 & c0 & d0 & e0 & f0).
    destruct S2 as (a2 & b2 & c2 & d2 & e2 & f2).
    destruct S4 as (a4 & b4 & c4 & d4 & e4 & f4).
    subst p1. cbn [Player.set_on_ground Player.dash_cooldown Player.facing Player.speed
                   Player.jump_buffer Player.coyote_timer Player.rect
                   Player.jump_power] in *.
    unfold player_in_bounds, JUMP_BUFFER, COYOTE_TIME in *.
    rewrite c4, C3, c2, d4, D3, d2, a4, A3, a2, Hs1, b4, B3, b2, Hp1, e4, E3, e2, Hr1,
      f4, F3, f2, Hj4, Hj3.
    rewrite Hr1 in *. 
    split; [apply Hd1; lia|].
    split; [assert (0 <= Player.jump_buffer j <= 8 - 1)
              by (apply Hj2; rewrite Hj1; apply Hj0; lia); lia|].
    split; [apply Hc4; rewrite Hc3, Hc2, Hc1, Hc0; lia|].
    split; [apply Hf1; rewrite d0; exact Hf|].
    repeat split; congruence. }
  destruct (LH + 200 <? Rect.top (Player.rect g)); cbn [fst]; exact Hg.
Qed.

(** *** What a frame leaves of the world *)

Lemma same_counters_bounds (a b : Player.t) :
  same_counters a b -> player_in_bounds b -> player_in_bounds a.
Proof.
  unfold same_counters, same_build, player_in_bounds.
  intros ((A & B & C & D & E & F) & G & H). rewrite A, B, C, D, E, F, G, H. tauto.
Qed.

Lemma updated_score (aim : Aim) (c : Controls) (camera : Camera.t) (LH : Z)
    (platforms : list Platform.t) (bs : list Bullet.t) (evs : list Event) (p : Player.t) :
  Player.score (updated aim c camera LH platforms bs (Player.handle_events evs p))
  = Player.score p.
Proof.
  unfold updated, Player.update. cbv zeta.
  set (g := Player.update_grounded _).
  assert (Hg : Player.score g = Player.score p).
  { subst g. destruct (update_grounded_bounds
                         (Player.update_physics platforms
                            (Player.update_controls c (Player.handle_events evs p))))
      as (_ & _ & _ & Hs & _).
    rewrite Hs.
    destruct (update_physics_keeps platforms
                (Player.update_controls c (Player.handle_events evs p)))
      as (_ & _ & _ & _ & _ & Hs').
    rewrite Hs'. unfold Player.update_controls. cbv zeta.
    destruct (update_jump_bounds (Player.on_ground (Player.handle_events evs p))
                (Player.update_move c
                   (Player.set_on_ground (Player.handle_events evs p) false)))
      as (_ & _ & _ & Hs2 & _).
    rewrite Hs2.
    destruct (update_move_keeps c (Player.set_on_ground (Player.handle_events evs p) false))
      as (_ & _ & _ & _ & _ & _ & _ & _ & Hs3).
    rewrite Hs3. cbn [Player.set_on_ground Player.score].
    destruct (handle_events_keeps evs p) as (_ & _ & _ & _ & _ & _ & _ & Hs4).
    exact Hs4. }
  destruct (LH + 200 <? Rect.top (Player.rect g)); cbn [fst]; exact Hg.
Qed.

Lemma update_bullets_cap (aim : Aim) (c : Controls) (camera : Camera.t) (LH : Z)
    (platforms : list Platform.t) (bs : list Bullet.t) (p : Player.t) :
  (List.length bs <= 6)%nat ->
  (List.length (snd (fst (Player.update aim c camera LH platforms bs p))) <= 6)%nat.
Proof.
  intros Hb. unfold Player.update. cbv zeta.
  set (g := Player.update_grounded _).
  assert (Hs : (List.length (Player.update_shoot aim c camera g bs) <= 6)%nat).
  { unfold Player.update_shoot. destruct (mouse_left c); [|exact Hb].
    destruct (Z.ltb_spec (Z.of_nat (List.length bs)) 6); [|exact Hb].
    rewrite length_app. cbn [List.length]. lia. }
  destruct (LH + 200 <? Rect.top (Player.rect g)); cbn [fst snd]; exact Hs.
Qed.

Lemma bullet_hits_shrinks (bs : list Bullet.t) (es : list Enemy.t) (score : Z) :
  (List.length (fst (fst (bullet_hits bs es score))) <= List.length bs)%nat /\
  score <= snd (bullet_hits bs es score).
Proof.
  revert es score. induction bs as [|b bs IH]; intros es score; cbn [bullet_hits].
  - cbn. lia.
  - destruct (spritecollideany Enemy.rect (Bullet.rect b) es).
    + destruct (IH (remove_first
                      (fun e => Rect.colliderect (Bullet.rect b) (Enemy.rect e)) es)
                   (score + 100)) as (A & B).
      cbn [List.length]. lia.
    + specialize (IH es score). destruct (bullet_hits bs es score) as [[bs' es'] sc'].
      cbn [fst snd List.length] in *. lia.
Qed.

Lemma bullets_update_shrinks (W H : Z) (bs : list Bullet.t) :
  (List.length (bullets_update W H bs) <= List.length bs)%nat.
Proof.
  induction bs as [|b bs IH]; cbn [bullets_update]; [lia|].
  destruct (Bullet.update W H b); cbn [List.length]; lia.
Qed.

Lemma collect_grows (r : Rect.t) (cs : list Rect.t) (score : Z) :
  score <= snd (collect r cs score).
Proof.
  revert score. induction cs as [|c cs IH]; intros score; cbn [collect]; [cbn; lia|].
  destruct (Rect.colliderect r c).
  - specialize (IH (score + 50)). lia.
  - specialize (IH score). destruct (collect r cs score) as [cs' sc']. cbn in *. lia.
Qed.

Lemma touch_enemy_counters (es : list Enemy.t) (p : Player.t) (go : bool) :
  same_counters (fst (touch_enemy es p go)) p /\
  Player.score (fst (touch_enemy es p go)) = Player.score p.
Proof.
  unfold touch_enemy, same_counters, same_build.
  destruct (spritecollideany Enemy.rect (Player.rect p) es); cbn; repeat split; reflexivity.
Qed.

Lemma play_frame_bounds (inp : Input) (pz : bool) (w : World) :
  let w' := play_frame inp pz w in
  same_counters (player w')
    (updated (aim inp) (controls inp) (camera w) (LEVEL_HEIGHT w) (platforms w)
       (bullets w) (Player.handle_events (events inp) (player w))) /\
  ((List.length (bullets w) <= 6)%nat -> (List.length (bullets w') <= 6)%nat) /\
  Player.score (player w) <= Player.score (player w') /\
  level_num w' = level_num w /\ win w' = win w /\ paused w' = pz /\
  (level_transition_timer w' = level_transition_timer w \/
   level_transition_timer w' = TRANSITION_FRAMES) /\
  (0 <= level_clear_cool w <= CLEAR_FRAMES -> 0 <= level_clear_cool w' <= CLEAR_FRAMES).
Proof.
  cbv zeta. unfold play_frame, player_pass.
  pose proof (updated_score (aim inp) (controls inp) (camera w) (LEVEL_HEIGHT w)
                (platforms w) (bullets w) (events inp) (player w)) as Hsc.
  pose proof (update_bullets_cap (aim inp) (controls inp) (camera w) (LEVEL_HEIGHT w)
                (platforms w) (bullets w)
                (Player.handle_events (events inp) (player w))) as Hcap.
  unfold updated in *.
  destruct (Player.update (aim inp) (controls inp) (camera w) (LEVEL_HEIGHT w)
              (platforms w) (bullets w) (Player.handle_events (events inp) (player w)))
    as [[p bs] died].
  cbn [fst snd] in *.
  set (p1 := if died then Player.respawn p (respawn_point w) else p).
  assert (Hp1 : same_counters p1 p /\ Player.score p1 = Player.score p)
    by (subst p1; destruct died; unfold same_counters, same_build; cbn;
        repeat split; reflexivity).
  assert (Hpass :
            (if died
             then (Player.respawn p (respawn_point w), bs,
                   if Player.lives (Player.respawn p (respawn_point w)) <=? 0
                   then true else game_over w)
             else (p, bs, game_over w))
            = (p1, bs, if died
                       then (if Player.lives (Player.respawn p (respawn_point w)) <=? 0
                             then true else game_over w)
                       else game_over w))
    by (subst p1; destruct died; reflexivity).
  rewrite Hpass. clearbody p1. clear Hpass.
  destruct (enemies_update _ _ _ _ _ _ _) as [es ebs].
  pose proof (bullets_update_shrinks (LEVEL_WIDTH w) (LEVEL_HEIGHT w) bs) as Hbu.
  match goal with
  | |- context [bullet_hits ?a ?b ?c] =>
      pose proof (bullet_hits_shrinks a b c) as Hbh;
      destruct (bullet_hits a b c) as [[bs' es'] score]
  end.
  cbn [fst snd] in Hbh.
  destruct (enemy_bullet_hits _ _ _ _) as [[ebs' lives] go].
  match goal with
  | |- context [touch_enemy ?a ?b ?c] =>
      pose proof (touch_enemy_counters a b c) as Ht;
      destruct (touch_enemy a b c) as [p2 go2]
  end.
  cbn [fst] in Ht.
  match goal with
  | |- context [collect ?a ?b ?c] =>
      pose proof (collect_grows a b c) as Hco;
      destruct (collect a b c) as [cs score']
  end.
  cbn [snd] in Hco.
  match goal with
  | |- context [checkpoint_pass ?r ?c ?rp ?t] =>
      pose proof (checkpoint_pass_cases r c rp t) as Hcp;
      destruct (checkpoint_pass r c rp t) as [[cps rp'] timer]
  end.
  cbn [fst snd] in Hcp.
  pose proof (level_clear_spec es' cs (level_clear_cool w) timer) as Hlc.
  cbv zeta in Hlc.
  destruct (level_clear es' cs (level_clear_cool w) timer) as [cool' timer'].
  cbn [fst snd] in Hlc. destruct Hlc as (Hno & Hbusy & Hfire & Hcount).
  cbn [player bullets level_num win paused level_transition_timer level_clear_cool].
  destruct Ht as (Ht & Hts). destruct Hp1 as (Hp1 & Hp1s).
  cbn [Player.score Player.set_score Player.set_lives] in *.
  split.
  { unfold same_counters, same_build in *. cbn in *.
    destruct Ht as ((a & b & c & d & e & f) & g & h).
    destruct Hp1 as ((a' & b' & c' & d' & e' & f') & g' & h').
    repeat split; congruence. }
  split; [intros H6; specialize (Hcap H6); lia|].
  split; [lia|].
  split; [reflexivity|]. split; [reflexivity|]. split; [reflexivity|].
  assert (Ht0 : timer = level_transition_timer w \/ timer = TRANSITION_FRAMES).
  { destruct Hcp as [E|[_ E]]; [left; inversion E; reflexivity|right; exact E]. }
  unfold CLEAR_FRAMES, TRANSITION_FRAMES in *.
  destruct ((Z.of_nat (List.length es') =? 0) && (Z.of_nat (List.length cs) =? 0)).
  - destruct (Z.eq_dec timer 0) as [Hz|Hz].
    + destruct (Z_le_gt_dec 72 (level_clear_cool w)) as [Hc|Hc].
      * destruct (Hfire eq_refl Hz Hc) as [-> ->]. split; [right; reflexivity|lia].
      * destruct (Hcount eq_refl Hz ltac:(lia)) as [-> ->]. split; [lia|lia].
    + destruct (Hbusy eq_refl Hz) as [-> ->]. split; [lia|lia].
  - destruct (Hno eq_refl) as [-> ->]. split; [lia|lia].
Qed.

Lemma frozen_frame_bounds (inp : Input) (pz : bool) (w w' : World) :
  frozen_frame inp pz w = Continues w' ->
  same_counters (player w') (player w) /\
  bullets w' = bullets w /\
  level_clear_cool w' = level_clear_cool w /\ paused w' = pz /\
  (level_transition_timer w <= 0 ->
     level_transition_timer w' = level_transition_timer w /\
     level_num w' = level_num w /\ win w' = win w /\
     Player.score (player w') = Player.score (player w)) /\
  (1 < level_transition_timer w ->
     level_transition_timer w' = level_transition_timer w - 1 /\
     level_num w' = level_num w /\ win w' = win w /\
     Player.score (player w') = Player.score (player w)) /\
  (level_transition_timer w = 1 ->
     level_transition_timer w' = 0 /\ level_num w' = level_num w + 1 /\
     (MAX_LEVEL < level_num w + 1 ->
        win w' = true /\ Player.score (player w') = Player.score (player w)) /\
     (level_num w + 1 <= MAX_LEVEL ->
        win w' = win w /\
        Player.score (player w') = Player.score (player w) + 500 * (level_num w + 1))).
Proof.
  unfold frozen_frame, same_counters, same_build. intros H.
  destruct (Z.ltb_spec 0 (level_transition_timer w)) as [Hpos|Hpos].
  - destruct (Z.leb_spec (level_transition_timer w - 1) 0) as [Hend|Hend].
    + destruct (Z.ltb_spec MAX_LEVEL (level_num w + 1)) as [Hmax|Hmax].
      * inversion H; subst; cbn. repeat split; intros; try lia.
      * destruct (LevelManager.load_level _ _) as [[lv st]|]; [|discriminate].
        inversion H; subst; cbn. repeat split; intros; try lia.
    + inversion H; subst; cbn. repeat split; intros; try lia.
  - inversion H; subst; cbn. repeat split; intros; try lia.
Qed.

Lemma poll_events_proceed (evs : list Event) (go wn : bool) (t : Z) (pz pz' : bool) :
  poll_events evs go wn t pz = Proceed pz' ->
  negb go && negb wn && (t =? 0) = false -> pz' = pz.
Proof.
  revert pz. induction evs as [|e evs IH]; intros pz; cbn [poll_events].
  - intros H _. inversion H. reflexivity.
  - destruct e as [|k|]; [discriminate| |apply IH].
    destruct k; try discriminate; try apply IH.
    intros H Hoff. rewrite Hoff in H. exact (IH pz H Hoff).
Qed.

Lemma run_game_init_bounds (d : Disk) (rng : Rng) (w : World) :
  run_game_init d rng = Some w -> world_in_bounds w.
Proof.
  unfold run_game_init. destruct (LevelManager.load_level rng 1) as [[lv st]|];
    [|discriminate].
  intros H. inversion H; subst. unfold world_in_bounds, player_in_bounds.
  cbn. unfold JUMP_BUFFER, COYOTE_TIME, TRANSITION_FRAMES, CLEAR_FRAMES, MAX_LEVEL,
         PLAYER_SPEED, PLAYER_JUMP_POWER.
  repeat split; try lia; try reflexivity; auto; try discriminate.
Qed.

(** Every frame keeps the bounds, and the score does not go down. *)
Lemma frame_keeps_bounds (inp : Input) (d : Disk) (w w' : World) :
  world_in_bounds w -> frame inp d w = Continues w' ->
  world_in_bounds w' /\ Player.score (player w) <= Player.score (player w').
Proof.
  intros (Hp & Hb & Ht & Hc & Hl & Hpa & Hs) Hf.
  destruct (frame_cases inp d w w' Hf) as (pz & Hpoll & [[Hfz Hfr]|[Hpl ->]]).
  - destruct (frozen_frame_bounds inp pz w w' Hfr)
      as (Hcnt & Hbs & Hcool & Hpz & Hzero & Hdown & Hend).
    unfold world_in_bounds. unfold TRANSITION_FRAMES, CLEAR_FRAMES, MAX_LEVEL in *.
    rewrite Hbs, Hcool, Hpz.
    assert (Hpaused : 0 < level_transition_timer w -> pz = false).
    { intros Hpos. destruct pz eqn:E; [|reflexivity].
      assert (pz = paused w).
      { subst pz. apply (poll_events_proceed _ _ _ _ _ _ Hpoll).
        replace (level_transition_timer w =? 0) with false
          by (symmetry; apply Z.eqb_neq; lia).
        apply andb_false_r. }
      subst pz. symmetry in H. specialize (Hpa H). lia. }
    assert (Hcases : level_transition_timer w <= 0 \/ 1 < level_transition_timer w \/
                     level_transition_timer w = 1) by lia.
    destruct Hcases as [Hz|[Hgt|H1]].
    + destruct (Hzero Hz) as (A & B & C & D). rewrite A, B, C, D.
      split; [|lia].
      split; [exact (same_counters_bounds _ _ Hcnt Hp)|].
      repeat split; try lia; try assumption; try (intros _; lia).
    + destruct (Hdown Hgt) as (A & B & C & D). rewrite A, B, C, D.
      split; [|lia].
      split; [exact (same_counters_bounds _ _ Hcnt Hp)|].
      split; [exact Hb|]. split; [lia|]. split; [lia|].
      split; [destruct Hl as [Hl|(_ & _ & Hl)]; [left; exact Hl|lia]|].
      split; [intros E; rewrite (Hpaused ltac:(lia)) in E; discriminate|exact Hs].
    + destruct (Hend H1) as (A & B & Hw & Hn). rewrite A, B.
      destruct Hl as [(Hwin & Hlv)|(_ & _ & Hl)]; [|lia].
      destruct (Z_lt_le_dec 6 (level_num w + 1)) as [Hmax|Hmax].
      * destruct (Hw Hmax) as (C & D). rewrite C, D.
        split; [|lia].
        split; [exact (same_counters_bounds _ _ Hcnt Hp)|].
        repeat split; try lia; try assumption; try (intros _; lia);
          try (right; repeat split; lia).
      * destruct (Hn Hmax) as (C & D). rewrite C, D.
        split; [|lia].
        split; [exact (same_counters_bounds _ _ Hcnt Hp)|].
        repeat split; try lia; try assumption; try (intros _; lia);
          try (left; split; [exact Hwin|lia]).
  - apply orb_false_iff in Hpl. destruct Hpl as [Hpl Htm].
    apply orb_false_iff in Hpl. destruct Hpl as [Hpl Hwin].
    apply orb_false_iff in Hpl. destruct Hpl as [Hpz Hgo].
    apply Z.ltb_ge in Htm.
    destruct (play_frame_bounds inp pz w) as (Hcnt & Hcap & Hsc & Hlv & Hw & Hpz' & Htm' & Hcl).
    unfold world_in_bounds. unfold TRANSITION_FRAMES, CLEAR_FRAMES, MAX_LEVEL in *.
    rewrite Hlv, Hw, Hpz'.
    split; [|exact Hsc].
    split.
    { apply (same_counters_bounds _ _ Hcnt). apply update_in_bounds. exact Hp. }
    split; [apply Hcap, Hb|].
    split; [lia|]. split; [apply Hcl, Hc|].
    split; [destruct Hl as [Hl|(Hl & _)]; [left; exact Hl|congruence]|].
    split; [intros E; congruence|lia].
Qed.

Lemma run_game_bounds (d : Disk) (rng : Rng) (inputs : list Input) (w : World) :
  run_game d rng inputs = Continues w -> world_in_bounds w.
Proof.
  apply (run_game_invariant world_in_bounds).
  - exact run_game_init_bounds.
  - intros inp d0 w0 w1 Hw Hf. exact (proj1 (frame_keeps_bounds inp d0 w0 w1 Hw Hf)).
Qed.

(** X9.  In every session, at the end of every frame, the player's frame
    counters are within their ranges: the dash cooldown within 0..44 (a dash
    sets 45 and the same update already takes one off), the jump buffer within
    0..[JUMP_BUFFER], the coyote timer within 0..[COYOTE_TIME]; the facing is
    1 or -1 and the sprite keeps its 34 by 46 size, its speed and its jump
    power.  A single [handle_events] and [update] keeps these ranges from any
    state that has them. *)
Theorem player_counters_in_bounds :
  (forall d rng inputs w,
     run_game d rng inputs = Continues w -> player_in_bounds (player w)) /\
  (forall aim c camera LH platforms bs evs p,
     player_in_bounds p ->
     player_in_bounds
       (updated aim c camera LH platforms bs (Player.handle_events evs p))).
Proof.
  split.
  - intros d rng inputs w Hrun. exact (proj1 (run_game_bounds d rng inputs w Hrun)).
  - intros. apply update_in_bounds. assumption.
Qed.

(** X10.  Shooting is capped: [update] adds at most one bullet, and none when
    six are alive or the button is up, and in every session there are never
    more than six player bullets at the end of a frame. *)
Theorem player_bullets_capped :
  (forall d rng inputs w,
     run_game d rng inputs = Continues w -> (List.length (bullets w) <= 6)%nat) /\
  (forall aim c camera p bs,
     let bs' := Player.update_shoot aim c camera p bs in
     (mouse_left c = false -> bs' = bs) /\
     ((6 <= List.length bs)%nat -> bs' = bs) /\
     (mouse_left c = true -> (List.length bs < 6)%nat ->
        exists b, bs' = bs ++ [b] /\ Bullet.owner b = owner_player /\
                  Rect.center (Bullet.rect b) = Rect.center (Player.rect p))).
Proof.
  split.
  - intros d rng inputs w Hrun.
    exact (proj1 (proj2 (run_game_bounds d rng inputs w Hrun))).
  - intros aim c camera p bs. cbv zeta. unfold Player.update_shoot.
    split; [intros ->; reflexivity|].
    split.
    + intros H6. destruct (mouse_left c); [|reflexivity].
      destruct (Z.ltb_spec (Z.of_nat (List.length bs)) 6); [lia|reflexivity].
    + intros -> H6.
      destruct (Z.ltb_spec (Z.of_nat (List.length bs)) 6); [|lia].
      eexists. split; [reflexivity|]. split; [reflexivity|].
      unfold Bullet.__init__, Rect.center, Rect.centerx, Rect.centery, Rect.set_center.
      cbn. f_equal; lia.
Qed.

(** X11.  In every session the loop's own counters stay in range: the
    transition countdown within 0..54, the clear counter within 0..72, the
    stage index within 1..[MAX_LEVEL] until the game is won and exactly
    [MAX_LEVEL + 1] once it is won, with no countdown running then; and a
    paused game never has a countdown running. *)
Theorem lifecycle_counters_in_bounds (d : Disk) (rng : Rng) (inputs : list Input)
    (w : World) :
  run_game d rng inputs = Continues w ->
  0 <= level_transition_timer w <= TRANSITION_FRAMES /\
  0 <= level_clear_cool w <= CLEAR_FRAMES /\
  ((win w = false /\ 1 <= level_num w <= MAX_LEVEL) \/
   (win w = true /\ level_num w = MAX_LEVEL + 1 /\ level_transition_timer w = 0)) /\
  (paused w = true -> level_transition_timer w = 0).
Proof.
  intros Hrun. destruct (run_game_bounds d rng inputs w Hrun)
    as (_ & _ & Ht & Hc & Hl & Hp & _).
  repeat split; try apply Ht; try apply Hc; assumption.
Qed.

(** X12.  In every session the score is never negative and no frame lowers
    it. *)
Theorem score_never_decreases (d : Disk) (rng : Rng) (inputs : list Input) (w : World) :
  run_game d rng inputs = Continues w ->
  0 <= Player.score (player w) /\
  forall inp w', frame inp d w = Continues w' ->
                 Player.score (player w) <= Player.score (player w').
Proof.
  intros Hrun. pose proof (run_game_bounds d rng inputs w Hrun) as Hb.
  split; [apply Hb|].
  intros inp w' Hf. exact (proj2 (frame_keeps_bounds inp d w w' Hb Hf)).
Qed.

Lemma lifecycle_counters_in_bounds_witness :
  exists w, run_game None ambush_rng (repeat hold_left 65) = Continues w /\
            level_num w = 1 /\ 0 <= level_transition_timer w <= 54.
Proof.
  eexists. split; [vm_compute; reflexivity|].
  split; [reflexivity|].
  refine (proj1 (lifecycle_counters_in_bounds None ambush_rng (repeat hold_left 65) _ _)).
  vm_compute. reflexivity.
Defined.

Lemma score_never_decreases_witness :
  exists w, run_game None ambush_rng (repeat hold_left 10) = Continues w /\
            0 <= Player.score (player w).
Proof.
  eexists. split; [vm_compute; reflexivity|].
  refine (proj1 (score_never_decreases None ambush_rng (repeat hold_left 10) _ _)).
  vm_compute. reflexivity.
Defined.

(** ** The player's movement *)

(** X13.  Coyote time: while the coyote timer is positive, [update] does
    exactly what it does for a player that was grounded on the previous frame,
    whatever else the state and the input are; in particular a buffered jump
    then fires at full jump power, recharges the double jump and clears the
    buffer. *)
Theorem coyote_jump_is_ground_jump (aim : Aim) (c : Controls) (camera : Camera.t)
    (LH : Z) (platforms : list Platform.t) (bs : list Bullet.t) (p : Player.t) :
  0 < Player.coyote_timer p ->
  Player.update aim c camera LH platforms bs p
    = Player.update aim c camera LH platforms bs (Player.set_on_ground p true) /\
  (0 < Player.jump_buffer p ->
     let m := Player.update_controls c p in
     Player.vel_y m = inject_Z (Player.jump_power p) /\
     Player.double_jump m = true /\ Player.jump_buffer m = 0 /\
     Player.on_ground m = false).
Proof.
  intros Hc.
  destruct (update_move_keeps c (Player.set_on_ground p false))
    as (_ & _ & Hjp & _ & _ & Hct & Hjb & _).
  cbn [Player.set_on_ground Player.coyote_timer Player.jump_buffer Player.jump_power] in *.
  assert (Hjump : forall prev,
             Player.update_jump prev (Player.update_move c (Player.set_on_ground p false))
             = Player.update_jump true
                 (Player.update_move c (Player.set_on_ground p false))).
  { intros prev. unfold Player.update_jump. rewrite Hct.
    replace (0 <? Player.coyote_timer p) with true by (symmetry; apply Z.ltb_lt; lia).
    rewrite orb_true_r. reflexivity. }
  split.
  - rewrite !update_after_controls. f_equal.
    unfold Player.update_controls. cbv zeta.
    cbn [Player.set_on_ground Player.on_ground].
    change (Player.set_on_ground (Player.set_on_ground p true) false)
      with (Player.set_on_ground p false).
    apply Hjump.
  - intros Hb. cbv zeta. unfold Player.update_controls. cbv zeta. rewrite Hjump.
    unfold Player.update_jump. rewrite Hjb.
    replace (0 <? Player.jump_buffer p) with true by (symmetry; apply Z.ltb_lt; lia).
    cbn. rewrite Hjp. repeat split; reflexivity.
Qed.

Lemma coyote_jump_is_ground_jump_witness :
  Player.vel_y
    (Player.update_controls no_keys
       (Player.set_on_ground (Player.set_jump_buffer rester 8) false))
    = inject_Z (-15).
Proof.
  exact (proj1 (proj2 (coyote_jump_is_ground_jump no_aim no_keys (Camera.__init__ 960 640)
                         480 [corner_tile] []
                         (Player.set_on_ground (Player.set_jump_buffer rester 8) false)
                         eq_refl) eq_refl)).
Defined.

Lemma update_move_waits (c : Controls) (p : Player.t) :
  0 < Player.dash_cooldown p ->
  Player.dash_cooldown (Player.update_move c p) = Player.dash_cooldown p - 1 /\
  Player.vel_x (Player.update_move c p) =
    if k_d c || k_RIGHT c then inject_Z (Player.speed p)
    else if k_a c || k_LEFT c then inject_Z (- Player.speed p) else 0%Q.
Proof.
  intros Hcd. destruct p. unfold Player.update_move. cbn in Hcd.
  destruct (k_a c || k_LEFT c); destruct (k_d c || k_RIGHT c); destruct (k_LSHIFT c);
    cbn;
    repeat match goal with
           | |- context [?a <=? ?b] => destruct (Z.leb_spec a b)
           | |- context [?a <? ?b] => destruct (Z.ltb_spec a b)
           end; cbn in *; try lia; split; reflexivity.
Qed.

Lemma move_run_cooldown (cs : list Controls) (p : Player.t) :
  Z.of_nat (List.length cs) <= Player.dash_cooldown p ->
  Player.dash_cooldown (move_run cs p) = Player.dash_cooldown p - Z.of_nat (List.length cs).
Proof.
  unfold move_run. revert p.
  induction cs as [|c cs IH]; intros p Hn; cbn [fold_left List.length] in *; [lia|].
  rewrite Nat2Z.inj_succ in *.
  destruct (update_move_waits c p ltac:(lia)) as (Hstep & _).
  rewrite IH; lia.
Qed.

(** X14.  The dash.  With the shift key held and the cooldown at zero the
    horizontal velocity is 18 in the facing direction, the facing being the
    one of the direction key held in the same frame (right wins over left),
    and the cooldown is left at 44.  While the cooldown is positive the shift
    key does nothing: the velocity is 0 or plus or minus the walking speed and
    the cooldown goes down by one, so that after a dash the next 44 frames
    cannot dash. *)
Theorem dash_needs_cooldown (c : Controls) (p : Player.t) :
  let m := Player.update_move c p in
  (Player.facing m =
     if k_d c || k_RIGHT c then 1
     else if k_a c || k_LEFT c then -1 else Player.facing p) /\
  (k_LSHIFT c = true -> Player.dash_cooldown p <= 0 ->
     Player.vel_x m = inject_Z (18 * Player.facing m) /\ Player.dash_cooldown m = 44) /\
  (0 < Player.dash_cooldown p ->
     Player.dash_cooldown m = Player.dash_cooldown p - 1 /\
     Player.vel_x m =
       if k_d c || k_RIGHT c then inject_Z (Player.speed p)
       else if k_a c || k_LEFT c then inject_Z (- Player.speed p) else 0%Q) /\
  (forall cs, Z.of_nat (List.length cs) <= Player.dash_cooldown p ->
     Player.dash_cooldown (move_run cs p)
       = Player.dash_cooldown p - Z.of_nat (List.length cs)).
Proof.
  cbv zeta. split; [|split; [|split]].
  - destruct p. unfold Player.update_move. cbn.
    destruct (k_a c || k_LEFT c); destruct (k_d c || k_RIGHT c); destruct (k_LSHIFT c);
      cbn; repeat break_if; reflexivity.
  - intros Hs Hcd. destruct p. unfold Player.update_move. cbn in Hcd. rewrite Hs.
    destruct (k_a c || k_LEFT c); destruct (k_d c || k_RIGHT c); cbn;
      repeat match goal with
             | |- context [?a <=? ?b] => destruct (Z.leb_spec a b)
             | |- context [?a <? ?b] => destruct (Z.ltb_spec a b)
             end; cbn in *; try lia; split; reflexivity.
  - intros Hcd. apply update_move_waits, Hcd.
  - intros cs. apply move_run_cooldown.
Qed.

Lemma dash_needs_cooldown_witness :
  Player.vel_x (Player.update_move shift_key rester) = inject_Z 18 /\
  Player.dash_cooldown (Player.update_move shift_key rester) = 44 /\
  Player.vel_x (Player.update_move shift_key (Player.update_move shift_key rester)) = 0%Q.
Proof.
  destruct (dash_needs_cooldown shift_key rester) as (_ & Hdash & _).
  destruct (Hdash eq_refl ltac:(vm_compute; discriminate)) as (Hv & Hc).
  split; [exact Hv|]. split; [exact Hc|].
  destruct (dash_needs_cooldown shift_key (Player.update_move shift_key rester))
    as (_ & _ & Hwait & _).
  exact (proj2 (Hwait ltac:(vm_compute; reflexivity))).
Defined.

(** X15.  After the vertical move and [collide(platforms, 'y')]: without
    contact only the position has changed; with contact and a non-zero
    [vel.y] the velocity is zeroed and the player is put against the first
    contacted platform (group order), on top of it and grounded when falling,
    under it and not grounded by it when rising, so that it overlaps no
    platform whose facing edge lies at or beyond that platform's.  The
    horizontal position and velocity are never changed. *)
Theorem resolve_y_first_contact (platforms : list Platform.t) (p : Player.t) :
  positive (Player.rect p) ->
  Forall positive platforms ->
  let p' := Player.resolve_y platforms p in
  (Rect.x (Player.rect p') = Rect.x (Player.rect p) /\
   Player.vel_x p' = Player.vel_x p) /\
  match hits_y platforms p with
  | [] =>
      p' = Player.set_rect p (Rect.move (Player.rect p) 0 (py_round (Player.vel_y p)))
  | h :: _ =>
      (fpos (Player.vel_y p) = true ->
         Player.vel_y p' = 0%Q /\ Player.on_ground p' = true /\
         Rect.bottom (Player.rect p') = Rect.top h /\
         forall q, In q platforms -> Rect.top h <= Rect.top q ->
                   Rect.colliderect (Player.rect p') q = false) /\
      (fneg (Player.vel_y p) = true ->
         Player.vel_y p' = 0%Q /\ Player.on_ground p' = Player.on_ground p /\
         Rect.top (Player.rect p') = Rect.bottom h /\
         forall q, In q platforms -> Rect.bottom q <= Rect.bottom h ->
                   Rect.colliderect (Player.rect p') q = false)
  end.
Proof.
  intros Hp Hps p'. subst p'.
  split; [apply resolve_y_keeps_x|].
  rewrite resolve_y_cases. cbv zeta.
  destruct (hits_y platforms p) as [|h hits] eqn:Hh; [reflexivity|].
  unfold Player.collide_hit. cbn [String.eqb Ascii.eqb Bool.eqb].
  cbn [Player.vel_y Player.set_rect Player.rect].
  destruct Hp as [Hw Hhh].
  split.
  - intros Hpos. rewrite Hpos. cbn.
    split; [reflexivity|]. split; [reflexivity|].
    split; [unfold Rect.bottom, Rect.top; cbn; lia|].
    intros q Hq Hle. pose proof (positive_forall_in _ _ Hps Hq) as Hqp.
    apply colliderect_false_positive; [split; cbn; assumption|assumption|].
    unfold Rect.top in *. cbn. lia.
  - intros Hneg.
    assert (Hnpos : fpos (Player.vel_y p) = false).
    { unfold fpos, fneg in *. apply Z.ltb_lt in Hneg. apply Z.ltb_ge. lia. }
    rewrite Hnpos, Hneg. cbn.
    split; [reflexivity|]. split; [reflexivity|]. split; [reflexivity|].
    intros q Hq Hle. pose proof (positive_forall_in _ _ Hps Hq) as Hqp.
    apply colliderect_false_positive; [split; cbn; assumption|assumption|].
    unfold Rect.bottom in *. cbn. lia.
Qed.

Lemma resolve_y_first_contact_witness :
  Rect.bottom
    (Player.rect (Player.resolve_y [corner_tile]
                    (Player.set_vel_y (Player.set_on_ground rester false) (4 # 5))))
    = 96 /\
  Player.on_ground
    (Player.resolve_y [corner_tile]
       (Player.set_vel_y (Player.set_on_ground rester false) (4 # 5))) = true.
Proof.
  pose proof (resolve_y_first_contact [corner_tile]
                (Player.set_vel_y (Player.set_on_ground rester false) (4 # 5))
                (conj eq_refl eq_refl)
                (Forall_cons corner_tile (conj eq_refl eq_refl) (Forall_nil positive)))
    as H.
  cbv zeta in H. destruct H as (_ & H).
  change (hits_y [corner_tile]
            (Player.set_vel_y (Player.set_on_ground rester false) (4 # 5)))
    with [corner_tile] in H.
  destruct H as (Hdown & _). destruct (Hdown eq_refl) as (_ & Hg & Hb & _).
  split; [exact Hb|exact Hg].
Defined.

(** X16.  Resting contact is stable.  A player with zero velocity standing on
    a platform, with no platform reaching above the level of its feet, is
    after the physics step where it was: gravity moves it one pixel into the
    platform and the Y pass puts it back, grounded and with zero velocity. *)
Theorem standing_is_stable (platforms : list Platform.t) (p : Player.t) (q : Platform.t) :
  positive (Player.rect p) -> Forall positive platforms ->
  Player.vel_x p = 0%Q -> Player.vel_y p = 0%Q ->
  (forall r, In r platforms -> Rect.bottom (Player.rect p) <= Rect.top r) ->
  In q platforms -> stands_on p q ->
  let p' := Player.update_physics platforms p in
  Player.rect p' = Player.rect p /\
  Player.vel_x p' = 0%Q /\ Player.vel_y p' = 0%Q /\
  Player.on_ground p' = true.
Proof.
  intros Hp Hps Hvx Hvy Hfloor Hq (Htop & Hl & Hr). cbv zeta.
  assert (Hclear : clear_of_rows platforms (Player.apply_gravity p))
    by (intros r Hin; left; apply Hfloor, Hin).
  assert (Hfree : hits_x platforms (Player.apply_gravity p) = [])
    by (apply corner_x_pass_free; assumption).
  assert (Hpx : Player.resolve_x platforms (Player.apply_gravity p) =
                Player.set_rect (Player.apply_gravity p) (Rect.move (Player.rect p) 0 0)).
  { rewrite resolve_x_cases. cbv zeta. rewrite Hfree.
    cbn [Player.apply_gravity Player.set_vel_y Player.vel_x Player.rect].
    rewrite Hvx. reflexivity. }
  unfold Player.update_physics. rewrite resolve_y_cases. cbv zeta. rewrite Hpx.
  assert (Hg : Player.vel_y (Player.apply_gravity p) = (4 # 5)%Q)
    by (cbn [Player.apply_gravity Player.set_vel_y Player.vel_y]; rewrite Hvy; reflexivity).
  assert (Hmove : Rect.move (Rect.move (Player.rect p) 0 0) 0 1
                  = Rect.move (Player.rect p) 0 1)
    by (unfold Rect.move; cbn; f_equal; lia).
  pose proof (positive_forall_in _ _ Hps Hq) as Hqp.
  destruct Hp as [Hw Hh]. destruct Hqp as [Hqw Hqh].
  assert (Hin : In q (hits_y platforms
                        (Player.set_rect (Player.apply_gravity p)
                           (Rect.move (Player.rect p) 0 0)))).
  { unfold hits_y, spritecollide. apply filter_In. split; [assumption|].
    cbn [Player.rect Player.set_rect Player.vel_y]. rewrite Hg.
    change (py_round (4 # 5)) with 1. rewrite Hmove.
    apply colliderect_positive; [split; cbn; assumption|split; assumption|].
    unfold Rect.top, Rect.bottom, Rect.left, Rect.right in *. cbn. lia. }
  destruct (hits_y _ _) as [|h hits] eqn:Hhits; [contradiction|].
  unfold hits_y, spritecollide in Hhits. apply hits_head_in in Hhits.
  destruct Hhits as [Hhin Hhc].
  cbn [Player.rect Player.set_rect Player.vel_y] in Hhc. rewrite Hg in Hhc.
  change (py_round (4 # 5)) with 1 in Hhc. rewrite Hmove in Hhc.
  pose proof (positive_forall_in _ _ Hps Hhin) as Hhp.
  apply colliderect_positive in Hhc; [|split; cbn; assumption|assumption].
  pose proof (Hfloor h Hhin) as Hfh.
  unfold Player.collide_hit. cbn [String.eqb Ascii.eqb Bool.eqb].
  cbn [Player.rect Player.set_rect Player.vel_y Player.vel_x]. rewrite Hg.
  change (py_round (4 # 5)) with 1. change (fpos (4 # 5)) with true. cbn.
  cbn [Player.apply_gravity Player.set_vel_y Player.vel_x].
  split; [|repeat split; try reflexivity; assumption].
  unfold Rect.top, Rect.bottom, Rect.set_bottom, Rect.move in *.
  cbn in *. destruct (Player.rect p); cbn in *. f_equal; lia.
Qed.

Lemma standing_is_stable_witness :
  Player.rect (Player.update_physics [corner_tile] rester) = Player.rect rester /\
  Player.on_ground (Player.update_physics [corner_tile] rester) = true.
Proof.
  destruct (standing_is_stable [corner_tile] rester corner_tile
              (conj eq_refl eq_refl)
              (Forall_cons corner_tile (conj eq_refl eq_refl) (Forall_nil positive))
              eq_refl eq_refl
              (fun r Hr => match Hr with
                           | or_introl e =>
                               eq_ind corner_tile
                                 (fun t => Rect.bottom (Player.rect rester) <= Rect.top t)
                                 ltac:(vm_compute; discriminate) r e
                           | or_intror f => False_ind _ f
                           end)
              (or_introl eq_refl)
              (conj eq_refl (conj eq_refl eq_refl)))
    as (Hr & _ & _ & Hg).
  split; assumption.
Defined.

(** ** Falling out of the level *)

Lemma midbottom_set_midbottom (r : Rect.t) (pt : Z * Z) :
  Rect.midbottom (Rect.set_midbottom r pt) = pt.
Proof.
  destruct pt as [a b]. unfold Rect.midbottom, Rect.set_midbottom, Rect.centerx, Rect.bottom.
  cbn. f_equal; lia.
Qed.

Lemma update_controls_tally (c : Controls) (p : Player.t) :
  Player.lives (Player.update_controls c p) = Player.lives p /\
  Player.score (Player.update_controls c p) = Player.score p.
Proof.
  unfold Player.update_controls, Player.update_jump, Player.update_move.
  repeat break_if; split; reflexivity.
Qed.

(** X17.  The falling death.  When [update] leaves the player's top edge more
    than 200 pixels below the level, the frame's player pass takes one life,
    puts the player at rest with the middle of its feet on the current
    respawn point, and sets the game over exactly when no life is left;
    otherwise the pass is [update] alone and changes neither the lives nor
    the game-over flag.  The bullets fired in the frame are kept either way. *)
Theorem fall_costs_a_life (inp : Input) (w : World) :
  let q := before_fall_test inp w in
  let p := fst (fst (player_pass inp w)) in
  let bs := snd (fst (player_pass inp w)) in
  let go := snd (player_pass inp w) in
  bs = Player.update_shoot (aim inp) (controls inp) (camera w) q (bullets w) /\
  (LEVEL_HEIGHT w + 200 < Rect.top (Player.rect q) ->
     Rect.midbottom (Player.rect p) = respawn_point w /\
     Rect.w (Player.rect p) = Rect.w (Player.rect q) /\
     Rect.h (Player.rect p) = Rect.h (Player.rect q) /\
     Player.vel_x p = 0%Q /\ Player.vel_y p = 0%Q /\
     Player.lives p = Player.lives (player w) - 1 /\
     Player.score p = Player.score (player w) /\
     go = (Player.lives (player w) - 1 <=? 0) || game_over w) /\
  (Rect.top (Player.rect q) <= LEVEL_HEIGHT w + 200 ->
     p = q /\ Player.lives p = Player.lives (player w) /\ go = game_over w).
Proof.
  cbv zeta. unfold player_pass, Player.update, before_fall_test.
  set (q := Player.update_grounded _).
  assert (Hl : Player.lives q = Player.lives (player w) /\
               Player.score q = Player.score (player w)).
  { subst q.
    pose proof (handle_events_keeps (events inp) (player w)) as Hh. cbv zeta in Hh.
    destruct Hh as (_ & _ & _ & _ & _ & _ & Hhl & Hhs).
    pose proof (update_physics_keeps (platforms w)
                  (Player.update_controls (controls inp)
                     (Player.handle_events (events inp) (player w)))) as Hp.
    cbv zeta in Hp. destruct Hp as (_ & _ & _ & _ & Hpl & Hps).
    destruct (update_controls_tally (controls inp)
                (Player.handle_events (events inp) (player w))) as [Hcl Hcs].
    unfold Player.update_grounded.
    repeat break_if; cbn; split; congruence. }
  destruct Hl as [Hl Hs].
  destruct (Z.ltb_spec (LEVEL_HEIGHT w + 200) (Rect.top (Player.rect q))) as [Hf|Hf].
  - split; [reflexivity|]. split; [|intros; lia]. intros _.
    cbn [fst snd].
    split; [apply midbottom_set_midbottom|].
    cbn. repeat split; try congruence.
    rewrite Hl. destruct (Player.lives (player w) - 1 <=? 0); reflexivity.
  - split; [reflexivity|]. split; [intros; lia|]. intros _.
    cbn [fst snd]. auto.
Qed.

Lemma fall_costs_a_life_witness :
  Player.lives (fst (fst (player_pass idle_input falling_world))) = 2 /\
  Rect.midbottom (Player.rect (fst (fst (player_pass idle_input falling_world))))
    = (120, 96).
Proof.
  destruct (fall_costs_a_life idle_input falling_world) as (_ & Hfall & _).
  destruct (Hfall ltac:(vm_compute; reflexivity)) as (Hm & _ & _ & _ & _ & Hl & _).
  split; [exact Hl|exact Hm].
Defined.

(** ** The enemies *)

Lemma any_collides_false (platforms : list Platform.t) (r : Rect.t) :
  Enemy.any_collides platforms r = false <->
  forall q, In q platforms -> Rect.colliderect q r = false.
Proof.
  unfold Enemy.any_collides. induction platforms as [|p ps IH]; cbn.
  - split; [intros _ q []|reflexivity].
  - rewrite orb_false_iff, IH. split.
    + intros [Hp Hps] q [<-|Hq]; auto.
    + intros H. split; [apply H; left; reflexivity|intros q Hq; apply H; right; exact Hq].
Qed.

Lemma any_collides_true (platforms : list Platform.t) (r : Rect.t) :
  Enemy.any_collides platforms r = true <->
  exists q, In q platforms /\ Rect.colliderect q r = true.
Proof. unfold Enemy.any_collides. apply existsb_exists. Qed.

(** X18.  A patrol never walks into a platform or off its ledge.  Its walk
    ignores the player; when no platform lies under the probe ahead of its
    feet, or its step would overlap a platform, it turns round and stays
    where it is; otherwise it keeps its direction and takes the step, and the
    rectangle it ends on overlaps no platform. *)
Theorem patrol_step_is_safe (platforms : list Platform.t)
    (player_rect other_rect : Rect.t) (e : Enemy.t) :
  Enemy.type e = patrol ->
  let e' := Enemy.update_walk platforms player_rect e in
  Enemy.update_walk platforms other_rect e = e' /\
  Enemy.type e' = patrol /\ Enemy.speed e' = Enemy.speed e /\
  (((Enemy.ground_hit platforms e = false \/ Enemy.wall_hit platforms e = true) /\
    Enemy.rect e' = Enemy.rect e /\ Enemy.dir e' = - Enemy.dir e)
   \/
   ((exists q, In q platforms /\ Rect.colliderect q (Enemy.ahead_rect e) = true) /\
    Enemy.rect e' = Enemy.proposed_rect e /\ Enemy.dir e' = Enemy.dir e /\
    forall q, In q platforms -> Rect.colliderect q (Enemy.rect e') = false)).
Proof.
  intros Ht. cbv zeta. unfold Enemy.update_walk. rewrite Ht.
  split; [reflexivity|].
  destruct (Enemy.ground_hit platforms e) eqn:Hg;
    destruct (Enemy.wall_hit platforms e) eqn:Hw; cbn [negb orb];
    cbn [Enemy.type Enemy.speed Enemy.rect Enemy.dir];
    (split; [first [exact Ht|reflexivity]|]); (split; [reflexivity|]).
  - left. split; [right; reflexivity|]. split; [reflexivity|lia].
  - right. split; [apply any_collides_true, Hg|].
    split; [reflexivity|]. split; [reflexivity|].
    apply any_collides_false, Hw.
  - left. split; [left; reflexivity|]. split; [reflexivity|lia].
  - left. split; [left; reflexivity|]. split; [reflexivity|lia].
Qed.

Lemma patrol_step_is_safe_witness :
  Enemy.rect (Enemy.update_walk [corner_tile] left_player_rect patroller)
    = Rect.mk 101 56 36 40 /\
  Rect.colliderect corner_tile
    (Enemy.rect (Enemy.update_walk [corner_tile] left_player_rect patroller)) = false.
Proof.
  destruct (patrol_step_is_safe [corner_tile] left_player_rect left_player_rect
              patroller eq_refl) as (_ & _ & _ & [(_ & _ & Hd)|(_ & Hr & _ & Hfree)]).
  - vm_compute in Hd. discriminate Hd.
  - split; [exact Hr|apply Hfree; left; reflexivity].
Defined.

Lemma land_fold_speed (hits : list Platform.t) (a : Enemy.t) :
  Enemy.speed (fold_left Enemy.land_hit hits a) = Enemy.speed a /\
  Enemy.shoot_timer (fold_left Enemy.land_hit hits a) = Enemy.shoot_timer a.
Proof.
  revert a. induction hits as [|h hs IH]; intros a; [split; reflexivity|].
  cbn [fold_left]. destruct (IH (Enemy.land_hit a h)) as [-> ->].
  unfold Enemy.land_hit. break_if; split; reflexivity.
Qed.

Lemma update_fall_speed (platforms : list Platform.t) (e : Enemy.t) :
  Enemy.speed (Enemy.update_fall platforms e) = Enemy.speed e /\
  Enemy.shoot_timer (Enemy.update_fall platforms e) = Enemy.shoot_timer e.
Proof.
  unfold Enemy.update_fall. cbv zeta.
  match goal with |- context [fold_left _ ?l ?a] =>
    destruct (land_fold_speed l a) as [-> ->]
  end.
  split; reflexivity.
Qed.

Lemma enemy_update_fired (aim : Aim) (new_timer : Z) (platforms : list Platform.t)
    (r : Rect.t) (ebs : list Bullet.t) (e : Enemy.t) :
  let res := Enemy.update aim new_timer platforms r ebs e in
  Enemy.type (fst res) = Enemy.type e /\
  Enemy.speed (fst res) = Enemy.speed e /\
  snd res = ebs ++
    (if fires e
     then [Bullet.__init__ aim (Rect.center (Enemy.rect e))
             (Rect.centery r - Rect.centery (Enemy.rect e),
              Rect.centerx r - Rect.centerx (Enemy.rect e)) 6 owner_enemy]
     else []).
Proof.
  cbv zeta. unfold Enemy.update, fires. cbn [fst snd].
  match goal with |- context [Enemy.update_fall platforms ?a] =>
    destruct (update_fall_keeps platforms a) as (_ & _ & _ & Ht);
    destruct (update_fall_speed platforms a) as (Hs & _)
  end.
  cbv zeta in Ht. rewrite Ht, Hs.
  destruct (Enemy.type e) eqn:Hty; cbn [fst snd].
  - rewrite app_nil_r. unfold Enemy.update_walk. rewrite Hty.
    repeat break_if; auto.
  - rewrite app_nil_r. unfold Enemy.update_walk. rewrite Hty.
    repeat break_if; auto.
  - unfold Enemy.update_shoot. cbv zeta.
    destruct (Enemy.shoot_timer e - 1 <=? 0); cbn [fst snd Enemy.type Enemy.speed].
    + auto.
    + rewrite app_nil_r. auto.
Qed.

(** X19.  One pass of the loop over the enemies keeps their number, types and
    speeds, and only shooters fire: the enemy bullet group grows at its end
    by exactly one 8 by 8 bullet of owner ['enemy'] for each shooter whose
    countdown runs out in this frame; patrols and chasers add none. *)
Theorem only_shooters_fire (aim : Aim) (draw : nat -> Z) (i : nat)
    (platforms : list Platform.t) (r : Rect.t) (es : list Enemy.t)
    (ebs : list Bullet.t) :
  let res := enemies_update aim draw i platforms r es ebs in
  map Enemy.type (fst res) = map Enemy.type es /\
  map Enemy.speed (fst res) = map Enemy.speed es /\
  exists fired,
    snd res = ebs ++ fired /\
    List.length fired = List.length (filter fires es) /\
    Forall (fun b => Bullet.owner b = owner_enemy /\
                     Rect.w (Bullet.rect b) = 8 /\ Rect.h (Bullet.rect b) = 8) fired.
Proof.
  cbv zeta. revert i ebs. induction es as [|e es IH]; intros i ebs.
  - cbn. repeat split. exists []. rewrite app_nil_r. repeat split. constructor.
  - cbn [enemies_update]. cbv zeta. cbn [fst snd map filter].
    destruct (enemy_update_fired aim (draw i) platforms r ebs e) as (Ht & Hs & Hb).
    cbv zeta in Ht, Hs, Hb.
    destruct (IH (S i) (snd (Enemy.update aim (draw i) platforms r ebs e)))
      as (IHt & IHs & fired & IHb & IHl & IHf).
    rewrite Ht, Hs, IHt, IHs. split; [reflexivity|]. split; [reflexivity|].
    rewrite IHb, Hb, <- app_assoc.
    eexists. split; [reflexivity|].
    destruct (fires e); cbn [app List.length].
    + split; [rewrite IHl; reflexivity|].
      constructor; [|exact IHf]. cbn. repeat split.
    + split; assumption.
Qed.

Lemma land_fold_rest (hits : list Platform.t) (e : Enemy.t) :
  fpos (Enemy.vel_y e) = false -> fold_left Enemy.land_hit hits e = e.
Proof.
  intros Hv. induction hits as [|h hs IH]; [reflexivity|].
  cbn [fold_left]. unfold Enemy.land_hit at 2. rewrite Hv. cbn [andb]. exact IH.
Qed.

(** X20.  An enemy that is not moving up gains gravity and moves down by the
    rounded speed, as long as the moved rectangle stays within the coordinate
    range of [pygame.Rect] (beyond it the assignment to [rect.y] raises, which
    is not followed here).  If the moved rectangle overlaps no platform the
    enemy keeps falling; otherwise it is put on top of the first platform hit
    (group order) with its fall stopped, and with platforms at non-negative
    heights it is again within the range.  Its horizontal position and its
    size never change. *)
Theorem enemy_lands_on_first_hit (platforms : list Platform.t) (e : Enemy.t) :
  positive (Enemy.rect e) -> Forall positive platforms ->
  Forall (fun q => 0 <= Rect.top q) platforms ->
  (0 <= Enemy.vel_y e)%Q ->
  rect_in_range
    (Rect.move (Enemy.rect e) 0 (py_round (fadd (Enemy.vel_y e) GRAVITY))) ->
  let v := fadd (Enemy.vel_y e) GRAVITY in
  let moved := Rect.move (Enemy.rect e) 0 (py_round v) in
  let e' := Enemy.update_fall platforms e in
  Rect.x (Enemy.rect e') = Rect.x (Enemy.rect e) /\
  Rect.w (Enemy.rect e') = Rect.w (Enemy.rect e) /\
  Rect.h (Enemy.rect e') = Rect.h (Enemy.rect e) /\
  rect_in_range (Enemy.rect e') /\
  match spritecollide (fun q => q) moved platforms with
  | [] => Enemy.rect e' = moved /\ Enemy.vel_y e' = v
  | h :: _ =>
      Rect.bottom (Enemy.rect e') = Rect.top h /\ Enemy.vel_y e' = 0%Q
  end.
Proof.
  intros [Hw Hh] Hps Htops Hv Hr. cbv zeta. unfold Enemy.update_fall. cbv zeta.
  cbn [Enemy.rect].
  assert (Hpos : fpos (fadd (Enemy.vel_y e) GRAVITY) = true).
  { apply fpos_fadd. unfold GRAVITY.
    apply Qlt_le_trans with (y := (0 + (4 # 5))%Q); [reflexivity|].
    apply Qplus_le_l. exact Hv. }
  match goal with |- context [fold_left _ ?l ?a] =>
    set (start := a); destruct l as [|h hits] eqn:Hhits
  end.
  - cbn [fold_left]. subst start. cbn [Enemy.rect Enemy.vel_y].
    split; [cbn; lia|]. split; [reflexivity|]. split; [reflexivity|].
    split; [exact Hr|]. split; reflexivity.
  - unfold spritecollide in Hhits. apply hits_head_in in Hhits.
    destruct Hhits as [Hin Hc].
    pose proof (positive_forall_in _ _ Hps Hin) as Hhp.
    assert (Htop : 0 <= Rect.top h)
      by (rewrite Forall_forall in Htops; exact (Htops h Hin)).
    apply colliderect_positive in Hc; [|split; cbn; assumption|assumption].
    assert (E : fold_left Enemy.land_hit (h :: hits) start =
                Enemy.mk (Rect.set_bottom (Enemy.rect start) (Rect.top h))
                  (Enemy.type e) (Enemy.speed e) (Enemy.dir e) (Enemy.aggro e)
                  (Enemy.shoot_timer e) 0).
    { cbn [fold_left]. unfold Enemy.land_hit at 2. subst start.
      cbn [Enemy.vel_y Enemy.rect Enemy.type Enemy.speed Enemy.dir Enemy.aggro
           Enemy.shoot_timer].
      rewrite Hpos.
      match goal with |- context [Rect.top h <? ?b] =>
        assert (Hlt : (Rect.top h <? b) = true)
          by (apply Z.ltb_lt; unfold Rect.top, Rect.bottom, Rect.move in *;
              cbn [Rect.x Rect.y Rect.w Rect.h] in *; lia);
        rewrite Hlt
      end.
      cbn [andb]. apply land_fold_rest. reflexivity. }
    rewrite E. subst start.
    unfold rect_in_range, rect_int, Rect.right, Rect.bottom, Rect.top, Rect.set_bottom,
      Rect.move in *.
    cbn [Enemy.rect Enemy.vel_y Rect.x Rect.y Rect.w Rect.h] in *.
    repeat split; try reflexivity; lia.
Qed.

Lemma enemy_lands_on_first_hit_witness :
  Rect.bottom (Enemy.rect (Enemy.update_fall [corner_tile] patroller)) = 96 /\
  Enemy.vel_y (Enemy.update_fall [corner_tile] patroller) = 0%Q /\
  rect_in_range (Enemy.rect (Enemy.update_fall [corner_tile] patroller)).
Proof.
  assert (Htops : Forall (fun q => 0 <= Rect.top q) [corner_tile])
    by (constructor; [vm_compute; discriminate|constructor]).
  assert (Hv0 : (0 <= Enemy.vel_y patroller)%Q) by (vm_compute; discriminate).
  assert (Hr : rect_in_range
                 (Rect.move (Enemy.rect patroller) 0
                    (py_round (fadd (Enemy.vel_y patroller) GRAVITY))))
    by (unfold rect_in_range, rect_int; repeat split; vm_compute; discriminate).
  destruct (enemy_lands_on_first_hit [corner_tile] patroller
              (conj eq_refl eq_refl)
              (Forall_cons corner_tile (conj eq_refl eq_refl) (Forall_nil positive))
              Htops Hv0 Hr)
    as (_ & _ & _ & Hrange & H).
  cbv zeta in H.
  change (spritecollide (fun q => q)
            (Rect.move (Enemy.rect patroller) 0
               (py_round (fadd (Enemy.vel_y patroller) GRAVITY))) [corner_tile])
    with [corner_tile] in H.
  destruct H as [Hb Hv]. split; [exact Hb|]. split; [exact Hv|exact Hrange].
Defined.

(** X21.  An enemy at rest stays at rest: standing on a platform with no
    vertical speed, and with no platform reaching above the level of its
    feet, it is after the vertical physics exactly as before. *)
Theorem enemy_rests_on_floor (platforms : list Platform.t) (e : Enemy.t)
    (q : Platform.t) :
  positive (Enemy.rect e) -> Forall positive platforms ->
  Enemy.vel_y e = 0%Q ->
  (forall r, In r platforms -> Rect.bottom (Enemy.rect e) <= Rect.top r) ->
  In q platforms -> enemy_on e q ->
  Enemy.update_fall platforms e = e.
Proof.
  intros [Hw Hh] Hps Hv Hfloor Hq (Htop & Hl & Hr).
  unfold Enemy.update_fall. cbv zeta. rewrite Hv.
  change (fadd 0 GRAVITY) with (4 # 5)%Q. change (py_round (4 # 5)) with 1.
  cbn [Enemy.rect].
  pose proof (positive_forall_in _ _ Hps Hq) as [Hqw Hqh].
  assert (Hin : In q (spritecollide (fun q => q)
                        (Rect.move (Enemy.rect e) 0 1) platforms)).
  { unfold spritecollide. apply filter_In. split; [assumption|].
    apply colliderect_positive; [split; cbn; assumption|split; assumption|].
    unfold Rect.top, Rect.bottom, Rect.left, Rect.right in *. cbn. lia. }
  match goal with |- context [fold_left _ ?l _] =>
    destruct l as [|h hits] eqn:Hhits; [contradiction|]
  end.
  unfold spritecollide in Hhits. apply hits_head_in in Hhits.
  destruct Hhits as [Hhin Hhc].
  pose proof (positive_forall_in _ _ Hps Hhin) as Hhp.
  apply colliderect_positive in Hhc; [|split; cbn; assumption|assumption].
  pose proof (Hfloor h Hhin) as Hfh.
  cbn [fold_left]. unfold Enemy.land_hit at 2. cbn [Enemy.vel_y Enemy.rect].
  change (fpos (4 # 5)) with true.
  match goal with |- context [Rect.top h <? ?b] =>
    assert (Hlt : (Rect.top h <? b) = true)
      by (apply Z.ltb_lt; unfold Rect.top, Rect.bottom, Rect.move in *;
          cbn [Rect.x Rect.y Rect.w Rect.h] in *; lia);
    rewrite Hlt
  end.
  cbn [andb]. rewrite land_fold_rest by reflexivity.
  destruct e as [[x y w h'] ty sp d ag st vy]. cbn in *. subst vy.
  unfold Rect.set_bottom, Rect.top, Rect.bottom in *. cbn in *.
  f_equal. f_equal; lia.
Qed.

Lemma enemy_rests_on_floor_witness :
  Enemy.update_fall [corner_tile] patroller = patroller.
Proof.
  apply (enemy_rests_on_floor [corner_tile] patroller corner_tile).
  - split; reflexivity.
  - repeat constructor.
  - reflexivity.
  - intros r [<-|[]]. vm_compute. discriminate.
  - left. reflexivity.
  - repeat split.
Defined.

(** ** The level builder *)

Lemma get_list_ascii (s : string) (j : nat) :
  nth_error (list_ascii_of_string s) j = String.get j s.
Proof.
  revert j. induction s as [|a s IH]; intros [|j]; cbn; auto.
Qed.

Lemma tiles_of_row_in (r c : Z) (row : list ascii) (q : Platform.t) :
  In q (tiles_of_row r c row) <->
  exists j, nth_error row j = Some "#"%char /\
            q = Rect.mk ((c + Z.of_nat j) * TILE) (r * TILE) TILE TILE.
Proof.
  revert c. induction row as [|ch row IH]; intros c; cbn [tiles_of_row].
  - split; [intros []|intros ([|j] & Hj & _); discriminate].
  - rewrite in_app_iff, IH. split.
    + intros [Hq|(j & Hj & Hq)].
      * destruct (Ascii.eqb_spec ch "#") as [->|]; [|destruct Hq].
        destruct Hq as [<-|[]]. exists 0%nat. split; [reflexivity|].
        unfold Platform.__init__, Rect.set_topleft, Rect.of_size. cbn.
        f_equal; lia.
      * exists (S j). split; [exact Hj|]. rewrite Hq. f_equal; lia.
    + intros ([|j] & Hj & Hq).
      * left. cbn in Hj. injection Hj as ->. cbn. left. rewrite Hq.
        unfold Platform.__init__, Rect.set_topleft, Rect.of_size. cbn.
        f_equal; lia.
      * right. exists j. split; [exact Hj|]. rewrite Hq. f_equal; lia.
Qed.

Lemma tiles_of_in (r : Z) (rows : list string) (q : Platform.t) :
  In q (tiles_of r rows) <->
  exists i j, cell rows i j = Some "#"%char /\
              q = Rect.mk (Z.of_nat j * TILE) ((r + Z.of_nat i) * TILE) TILE TILE.
Proof.
  revert r. induction rows as [|row rows IH]; intros r; cbn [tiles_of].
  - split; [intros []|intros ([|i] & j & Hc & _); discriminate].
  - rewrite in_app_iff, tiles_of_row_in, IH. split.
    + intros [(j & Hj & Hq)|(i & j & Hc & Hq)].
      * exists 0%nat, j. unfold cell. cbn [nth_error]. rewrite <- get_list_ascii.
        split; [exact Hj|]. rewrite Hq. f_equal; lia.
      * exists (S i), j. split; [exact Hc|]. rewrite Hq. f_equal; lia.
    + intros ([|i] & j & Hc & Hq).
      * left. exists j. unfold cell in Hc. cbn [nth_error] in Hc.
        rewrite <- get_list_ascii in Hc. split; [exact Hc|].
        rewrite Hq. f_equal; lia.
      * right. exists i, j. split; [exact Hc|]. rewrite Hq. f_equal; lia.
Qed.

Lemma scan_char_enemies (rng : Rng) (r c : Z) (ch : ascii) (s : Scan) :
  List.length (sc_enemies (scan_char rng r c ch s)) =
  (List.length (sc_enemies s) + if ascii_dec ch "E"%char then 1 else 0)%nat.
Proof.
  unfold scan_char. cbv zeta.
  destruct (Ascii.eqb_spec ch "#") as [->|H1]; [cbn; lia|].
  destruct (Ascii.eqb_spec ch "P") as [->|H2]; [cbn; lia|].
  destruct (Ascii.eqb_spec ch "E") as [->|H3].
  - cbn [sc_enemies]. rewrite length_app. reflexivity.
  - destruct (ascii_dec ch "E"%char) as [E|_]; [contradiction|].
    destruct (Ascii.eqb_spec ch "C"); cbn; lia.
Qed.

Lemma scan_row_enemies (rng : Rng) (r c : Z) (row : list ascii) (s : Scan) :
  List.length (sc_enemies (scan_row rng r c row s)) =
  (List.length (sc_enemies s) + count_occ ascii_dec row "E"%char)%nat.
Proof.
  revert c s. induction row as [|ch row IH]; intros c s; cbn [scan_row count_occ].
  - lia.
  - rewrite IH, scan_char_enemies. destruct (ascii_dec ch "E"%char); lia.
Qed.

Lemma scan_rows_enemies (rng : Rng) (r : Z) (rows : list string) (s : Scan) :
  List.length (sc_enemies (scan_rows rng r rows s)) =
  (List.length (sc_enemies s) + count_cells "E"%char rows)%nat.
Proof.
  revert r s. induction rows as [|row rows IH]; intros r s;
    cbn [scan_rows count_cells fold_right].
  - lia.
  - rewrite IH, scan_row_enemies. fold (count_cells "E"%char rows). lia.
Qed.

Lemma build_level_enemy_count (rng : Rng) (template : list string) (lv : Level) :
  build_level_from_template rng template = Some lv ->
  List.length (lv_enemies lv) = count_cells "E"%char template.
Proof.
  unfold build_level_from_template.
  destruct template as [|row0 rows]; [discriminate|].
  cbv zeta. intros H. injection H as <-. cbn [lv_enemies].
  exact (scan_rows_enemies rng 0 (row0 :: rows)
           (mkScan [] [] [] (TILE * 2, TILE * 6))).
Qed.

(** X22.  The level builder reads the template as a grid of [TILE]-sized
    cells: the level is as wide as the first row and as high as the number
    of rows, its platforms are exactly the cells that hold ['#'], one square
    tile each at column times [TILE], row times [TILE], and it has one enemy
    for every ['E']. *)
Theorem platforms_are_the_hash_cells (rng : Rng) (template : list string)
    (lv : Level) :
  build_level_from_template rng template = Some lv ->
  lv_width lv = Z.of_nat (String.length (hd EmptyString template)) * TILE /\
  lv_height lv = Z.of_nat (List.length template) * TILE /\
  List.length (lv_enemies lv) = count_cells "E"%char template /\
  forall q, In q (lv_platforms lv) <->
    exists i j, cell template i j = Some "#"%char /\
                q = Rect.mk (Z.of_nat j * TILE) (Z.of_nat i * TILE) TILE TILE.
Proof.
  unfold build_level_from_template.
  destruct template as [|row0 rows]; [discriminate|].
  cbv zeta. intros H. injection H as <-. cbn [lv_width lv_height lv_enemies lv_platforms hd].
  split; [reflexivity|]. split; [reflexivity|].
  split; [exact (scan_rows_enemies rng 0 (row0 :: rows)
                   (mkScan [] [] [] (TILE * 2, TILE * 6)))|].
  intros q.
  pose proof (scan_rows_platforms rng 0 (row0 :: rows)
                (mkScan [] [] [] (TILE * 2, TILE * 6))) as Hp.
  cbn [sc_platforms app] in Hp.
  change (In q (sc_platforms (scan_rows rng 0 (row0 :: rows)
                                (mkScan [] [] [] (TILE * 2, TILE * 6)))) <->
          exists i j, cell (row0 :: rows) i j = Some "#"%char /\
            q = Rect.mk (Z.of_nat j * TILE) (Z.of_nat i * TILE) TILE TILE).
  rewrite Hp, tiles_of_in. split; intros (i & j & Hc & Hq); exists i, j;
    (split; [exact Hc|]); rewrite Hq; f_equal; lia.
Qed.

Lemma platforms_are_the_hash_cells_witness :
  exists lv,
    build_level_from_template ambush_rng small_template = Some lv /\
    lv_width lv = 96 /\ lv_height lv = 96 /\
    In (Rect.mk 48 0 48 48) (lv_platforms lv).
Proof.
  eexists. split; [reflexivity|].
  match goal with |- lv_width ?l = _ /\ _ =>
    destruct (platforms_are_the_hash_cells ambush_rng small_template l eq_refl)
      as (Hw & Hh & _ & Hq)
  end.
  split; [exact Hw|]. split; [exact Hh|].
  apply Hq. exists 0%nat, 1%nat. split; reflexivity.
Defined.

Lemma scan_char_same (rng1 rng2 : Rng) (r c : Z) (ch : ascii) (s1 s2 : Scan) :
  same_scan s1 s2 ->
  same_scan (scan_char rng1 r c ch s1) (scan_char rng2 r c ch s2).
Proof.
  intros (Hp & Hc & Hs & He). unfold scan_char, same_scan. cbv zeta.
  repeat break_if; cbn [sc_platforms sc_enemies sc_collectibles sc_spawn];
    rewrite ?map_app, ?Hp, ?Hc, ?Hs, ?He; repeat split; reflexivity.
Qed.

Lemma scan_row_same (rng1 rng2 : Rng) (r c : Z) (row : list ascii) (s1 s2 : Scan) :
  same_scan s1 s2 ->
  same_scan (scan_row rng1 r c row s1) (scan_row rng2 r c row s2).
Proof.
  revert c s1 s2. induction row as [|ch row IH]; intros c s1 s2 H; cbn [scan_row].
  - exact H.
  - apply IH, scan_char_same, H.
Qed.

Lemma scan_rows_same (rng1 rng2 : Rng) (r : Z) (rows : list string) (s1 s2 : Scan) :
  same_scan s1 s2 ->
  same_scan (scan_rows rng1 r rows s1) (scan_rows rng2 r rows s2).
Proof.
  revert r s1 s2. induction rows as [|row rows IH]; intros r s1 s2 H; cbn [scan_rows].
  - exact H.
  - apply IH, scan_row_same, H.
Qed.

Lemma build_level_fields (rng : Rng) (template : list string) (lv : Level) :
  build_level_from_template rng template = Some lv ->
  let s := scan_rows rng 0 template (mkScan [] [] [] (TILE * 2, TILE * 6)) in
  lv_platforms lv = sc_platforms s /\ lv_enemies lv = sc_enemies s /\
  lv_collectibles lv = sc_collectibles s /\ lv_spawn lv = sc_spawn s /\
  lv_checkpoints lv =
    match sc_platforms s with
    | [] => []
    | p :: ps => [Checkpoint.__init__ (py_max_key p ps)]
    end /\
  lv_width lv = Z.of_nat (String.length (hd EmptyString template)) * TILE /\
  lv_height lv = Z.of_nat (List.length template) * TILE.
Proof.
  unfold build_level_from_template. destruct template as [|row0 rows]; [discriminate|].
  cbv zeta. intros H. injection H as <-. repeat split.
Qed.

Lemma build_level_layout (rng1 rng2 : Rng) (template : list string) (lv1 lv2 : Level) :
  build_level_from_template rng1 template = Some lv1 ->
  build_level_from_template rng2 template = Some lv2 ->
  layout lv1 = layout lv2 /\
  map Enemy.rect (lv_enemies lv1) = map Enemy.rect (lv_enemies lv2).
Proof.
  intros H1 H2.
  destruct (build_level_fields _ _ _ H1) as (P1 & E1 & C1 & S1 & K1 & W1 & L1).
  destruct (build_level_fields _ _ _ H2) as (P2 & E2 & C2 & S2 & K2 & W2 & L2).
  destruct (scan_rows_same rng1 rng2 0 template
              (mkScan [] [] [] (TILE * 2, TILE * 6))
              (mkScan [] [] [] (TILE * 2, TILE * 6))) as (Hp & Hc & Hs & He).
  { repeat split. }
  unfold layout.
  rewrite P1, P2, E1, E2, C1, C2, S1, S2, K1, K2, W1, W2, L1, L2, Hp, Hc, Hs, He.
  split; reflexivity.
Qed.

Lemma template_for_period (n k : Z) : template_for (n + 3 * k) = template_for n.
Proof.
  unfold template_for. change (Z.of_nat (List.length LEVEL_TEMPLATES)) with 3.
  replace (n + 3 * k - 1) with (n - 1 + k * 3) by lia.
  rewrite Z_mod_plus_full. reflexivity.
Qed.

Lemma template_for_cases (n : Z) :
  template_for n = nth 0 LEVEL_TEMPLATES [] \/
  template_for n = nth 1 LEVEL_TEMPLATES [] \/
  template_for n = nth 2 LEVEL_TEMPLATES [].
Proof.
  unfold template_for. change (Z.of_nat (List.length LEVEL_TEMPLATES)) with 3.
  pose proof (Z.mod_pos_bound (n - 1) 3 ltac:(lia)) as Hb.
  destruct (Z.to_nat ((n - 1) mod 3)) as [|[|[|k]]] eqn:Hk; auto. lia.
Qed.

Lemma load_level_unfold (rng : Rng) (n : Z) :
  LevelManager.load_level rng n =
  match build_level_from_template rng (template_for n) with
  | None => None
  | Some lv =>
      Some (mkLevel (lv_platforms lv)
              (LevelManager.add_extras rng
                 (Z.to_nat (enemy_count (LevelManager.settings_for n)
                            - Z.of_nat (List.length (lv_enemies lv))))
                 (lv_width lv) (lv_height lv)
                 (enemy_speed (LevelManager.settings_for n)) (lv_enemies lv))
              (lv_collectibles lv) (lv_spawn lv) (lv_checkpoints lv)
              (lv_width lv) (lv_height lv),
            LevelManager.settings_for n)
  end.
Proof. reflexivity. Qed.

(** X23.  The maps repeat every three stages and do not depend on the random
    draws: [load_level] succeeds for every stage number, and the levels of
    stages [n + 3k] and [n] have the same platforms, collectibles, spawn
    point, checkpoint and size, whatever the draws of the two loads. *)
Theorem levels_repeat_every_three (rng1 rng2 : Rng) (n k : Z) :
  exists lv1 lv2,
    LevelManager.load_level rng1 (n + 3 * k)
      = Some (lv1, LevelManager.settings_for (n + 3 * k)) /\
    LevelManager.load_level rng2 n = Some (lv2, LevelManager.settings_for n) /\
    layout lv1 = layout lv2.
Proof.
  rewrite !load_level_unfold, template_for_period.
  assert (Hne : template_for n <> []).
  { destruct (template_for_cases n) as [ -> | [ -> | -> ] ]; discriminate. }
  destruct (build_level_some rng1 _ Hne) as (b1 & H1).
  destruct (build_level_some rng2 _ Hne) as (b2 & H2).
  rewrite H1, H2. eexists. eexists. split; [reflexivity|]. split; [reflexivity|].
  destruct (build_level_layout rng1 rng2 _ b1 b2 H1 H2) as [Hl _].
  unfold layout in *. cbn. exact Hl.
Qed.

Lemma add_extras_spec (rng : Rng) (k : nat) (lw lh : Z) (speed : Q)
    (es : list Enemy.t) :
  exists extras,
    LevelManager.add_extras rng k lw lh speed es = es ++ extras /\
    List.length extras = k /\ Forall (extra_enemy speed) extras.
Proof.
  revert es. induction k as [|k IH]; intros es; cbn [LevelManager.add_extras].
  - exists []. rewrite app_nil_r. repeat split. constructor.
  - cbv zeta.
    match goal with |- context [es ++ [?e]] =>
      destruct (IH (es ++ [e])) as (extras & He & Hl & Hf);
      exists (e :: extras)
    end.
    rewrite He, <- app_assoc. split; [reflexivity|].
    split; [cbn; lia|]. constructor; [|exact Hf].
    unfold extra_enemy. cbn. repeat split; try reflexivity.
    destruct (pick2 _); discriminate.
Qed.

Lemma settings_for_count (n : Z) : 4 <= enemy_count (LevelManager.settings_for n).
Proof.
  unfold LevelManager.settings_for, DIFFICULTY.
  repeat break_if; cbn; lia.
Qed.

(** X24.  [load_level] fills every stage up to its enemy count.  The enemies
    of the template come first; behind them come the extra enemies, patrols
    and chasers of the stage's speed and never shooters, so that the level
    has exactly the stage's enemy count.  Stage numbers from 5 on, and those
    below 1, get the hardest settings. *)
Theorem load_level_fills_enemies (rng : Rng) (n : Z) :
  exists base lv extras,
    build_level_from_template rng (template_for n) = Some base /\
    LevelManager.load_level rng n = Some (lv, LevelManager.settings_for n) /\
    lv_enemies lv = lv_enemies base ++ extras /\
    Z.of_nat (List.length (lv_enemies lv))
      = enemy_count (LevelManager.settings_for n) /\
    Forall (extra_enemy (enemy_speed (LevelManager.settings_for n))) extras /\
    (n <= 0 \/ 5 <= n -> LevelManager.settings_for n = mkSettings 12 (23 # 10)).
Proof.
  rewrite load_level_unfold.
  assert (Hne : template_for n <> []).
  { destruct (template_for_cases n) as [ -> | [ -> | -> ] ]; discriminate. }
  destruct (build_level_some rng _ Hne) as (base & Hb). rewrite Hb.
  pose proof (build_level_enemy_count rng _ base Hb) as Hcount.
  assert (H3 : (List.length (lv_enemies base) <= 3)%nat).
  { rewrite Hcount.
    destruct (template_for_cases n) as [ -> | [ -> | -> ] ]; vm_compute; lia. }
  pose proof (settings_for_count n) as H4.
  match goal with |- context [LevelManager.add_extras ?g ?k ?a ?b ?s ?es] =>
    destruct (add_extras_spec g k a b s es) as (extras & He & Hl & Hf)
  end.
  exists base. eexists. exists extras.
  split; [reflexivity|]. split; [reflexivity|].
  cbn [lv_enemies]. split; [exact He|].
  split; [rewrite He, length_app, Hl; lia|].
  split; [exact Hf|].
  intros Hn. unfold LevelManager.settings_for, DIFFICULTY, DIFFICULTY_MAX_KEY.
  destruct Hn as [Hn|Hn].
  - rewrite Z.min_l by lia.
    repeat match goal with
           | |- context [?a =? ?b] => destruct (Z.eqb_spec a b); [lia|]
           end.
    reflexivity.
  - rewrite Z.min_r by lia. reflexivity.
Qed.

Lemma load_level_fills_enemies_witness :
  LevelManager.settings_for 6 = mkSettings 12 (23 # 10) /\
  LevelManager.settings_for 0 = mkSettings 12 (23 # 10).
Proof.
  split.
  - destruct (load_level_fills_enemies ambush_rng 6) as (_ & _ & _ & _ & _ & _ & _ & _ & H).
    apply H. right. lia.
  - destruct (load_level_fills_enemies ambush_rng 0) as (_ & _ & _ & _ & _ & _ & _ & _ & H).
    apply H. left. lia.
Defined.

(** ** The states of the loop *)

Lemma poll_no_control (evs : list Event) (go wn : bool) (t : Z) (pz : bool) :
  no_control evs = true -> poll_events evs go wn t pz = Proceed pz.
Proof.
  induction evs as [|e evs IH]; cbn [no_control forallb poll_events]; [reflexivity|].
  intros H. apply andb_true_iff in H. destruct H as [He Hr].
  destruct e as [|k|]; [discriminate| |exact (IH Hr)].
  destruct k; try discriminate; exact (IH Hr).
Qed.

Lemma frame_over_fixed (inp : Input) (d : Disk) (w : World) :
  game_over w = true \/ win w = true ->
  level_transition_timer w = 0 ->
  frame inp d w = Continues w \/ frame inp d w = Restarted \/
  frame inp d w = Exited (save_on_quit d w).
Proof.
  intros Hend Ht. unfold frame.
  destruct (poll_events _ _ _ _ _) as [pz| |] eqn:Hp; auto.
  left.
  assert (Hpz : pz = paused w).
  { apply (poll_events_proceed _ _ _ _ _ _ Hp).
    destruct Hend as [-> | ->]; [reflexivity|apply andb_false_iff; left; apply andb_false_r]. }
  assert (Hc : pz || game_over w || win w || (0 <? level_transition_timer w) = true).
  { destruct Hend as [-> | ->]; rewrite ?orb_true_r; reflexivity. }
  rewrite Hc. unfold frozen_frame. rewrite Ht. cbn [Z.ltb Z.compare].
  subst pz. destruct w; cbn in *. subst. reflexivity.
Qed.

(** X25.  Game over and win are final.  Once the game is over or won and no
    countdown is running, no input changes anything any more: whatever the
    frames bring, the loop goes on with the very same world, returns the
    restart signal, or exits saving that world's score. *)
Theorem game_over_is_final (inputs : list Input) (d : Disk) (w : World) :
  game_over w = true \/ win w = true ->
  level_transition_timer w = 0 ->
  run_frames inputs d w = Continues w \/ run_frames inputs d w = Restarted \/
  run_frames inputs d w = Exited (save_on_quit d w).
Proof.
  intros Hend Ht. induction inputs as [|inp rest IH]; cbn [run_frames]; [auto|].
  destruct (frame_over_fixed inp d w Hend Ht) as [-> |[-> | ->]]; auto.
Qed.

Lemma game_over_is_final_witness :
  run_frames [idle_input; pause_input; idle_input] None ended_world
    = Continues ended_world /\
  run_frames [idle_input; quit_input] None ended_world = Exited (Some 150).
Proof.
  split.
  - destruct (game_over_is_final [idle_input; pause_input; idle_input] None ended_world
                (or_introl eq_refl) eq_refl) as [H|[H|H]].
    + exact H.
    + vm_compute in H. discriminate H.
    + vm_compute in H. discriminate H.
  - destruct (game_over_is_final [idle_input; quit_input] None ended_world
                (or_introl eq_refl) eq_refl) as [H|[H|H]].
    + vm_compute in H. discriminate H.
    + vm_compute in H. discriminate H.
    + exact H.
Defined.

Lemma with_timer_same (w : World) : with_timer w (level_transition_timer w) = w.
Proof. destruct w. reflexivity. Qed.

Lemma with_timer_twice (w : World) (a b : Z) :
  with_timer (with_timer w a) b = with_timer w b.
Proof. reflexivity. Qed.

(** X26.  The countdown only counts.  While the transition countdown is
    running, frames without quit or restart request change nothing but the
    countdown, one step a frame: the simulation stands still and the pause
    key has no effect. *)
Theorem countdown_only_counts (inputs : list Input) (d : Disk) (w : World) :
  Forall (fun inp => requests_exit (events inp) = false) inputs ->
  Z.of_nat (List.length inputs) < level_transition_timer w ->
  run_frames inputs d w =
  Continues (with_timer w (level_transition_timer w - Z.of_nat (List.length inputs))).
Proof.
  revert w. induction inputs as [|inp rest IH]; intros w Hq Hlen.
  - cbn [run_frames List.length Z.of_nat]. rewrite Z.sub_0_r, with_timer_same.
    reflexivity.
  - inversion Hq as [|? ? Hinp Hrest]; subst.
    cbn [List.length] in *. rewrite Nat2Z.inj_succ in *.
    cbn [run_frames]. unfold frame.
    destruct (poll_events_quiet (events inp) (game_over w) (win w)
                (level_transition_timer w) (paused w) Hinp) as (pz & Hp & Hsame).
    rewrite Hp.
    assert (Hpz : pz = paused w).
    { apply Hsame. replace (level_transition_timer w =? 0) with false
        by (symmetry; apply Z.eqb_neq; lia).
      apply andb_false_r. }
    subst pz.
    replace (0 <? level_transition_timer w) with true
      by (symmetry; apply Z.ltb_lt; lia).
    rewrite !orb_true_r. unfold frozen_frame.
    replace (0 <? level_transition_timer w) with true
      by (symmetry; apply Z.ltb_lt; lia).
    replace (level_transition_timer w - 1 <=? 0) with false
      by (symmetry; apply Z.leb_gt; lia).
    change (mkWorld (highscore w) (LEVEL_WIDTH w) (LEVEL_HEIGHT w) (camera w)
              (platforms w) (enemies w) (collectibles w) (checkpoints w)
              (player_spawn w) (player w) (bullets w) (enemy_bullets w)
              (level_num w) (paused w) (game_over w) (win w)
              (level_clear_cool w) (level_transition_timer w - 1) (respawn_point w))
      with (with_timer w (level_transition_timer w - 1)).
    rewrite IH; [|exact Hrest|cbn; lia].
    rewrite with_timer_twice. cbn [level_transition_timer with_timer].
    f_equal. f_equal. lia.
Qed.

Lemma countdown_only_counts_witness :
  run_frames [idle_input; pause_input] None (with_timer (cleared_world 0) 54)
    = Continues (with_timer (cleared_world 0) 52).
Proof.
  apply (countdown_only_counts [idle_input; pause_input] None
           (with_timer (cleared_world 0) 54)).
  - repeat constructor.
  - cbn. lia.
Defined.

Lemma play_frame_ignores_pause (inp : Input) (pz : bool) (w : World) (b : bool) :
  play_frame inp pz
    (mkWorld (highscore w) (LEVEL_WIDTH w) (LEVEL_HEIGHT w) (camera w)
       (platforms w) (enemies w) (collectibles w) (checkpoints w)
       (player_spawn w) (player w) (bullets w) (enemy_bullets w)
       (level_num w) b (game_over w) (win w)
       (level_clear_cool w) (level_transition_timer w) (respawn_point w))
  = play_frame inp pz w.
Proof. reflexivity. Qed.

(** X27.  Pausing loses nothing.  In a running game the pause key freezes
    the world; frames without pause, restart or quit leave it frozen as it
    is; and the frame of the next pause key resumes the simulation from
    exactly the state in which it was stopped. *)
Theorem pause_resumes_where_it_stopped (inp1 inp2 : Input) (quiet : list Input)
    (d : Disk) (w : World) :
  paused w = false -> game_over w = false -> win w = false ->
  level_transition_timer w = 0 ->
  events inp1 = [KEYDOWN K_p] -> events inp2 = [KEYDOWN K_p] ->
  Forall (fun inp => no_control (events inp) = true) quiet ->
  run_frames (inp1 :: quiet) d w
    = Continues (mkWorld (highscore w) (LEVEL_WIDTH w) (LEVEL_HEIGHT w) (camera w)
                   (platforms w) (enemies w) (collectibles w) (checkpoints w)
                   (player_spawn w) (player w) (bullets w) (enemy_bullets w)
                   (level_num w) true false false
                   (level_clear_cool w) 0 (respawn_point w)) /\
  run_frames (inp1 :: quiet ++ [inp2]) d w = Continues (play_frame inp2 false w).
Proof.
  intros Hp Hg Hw Ht He1 He2 Hq.
  set (w1 := mkWorld (highscore w) (LEVEL_WIDTH w) (LEVEL_HEIGHT w) (camera w)
               (platforms w) (enemies w) (collectibles w) (checkpoints w)
               (player_spawn w) (player w) (bullets w) (enemy_bullets w)
               (level_num w) true false false
               (level_clear_cool w) 0 (respawn_point w)).
  assert (H1 : frame inp1 d w = Continues w1).
  { unfold frame. rewrite He1, Hp, Hg, Hw, Ht. cbn. unfold frozen_frame.
    rewrite Ht, Hg, Hw. reflexivity. }
  assert (Hstay : forall inp, no_control (events inp) = true ->
                  frame inp d w1 = Continues w1).
  { intros inp Hn. unfold frame. rewrite (poll_no_control _ _ _ _ _ Hn).
    reflexivity. }
  assert (Hrun : forall tail, run_frames (quiet ++ tail) d w1 = run_frames tail d w1).
  { intros tail. induction Hq as [|inp rest Hn _ IH]; [reflexivity|].
    cbn [app run_frames]. rewrite (Hstay inp Hn). exact IH. }
  split.
  - cbn [run_frames]. rewrite H1.
    rewrite <- (app_nil_r quiet), Hrun. reflexivity.
  - cbn [run_frames]. rewrite H1, Hrun. cbn [run_frames].
    assert (H2 : frame inp2 d w1 = Continues (play_frame inp2 false w)).
    { unfold frame. rewrite He2. cbn.
      rewrite <- (play_frame_ignores_pause inp2 false w true).
      rewrite Hg, Hw, Ht. reflexivity. }
    rewrite H2. reflexivity.
Qed.

Lemma pause_resumes_where_it_stopped_witness :
  run_frames [pause_input; idle_input; idle_input; pause_input] None (cleared_world 0)
    = Continues (play_frame pause_input false (cleared_world 0)).
Proof.
  apply (pause_resumes_where_it_stopped pause_input pause_input
           [idle_input; idle_input] None (cleared_world 0));
    try reflexivity.
  repeat constructor.
Defined.

(** ** Particles *)

Lemma particle_update_some (p p' : Particle.t) :
  Particle.update p = Some p' ->
  1 < Particle.lifespan p /\
  Particle.lifespan p' = Particle.lifespan p - 1 /\
  Particle.vel_x p' = Particle.vel_x p /\
  Rect.w (Particle.rect p') = Rect.w (Particle.rect p) /\
  Rect.h (Particle.rect p') = Rect.h (Particle.rect p).
Proof.
  unfold Particle.update. cbv zeta.
  destruct (Z.leb_spec (Particle.lifespan p - 1) 0) as [|Hlife]; [discriminate|].
  intros Hsome. injection Hsome as <-. cbn. repeat split; lia.
Qed.

(** X28.  A particle lives as long as its lifespan says.  Every update takes
    one off the lifespan and kills the particle when that reaches zero: a
    particle of lifespan [L] is still alive after any number of updates below
    [L], with its horizontal speed and its size unchanged, and dead after
    [L] updates; a particle whose lifespan is not positive dies at its first
    update. *)
Theorem particle_lives_its_lifespan (n : nat) (p : Particle.t) :
  (Z.of_nat n < Particle.lifespan p ->
   exists p', particle_life n p = Some p' /\
     Particle.lifespan p' = Particle.lifespan p - Z.of_nat n /\
     Particle.vel_x p' = Particle.vel_x p /\
     Rect.w (Particle.rect p') = Rect.w (Particle.rect p) /\
     Rect.h (Particle.rect p') = Rect.h (Particle.rect p)) /\
  ((0 < n)%nat -> Particle.lifespan p <= Z.of_nat n -> particle_life n p = None).
Proof.
  revert p. induction n as [|n IH]; intros p.
  - split; [|lia]. intros _. exists p. cbn. repeat split; lia.
  - rewrite Nat2Z.inj_succ. cbn [particle_life]. split.
    + intros Hl. unfold Particle.update at 1. cbv zeta.
      destruct (Z.leb_spec (Particle.lifespan p - 1) 0) as [|_]; [lia|].
      match goal with |- context [particle_life n ?q] =>
        destruct (proj1 (IH q)) as (p' & Hp' & Hls & Hv & Hw & Hh); [cbn; lia|];
        exists p'
      end.
      cbn in Hls, Hv, Hw, Hh. repeat split; try assumption; lia.
    + intros _ Hl. destruct (Particle.update p) as [q|] eqn:Hu; [|reflexivity].
      apply particle_update_some in Hu. destruct Hu as (H1 & Hq & _).
      apply (proj2 (IH q)); lia.
Qed.

Lemma particle_lives_its_lifespan_witness :
  (exists p', particle_life 39 (Particle.__init__ (10, 10) (1%Q, (-2)%Q) 40) = Some p' /\
              Particle.lifespan p' = 1) /\
  particle_life 40 (Particle.__init__ (10, 10) (1%Q, (-2)%Q) 40) = None.
Proof.
  destruct (particle_lives_its_lifespan 39 (Particle.__init__ (10, 10) (1%Q, (-2)%Q) 40))
    as [Halive _].
  destruct (particle_lives_its_lifespan 40 (Particle.__init__ (10, 10) (1%Q, (-2)%Q) 40))
    as [_ Hdead].
  split.
  - destruct (Halive ltac:(cbn; lia)) as (p' & Hp' & Hl & _).
    exists p'. split; [exact Hp'|exact Hl].
  - apply Hdead; cbn; lia.
Defined.

(** ** Enemies below the level *)

Lemma py_round_nonneg (q : Q) : 0 <= Qnum q -> 0 <= py_round q.
Proof.
  intros Hn. unfold py_round. cbv zeta.
  assert (0 <= Qnum q / Z.pos (Qden q)) by (apply Z.div_pos; lia).
  repeat break_if; lia.
Qed.

Lemma filter_none {A : Type} (f : A -> bool) (l : list A) :
  (forall a, In a l -> f a = false) -> filter f l = [].
Proof.
  induction l as [|x l IH]; intros H; cbn [filter]; [reflexivity|].
  rewrite (H x (or_introl eq_refl)). apply IH. intros a Ha. apply H. right. exact Ha.
Qed.

Lemma low_bullet_misses (LH : Z) (b : Bullet.t) (e : Enemy.t) :
  Rect.h (Bullet.rect b) = 8 -> Rect.top (Bullet.rect b) <= LH ->
  out_of_reach LH e ->
  Rect.colliderect (Bullet.rect b) (Enemy.rect e) = false.
Proof.
  intros Hh Ht ([Hw He] & Hlow & _). unfold Rect.colliderect.
  break_if; [reflexivity|].
  apply andb_false_iff. right. apply Z.ltb_ge.
  unfold Rect.top in *. lia.
Qed.

Lemma bullets_update_low (W H : Z) (bs : list Bullet.t) :
  bullets_sized bs ->
  Forall (fun b => Rect.h (Bullet.rect b) = 8 /\ Rect.top (Bullet.rect b) <= H)
    (bullets_update W H bs).
Proof.
  induction 1 as [|b bs Hb _ IH]; cbn [bullets_update]; [constructor|].
  destruct (Bullet.update W H b) as [b'|] eqn:Hu; [|exact IH].
  constructor; [|exact IH].
  apply bullet_update_some in Hu. destruct Hu as (Hr & _ & _ & _ & Hin).
  split; [rewrite Hr; exact Hb|]. destruct Hin as (_ & _ & Ht & _). exact Ht.
Qed.

Lemma remove_first_keeps {A : Type} (f : A -> bool) (l : list A) (a : A) :
  In a l -> f a = false -> In a (remove_first f l).
Proof.
  intros Hin Hf. induction l as [|x l IH]; cbn [remove_first]; [destruct Hin|].
  destruct (f x) eqn:Hx.
  - destruct Hin as [->|Hin]; [congruence|exact Hin].
  - destruct Hin as [->|Hin]; [left; reflexivity|right; exact (IH Hin)].
Qed.

Lemma bullet_hits_spares (bs : list Bullet.t) (es : list Enemy.t) (score : Z)
    (e : Enemy.t) :
  Forall (fun b => Rect.colliderect (Bullet.rect b) (Enemy.rect e) = false) bs ->
  In e es ->
  In e (snd (fst (bullet_hits bs es score))) /\
  forall b, In b (fst (fst (bullet_hits bs es score))) -> In b bs.
Proof.
  intros Hmiss. revert es score.
  induction Hmiss as [|b bs Hb _ IH]; intros es score Hin; cbn [bullet_hits].
  - split; [exact Hin|intros b []].
  - destruct (spritecollideany Enemy.rect (Bullet.rect b) es).
    + destruct (IH (remove_first
                      (fun e0 => Rect.colliderect (Bullet.rect b) (Enemy.rect e0)) es)
                   (score + 100)) as [He Hsub].
      { apply remove_first_keeps; assumption. }
      split; [exact He|]. intros b0 Hb0. right. apply Hsub, Hb0.
    + destruct (IH es score Hin) as [He Hsub].
      destruct (bullet_hits bs es score) as [[bs' es'] sc']. cbn [fst snd] in *.
      split; [exact He|]. intros b0 [<-|Hb0]; [left; reflexivity|right; apply Hsub, Hb0].
Qed.

Lemma update_walk_vertical (platforms : list Platform.t) (r : Rect.t) (e : Enemy.t) :
  let e' := Enemy.update_walk platforms r e in
  Rect.y (Enemy.rect e') = Rect.y (Enemy.rect e) /\
  Rect.w (Enemy.rect e') = Rect.w (Enemy.rect e) /\
  Rect.h (Enemy.rect e') = Rect.h (Enemy.rect e) /\
  Enemy.vel_y e' = Enemy.vel_y e.
Proof.
  cbv zeta. unfold Enemy.update_walk.
  destruct (negb _ || _); [cbn; repeat split; reflexivity|].
  destruct (Enemy.type e); cbv zeta; repeat break_if; cbn; repeat split; lia.
Qed.

Lemma update_shoot_vertical (aim : Aim) (t : Z) (r : Rect.t) (ebs : list Bullet.t)
    (e : Enemy.t) :
  let e' := fst (Enemy.update_shoot aim t r ebs e) in
  Enemy.rect e' = Enemy.rect e /\ Enemy.vel_y e' = Enemy.vel_y e.
Proof.
  cbv zeta. unfold Enemy.update_shoot. cbv zeta. break_if; cbn; split; reflexivity.
Qed.

Lemma update_fall_sinks (LH : Z) (platforms : list Platform.t) (e : Enemy.t) :
  (forall q, In q platforms -> positive q /\ Rect.bottom q <= LH + 8) ->
  out_of_reach LH e ->
  out_of_reach LH (Enemy.update_fall platforms e) /\
  Rect.top (Enemy.rect e) <= Rect.top (Enemy.rect (Enemy.update_fall platforms e)).
Proof.
  intros Hps ([Hw Hh] & Hlow & Hv).
  assert (Hpos : fpos (fadd (Enemy.vel_y e) GRAVITY) = true).
  { apply fpos_fadd. unfold GRAVITY.
    apply Qlt_le_trans with (y := (0 + (4 # 5))%Q); [reflexivity|].
    apply Qplus_le_l. exact Hv. }
  assert (Hstep : 0 <= py_round (fadd (Enemy.vel_y e) GRAVITY)).
  { apply py_round_nonneg. unfold fpos in Hpos. apply Z.ltb_lt in Hpos. lia. }
  unfold Enemy.update_fall. cbv zeta. cbn [Enemy.rect].
  unfold spritecollide. rewrite filter_none.
  - cbn [fold_left]. unfold out_of_reach, positive, Rect.top in *.
    cbn [Enemy.rect Enemy.vel_y Rect.move Rect.x Rect.y Rect.w Rect.h].
    repeat split; try lia.
    apply Qlt_le_weak, fpos_Qlt, Hpos.
  - intros q Hq. destruct (Hps q Hq) as [Hqp Hqb].
    apply colliderect_false_positive; [split; cbn; assumption|exact Hqp|].
    unfold Rect.bottom, Rect.top in *. cbn. lia.
Qed.

Lemma enemy_update_sinks (LH : Z) (aim : Aim) (t : Z) (platforms : list Platform.t)
    (r : Rect.t) (ebs : list Bullet.t) (e : Enemy.t) :
  (forall q, In q platforms -> positive q /\ Rect.bottom q <= LH + 8) ->
  out_of_reach LH e ->
  out_of_reach LH (fst (Enemy.update aim t platforms r ebs e)).
Proof.
  intros Hps He. unfold Enemy.update. cbn [fst].
  apply update_fall_sinks; [exact Hps|].
  destruct He as ([Hw Hh] & Hlow & Hv).
  destruct (Enemy.type e); cbn [fst].
  - destruct (update_walk_vertical platforms r e) as (Hy & Hw' & Hh' & Hv').
    unfold out_of_reach, positive, Rect.top. rewrite Hy, Hw', Hh', Hv'. auto.
  - destruct (update_walk_vertical platforms r e) as (Hy & Hw' & Hh' & Hv').
    unfold out_of_reach, positive, Rect.top. rewrite Hy, Hw', Hh', Hv'. auto.
  - destruct (update_shoot_vertical aim t r ebs e) as (Hr & Hv').
    unfold out_of_reach, positive. rewrite Hr, Hv'. auto.
Qed.

Lemma enemies_update_sinks (LH : Z) (aim : Aim) (draw : nat -> Z) (i : nat)
    (platforms : list Platform.t) (r : Rect.t) (es : list Enemy.t)
    (ebs : list Bullet.t) :
  (forall q, In q platforms -> positive q /\ Rect.bottom q <= LH + 8) ->
  (exists e, In e es /\ out_of_reach LH e) ->
  exists e', In e' (fst (enemies_update aim draw i platforms r es ebs)) /\
             out_of_reach LH e'.
Proof.
  intros Hps (e & Hin & He). revert i ebs.
  induction es as [|x es IH]; intros i ebs; [destruct Hin|].
  cbn [enemies_update]. cbv zeta. cbn [fst].
  destruct Hin as [->|Hin].
  - eexists. split; [left; reflexivity|]. apply enemy_update_sinks; assumption.
  - destruct (IH Hin (S i) (snd (Enemy.update aim (draw i) platforms r ebs x)))
      as (e' & He' & Hlow).
    exists e'. split; [right; exact He'|exact Hlow].
Qed.

Lemma update_shoot_sized (aim : Aim) (c : Controls) (camera : Camera.t)
    (p : Player.t) (bs : list Bullet.t) :
  bullets_sized bs -> bullets_sized (Player.update_shoot aim c camera p bs).
Proof.
  intros Hb. unfold Player.update_shoot. cbv zeta.
  repeat break_if; try exact Hb.
  apply Forall_app. split; [exact Hb|]. constructor; [reflexivity|constructor].
Qed.

Lemma player_pass_bullets (inp : Input) (w : World) :
  snd (fst (player_pass inp w)) =
  Player.update_shoot (aim inp) (controls inp) (camera w) (before_fall_test inp w)
    (bullets w).
Proof.
  unfold player_pass, Player.update, before_fall_test. cbv zeta.
  break_if; reflexivity.
Qed.

Lemma play_frame_fight (inp : Input) (pz : bool) (w : World) :
  exists r score,
    let bs := bullets_update (LEVEL_WIDTH w) (LEVEL_HEIGHT w)
                (snd (fst (player_pass inp w))) in
    let es := fst (enemies_update (aim inp) (shooter_draw inp) 0 (platforms w) r
                     (enemies w) (enemy_bullets w)) in
    enemies (play_frame inp pz w) = snd (fst (bullet_hits bs es score)) /\
    bullets (play_frame inp pz w) = fst (fst (bullet_hits bs es score)) /\
    LEVEL_HEIGHT (play_frame inp pz w) = LEVEL_HEIGHT w /\
    platforms (play_frame inp pz w) = platforms w /\
    level_num (play_frame inp pz w) = level_num w.
Proof.
  unfold play_frame.
  destruct (player_pass inp w) as [[p bs] go].
  exists (Player.rect p), (Player.score p). cbv zeta. cbn [fst snd].
  destruct (enemies_update _ _ _ _ _ _ _) as [es ebs]. cbn [fst].
  destruct (bullet_hits _ _ _) as [[bs' es'] score].
  destruct (enemy_bullet_hits _ _ _ _) as [[ebs' lives] go'].
  destruct (touch_enemy _ _ _) as [p2 go2].
  destruct (collect _ _ _) as [cs score'].
  destruct (checkpoint_pass _ _ _ _) as [[cps rp] timer].
  destruct (level_clear _ _ _ _) as [cool timer'].
  cbn. repeat split.
Qed.

Lemma play_frame_fallen (inp : Input) (pz : bool) (w : World) :
  bullets_sized (bullets w) -> platforms_within w -> has_fallen_enemy w ->
  let w' := play_frame inp pz w in
  bullets_sized (bullets w') /\ platforms_within w' /\ has_fallen_enemy w' /\
  level_num w' = level_num w.
Proof.
  intros Hb Hp Hf. cbv zeta.
  destruct (play_frame_fight inp pz w) as (r & score & He & Hbs & HL & HP & Hn).
  cbv zeta in He, Hbs.
  destruct (enemies_update_sinks (LEVEL_HEIGHT w) (aim inp) (shooter_draw inp) 0
              (platforms w) r (enemies w) (enemy_bullets w) Hp Hf)
    as (e' & Hin & Hlow).
  pose proof (bullets_update_low (LEVEL_WIDTH w) (LEVEL_HEIGHT w)
                (snd (fst (player_pass inp w)))) as Hlowb.
  rewrite player_pass_bullets in Hlowb, He, Hbs.
  specialize (Hlowb (update_shoot_sized _ _ _ _ _ Hb)).
  match type of He with
  | _ = snd (fst (bullet_hits ?bs ?es ?sc)) =>
      destruct (bullet_hits_spares bs es sc e') as [Hkept Hsub]
  end.
  { eapply Forall_impl; [|exact Hlowb]. cbv beta. intros b [Hh Ht].
    eapply low_bullet_misses; eassumption. }
  { exact Hin. }
  unfold has_fallen_enemy, platforms_within. rewrite He, Hbs, HL, HP.
  split.
  - apply Forall_forall. intros b Hb'. apply Hsub in Hb'.
    rewrite Forall_forall in Hlowb. exact (proj1 (Hlowb b Hb')).
  - split; [exact Hp|]. split; [|exact Hn].
    exists e'. split; assumption.
Qed.

Lemma frozen_frame_fallen (inp : Input) (pz : bool) (w w' : World) :
  frozen_frame inp pz w = Continues w' ->
  level_num w <= level_num w' /\
  (level_num w' = level_num w ->
   bullets w' = bullets w /\ platforms w' = platforms w /\
   enemies w' = enemies w /\ LEVEL_HEIGHT w' = LEVEL_HEIGHT w).
Proof.
  unfold frozen_frame. cbv zeta.
  repeat break_if; try discriminate;
    try (destruct (LevelManager.load_level _ _) as [[lv st]|]; [|discriminate]);
    intros Hc; injection Hc as <-; cbn; (split; [lia|]); intros Hn;
    try lia; repeat split.
Qed.

Lemma frame_fallen (inp : Input) (d : Disk) (w w' : World) :
  frame inp d w = Continues w' ->
  level_num w <= level_num w' /\
  (level_num w' = level_num w ->
   bullets_sized (bullets w) -> platforms_within w -> has_fallen_enemy w ->
   bullets_sized (bullets w') /\ platforms_within w' /\ has_fallen_enemy w').
Proof.
  intros Hf. apply frame_cases in Hf.
  destruct Hf as (pz & _ & [[_ Hfz]| [_ ->]]).
  - apply frozen_frame_fallen in Hfz. destruct Hfz as [Hle Hsame].
    split; [exact Hle|]. intros Hn Hb Hp Hfall.
    destruct (Hsame Hn) as (Eb & Ep & Ee & EL).
    unfold platforms_within, has_fallen_enemy. rewrite Eb, Ep, Ee, EL. auto.
  - split.
    + destruct (play_frame_fight inp pz w) as (_ & _ & _ & _ & _ & _ & Hn).
      cbv zeta in Hn. lia.
    + intros _ Hb Hp Hfall.
      destruct (play_frame_fallen inp pz w Hb Hp Hfall) as (A & B & C & _). auto.
Qed.

Lemma run_frames_level_up (inputs : list Input) (d : Disk) (w w' : World) :
  run_frames inputs d w = Continues w' -> level_num w <= level_num w'.
Proof.
  revert w. induction inputs as [|inp rest IH]; intros w; cbn [run_frames].
  - intros H. injection H as <-. lia.
  - destruct (frame inp d w) as [w1| | |] eqn:Hf; try discriminate.
    intros H. apply IH in H. apply frame_fallen in Hf. lia.
Qed.

(** X29.  An enemy that has fallen out of the level cannot be shot.  Bullets
    kill themselves as soon as their top edge leaves the level and enemies
    have no falling death, so an enemy whose top edge is a bullet's height
    or more below the level, with no platform down there, keeps sinking and
    is missed by every bullet: as long as the stage lasts, whatever the
    player does, the stage keeps an enemy out of reach. *)
Theorem fallen_enemy_is_never_shot (inputs : list Input) (d : Disk) (w w' : World) :
  bullets_sized (bullets w) -> platforms_within w -> has_fallen_enemy w ->
  run_frames inputs d w = Continues w' ->
  level_num w' = level_num w ->
  has_fallen_enemy w' /\ enemies w' <> [].
Proof.
  revert w. induction inputs as [|inp rest IH]; intros w Hb Hp Hf; cbn [run_frames].
  - intros H _. injection H as <-. split; [exact Hf|].
    destruct Hf as (e & Hin & _). intros Hnil. rewrite Hnil in Hin. destruct Hin.
  - destruct (frame inp d w) as [w1| | |] eqn:Hfr; try discriminate.
    intros Hrun Hn.
    pose proof (run_frames_level_up _ _ _ _ Hrun) as Hup.
    apply frame_fallen in Hfr. destruct Hfr as [Hle Hkeep].
    destruct (Hkeep ltac:(lia) Hb Hp Hf) as (Hb1 & Hp1 & Hf1).
    apply (IH w1 Hb1 Hp1 Hf1 Hrun). lia.
Qed.

Lemma fallen_enemy_is_never_shot_witness :
  enemies (world_after [idle_input; pause_input; idle_input; pause_input; idle_input]
             None sunk_world) <> [].
Proof.
  apply (fallen_enemy_is_never_shot
           [idle_input; pause_input; idle_input; pause_input; idle_input]
           None sunk_world).
  - constructor.
  - intros q [<-|[]]. split; [split; reflexivity|vm_compute; discriminate].
  - eexists. split; [left; reflexivity|].
    split; [split; reflexivity|]. split; vm_compute; discriminate.
  - vm_compute. reflexivity.
  - vm_compute. reflexivity.
Defined.

(** ** Jump buffering *)

Lemma handle_events_spec (evs : list Event) (p : Player.t) :
  Player.handle_events evs p =
  if jump_pressed evs then Player.set_jump_buffer p JUMP_BUFFER else p.
Proof.
  unfold Player.handle_events, jump_pressed. revert p.
  induction evs as [|e evs IH]; intros p; cbn [fold_left existsb]; [reflexivity|].
  rewrite IH. destruct e as [|k|]; cbn [orb]; try reflexivity.
  destruct (Player.is_jump_key k); cbn [orb]; [|reflexivity].
  destruct (existsb _ evs); reflexivity.
Qed.

(** X30.  Jump buffering.  [handle_events] arms the jump buffer with
    [JUMP_BUFFER] frames when a jump key (space, W or up) is among the
    frame's events, however many and in whatever order, and otherwise leaves
    the player alone.  A press on the ground or within coyote time launches
    the player in the same frame at full jump power, whatever keys are held;
    without a press and with an empty buffer the controls never change the
    vertical speed or the double jump. *)
Theorem jump_press_launches (evs : list Event) (c : Controls) (p : Player.t) :
  Player.handle_events evs p
    = (if jump_pressed evs then Player.set_jump_buffer p JUMP_BUFFER else p) /\
  (jump_pressed evs = true ->
   Player.on_ground p = true \/ 0 < Player.coyote_timer p ->
   let m := Player.update_controls c (Player.handle_events evs p) in
   Player.vel_y m = inject_Z (Player.jump_power p) /\
   Player.jump_buffer m = 0 /\ Player.double_jump m = true /\
   Player.on_ground m = false) /\
  (jump_pressed evs = false -> Player.jump_buffer p <= 0 ->
   let m := Player.update_controls c (Player.handle_events evs p) in
   Player.vel_y m = Player.vel_y p /\
   Player.double_jump m = Player.double_jump p /\
   Player.jump_buffer m = Player.jump_buffer p).
Proof.
  split; [apply handle_events_spec|]. rewrite handle_events_spec. split.
  - intros -> Hg. cbv zeta. unfold Player.update_controls. cbv zeta.
    match goal with |- context [Player.update_move c ?q] =>
      destruct (update_move_keeps c q) as (_ & _ & Hjp & _ & _ & Hct & Hjb & _);
      set (m0 := Player.update_move c q) in *
    end.
    cbn [Player.set_jump_buffer Player.set_on_ground Player.on_ground
         Player.jump_buffer Player.coyote_timer Player.jump_power] in *.
    unfold Player.update_jump. rewrite Hjb. change (0 <? JUMP_BUFFER) with true.
    cbv iota.
    assert (Hgo : Player.on_ground p || (0 <? Player.coyote_timer m0) = true).
    { destruct Hg as [-> | Hc]; [reflexivity|].
      rewrite Hct. apply orb_true_iff. right. apply Z.ltb_lt. exact Hc. }
    rewrite Hgo. cbn. rewrite Hjp. repeat split.
  - intros -> Hb. cbv zeta. unfold Player.update_controls. cbv zeta.
    match goal with |- context [Player.update_move c ?q] =>
      destruct (update_move_keeps c q) as (_ & Hv & _ & _ & Hdj & _ & Hjb & _);
      set (m0 := Player.update_move c q) in *
    end.
    cbn [Player.set_on_ground Player.jump_buffer Player.vel_y Player.double_jump] in *.
    rewrite update_jump_idle by lia. auto.
Qed.

Lemma jump_press_launches_witness :
  Player.vel_y
    (Player.update_controls no_keys
       (Player.handle_events [OTHER_EVENT; KEYDOWN K_w; KEYDOWN K_p] rester))
    = inject_Z (-15).
Proof.
  destruct (jump_press_launches [OTHER_EVENT; KEYDOWN K_w; KEYDOWN K_p] no_keys rester)
    as (_ & Hjump & _).
  exact (proj1 (Hjump eq_refl (or_introl eq_refl))).
Defined.

(** * The stage a transition loads (C7) *)





